(** * pcopylib: the copy / de-duplication engine of photoutils

    A shallow embedding of [pcopylib] (the library behind the [pcopy] and
    [pclassify] front ends) together with the properties its specification
    states about it.

    Layout
    - Go values: strings are byte strings ([string]), [int] and [int64] are
      [Z] with the 64-bit wrap-around written out;
    - the packages the engine calls ([strconv], [filepath], [os], [io],
      [fmt], [sort]) are modelled in modules of the same name, over an
      explicit file-system state [world]: a finite map from resolved paths
      to files and directories, the lines printed so far, and the
      conditions under which the system refuses a call;
    - the functions of [pcopylib] are translated one by one, in a state
      monad whose runs end normally, in a Go run-time panic, or run out of
      fuel (the collision loop of [CopyFileInternal] is not structurally
      recursive);
    - sample file systems and the vocabulary of the statements;
    - the lemmas and theorems, each theorem with its instance on a sample
      file system.

    The digest is a parameter ([md5hex]); so is the concurrent part of
    [CopyDirectory], the walk with its worker pool ([walkAndWork]).

    A second round of definitions and theorems covers the rest of the
    program: [CopyFile], the job of a worker and the callback of the walk
    of [CopyDirectory], the command [pcopy], and of [pclassify] the
    command line, the folders and [classify].  What these take from
    outside the program ([strings.ToLower], the decoder of the date a
    photo was taken, the time zone) is a parameter as well. *)

From Stdlib Require Import ZArith String Ascii List Lia.
From Stdlib.Strings Require Import Byte.
From Stdlib Require Import DecimalString DecimalZ.
From stdpp Require Import base option list gmap strings sorting.

Local Open Scope Z_scope.

(* ===================================================================== *)
(** * Go values *)
(* ===================================================================== *)

(** Two's complement wrap-around of Go's [int64] (and of [int] on the
    64-bit platforms the tool is built for). *)
Definition wrap64 (z : Z) : Z := (z + 2 ^ 63) mod 2 ^ 64 - 2 ^ 63.

(** Go's integer division truncates toward zero. *)
Definition go_div (a b : Z) : Z := Z.quot a b.

(** [len(s)] *)
Definition len (s : string) : Z := Z.of_nat (String.length s).

(** [s[:n]] for [0 <= n <= len(s)] (outside that range Go panics; the
    engine only slices at [len(target) - len(extName)]). *)
Definition slice_to (s : string) (n : Z) : string :=
  substring 0 (Z.to_nat n) s.

(** [s[i:]] *)
Definition slice_from (s : string) (i : nat) : string :=
  substring i (String.length s - i) s.

(** No byte of [s] is the path separator. *)
Fixpoint noslash (s : string) : bool :=
  match s with
  | EmptyString => true
  | String c s' => negb (Ascii.eqb c "/") && noslash s'
  end.

(** Number of occurrences of a byte in a string. *)
Fixpoint count_char (c : ascii) (s : string) : nat :=
  match s with
  | EmptyString => 0%nat
  | String d s' => ((if Ascii.eqb c d then 1 else 0) + count_char c s')%nat
  end.

Module strconv.
(** [strconv.Itoa]: the decimal representation, with a leading [-] for
    negative numbers. *)
Definition Itoa (i : Z) : string := NilZero.string_of_int (Z.to_int i).
End strconv.

Module filepath.
(** [filepath.Ext] (Unix): scan from the last byte backwards; stop at a
    separator; the extension starts at the first dot met.

    for i := len(path) - 1; i >= 0 && !os.IsPathSeparator(path[i]); i-- {
      if path[i] == '.' { return path[i:] }
    }
    return ""

    [Ext_loop path n] is the loop entered with [i = n - 1]. *)
Fixpoint Ext_loop (path : string) (n : nat) : string :=
  match n with
  | O => ""
  | S i =>
      match String.get i path with
      | Some c =>
          if Ascii.eqb c "/" then ""
          else if Ascii.eqb c "." then slice_from path i
          else Ext_loop path i
      | None => ""
      end
  end.

Definition Ext (path : string) : string :=
  Ext_loop path (String.length path).
End filepath.

(* ===================================================================== *)
(** * The file system *)
(* ===================================================================== *)

(** A resolved path is the list of directory entries from the root
    ([list string]).  A directory does not hold its entries: the entries
    of [d] are the keys [d ++ [name]] of the map. *)
Inductive node : Type :=
| RegFile (data : list byte) (mode : Z) (mtime : Z)
| DirNode (dsize : Z) (mode : Z) (mtime : Z).

(** The part of [os.FileInfo] the engine reads.  Sizes are [int64]: no
    file holds 2^63 bytes or more. *)
Record FileInfo : Type := mkFileInfo {
  Size : Z;
  Mode : Z;
  ModTime : Z;
  IsDir : bool
}.

Inductive errno : Type :=
| ENOENT | EACCES | EISDIR | ENOTDIR | ENOTEMPTY | EXDEV | ENOSPC | EIO
| EINVAL | EBUSY | EBADF.

(** Go's [error] values met in the engine: a failed system call, or
    [errors.New(text)]. *)
Inductive error : Type :=
| SysError (e : errno)
| ErrorString (text : string).

Module errors.
Definition New (text : string) : error := ErrorString text.
End errors.

(** Conditions of the environment the engine cannot see in advance:
    an unreadable file, a full disk, a rename across mount points. *)
Record faults : Type := mkFaults {
  open_denied : list string -> bool;
  create_denied : list string -> bool;
  write_limit : list string -> option nat;
  close_fails : list string -> bool;
  rename_fails : list string -> list string -> bool;
  remove_denied : list string -> bool
}.

Definition no_faults : faults :=
  {| open_denied := fun _ => false;
     create_denied := fun _ => false;
     write_limit := fun _ => None;
     close_fails := fun _ => false;
     rename_fails := fun _ _ => false;
     remove_denied := fun _ => false |}.

Record world : Type := mkWorld {
  files : gmap (list string) node;
  cwd : list string;
  clock : Z;
  stdout : list string;
  env : faults
}.

Definition with_files (w : world) (m : gmap (list string) node) : world :=
  {| files := m; cwd := cwd w; clock := clock w; stdout := stdout w;
     env := env w |}.

Definition with_line (w : world) (line : string) : world :=
  {| files := files w; cwd := cwd w; clock := clock w;
     stdout := stdout w ++ [line]; env := env w |}.

(** ** Runs *)

Inductive outcome (A : Type) : Type :=
| Normal (a : A) (w : world)
| Panic (reason : string)
| OutOfFuel.
Arguments Normal {A} a w.
Arguments Panic {A} reason.
Arguments OutOfFuel {A}.

Definition M (A : Type) : Type := world -> outcome A.

Definition ret {A} (a : A) : M A := fun w => Normal a w.

Definition bind {A B} (m : M A) (k : A -> M B) : M B :=
  fun w =>
    match m w with
    | Normal a w' => k a w'
    | Panic r => Panic r
    | OutOfFuel => OutOfFuel
    end.

(** Read the state without changing it. *)
Definition ask {A} (f : world -> A) : M A := fun w => Normal (f w) w.

Global Instance M_ret : MRet M := @ret.
Global Instance M_bind : MBind M := fun A B k m => bind m k.

Definition nil_dereference : string :=
  "runtime error: invalid memory address or nil pointer dereference".

(** ** Path resolution *)

Module path.
(** Cut a path at its separators; [cur] is the entry being read. *)
Fixpoint split_go (s cur : string) : list string :=
  match s with
  | EmptyString => [cur]
  | String c s' =>
      if Ascii.eqb c "/" then cur :: split_go s' ""
      else split_go s' (cur +:+ String c "")
  end.

(** Follow one entry name from the directory [at_]. *)
Definition enter (at_ : list string) (name : string) : list string :=
  if bool_decide (name = "" \/ name = ".") then at_
  else if bool_decide (name = "..") then removelast at_
  else at_ ++ [name].

Definition absolute (p : string) : bool :=
  match p with
  | String c _ => Ascii.eqb c "/"
  | EmptyString => false
  end.

(** The object a path names: the empty path names nothing; a path that
    starts with a separator is followed from the root, any other from
    the working directory; empty entries and [.] stay in place, [..]
    moves up.  Symbolic links are not modelled. *)
Definition resolve (wd : list string) (p : string) : option (list string) :=
  match p with
  | EmptyString => None
  | _ => Some (fold_left enter (split_go p "")
                 (if absolute p then [] else wd))
  end.
End path.

Definition locate (w : world) (p : string) : option (list string) :=
  path.resolve (cwd w) p.

(** [k'] lies strictly below the directory [k]. *)
Definition below (k k' : list string) : Prop := k `prefix_of` k' /\ k <> k'.

Global Instance below_dec k k' : Decision (below k k').
Proof. unfold below. apply _. Defined.

Definition has_entries (m : gmap (list string) node) (k : list string) : bool :=
  negb (bool_decide (map_Forall (fun k' (_ : node) => ~ below k k') m)).

Definition is_dir (m : gmap (list string) node) (k : list string) : bool :=
  match m !! k with
  | Some (DirNode _ _ _) => true
  | _ => false
  end.

(** The directory that must exist for an entry [k] to be created. *)
Definition parent (k : list string) : list string := removelast k.

(** ** System calls *)

(** Go's [(value, err)] pairs. *)
Inductive result (A : Type) : Type :=
| Ok (a : A)
| Err (e : error).
Arguments Ok {A} a.
Arguments Err {A} e.

(** An open file: the object it refers to and the read/write offset. *)
Record File : Type := mkFile {
  fd : list string;
  pos : Z
}.

Definition info_of (n : node) : FileInfo :=
  match n with
  | RegFile data mode mtime =>
      {| Size := Z.of_nat (length data); Mode := mode; ModTime := mtime;
         IsDir := false |}
  | DirNode dsize mode mtime =>
      {| Size := dsize; Mode := mode; ModTime := mtime; IsDir := true |}
  end.

(** The bytes a read of the object at [k] can deliver; a directory cannot
    be read. *)
Definition contents (w : world) (k : list string) : option (list byte) :=
  match files w !! k with
  | Some (RegFile data _ _) => Some data
  | _ => None
  end.

Definition sys_fail {A} (e : errno) : M (result A) :=
  ret (Err (SysError e)).

Definition sys_error (e : errno) : M (option error) :=
  ret (Some (SysError e)).

Module os.
(** [os.Stat]: fails exactly when the path names no object. *)
Definition Stat (name : string) (w : world) : result FileInfo :=
  match locate w name with
  | None => Err (SysError ENOENT)
  | Some k =>
      match files w !! k with
      | Some n => Ok (info_of n)
      | None => Err (SysError ENOENT)
      end
  end.

(** [os.Open] (read only).  A directory can be opened. *)
Definition Open (name : string) (w : world) : result File :=
  match locate w name with
  | None => Err (SysError ENOENT)
  | Some k =>
      match files w !! k with
      | Some _ =>
          if open_denied (env w) k then Err (SysError EACCES)
          else Ok (mkFile k 0)
      | None => Err (SysError ENOENT)
      end
  end.

(** [os.Create]: create the file, or truncate it when it exists. *)
Definition Create (name : string) : M (result File) := fun w =>
  match locate w name with
  | None => sys_fail ENOENT w
  | Some k =>
      if create_denied (env w) k then sys_fail EACCES w
      else
        match files w !! k with
        | Some (DirNode _ _ _) => sys_fail EISDIR w
        | Some (RegFile _ mode _) =>
            Normal (Ok (mkFile k 0))
              (with_files w (<[k := RegFile [] mode (clock w)]> (files w)))
        | None =>
            if is_dir (files w) (parent k) then
              Normal (Ok (mkFile k 0))
                (with_files w (<[k := RegFile [] 420 (clock w)]> (files w)))
            else sys_fail ENOENT w
        end
  end.

(** [File.Close] of a file opened for writing: a delayed write error
    shows up here. *)
Definition Close (f : File) : M (option error) := fun w =>
  if close_fails (env w) (fd f) then sys_error EIO w else Normal None w.

(** [File.Seek(offset, 0)]: a negative offset is refused and leaves
    the offset where it was. *)
Definition Seek (f : File) (offset : Z) : File * option error :=
  if offset <? 0 then (f, Some (SysError EINVAL))
  else (mkFile (fd f) offset, None).

Definition set_mode (n : node) (mode : Z) : node :=
  match n with
  | RegFile d _ t => RegFile d mode t
  | DirNode s _ t => DirNode s mode t
  end.

Definition set_mtime (n : node) (mtime : Z) : node :=
  match n with
  | RegFile d m _ => RegFile d m mtime
  | DirNode s m _ => DirNode s m mtime
  end.

Definition update (name : string) (f : node -> node) : M (option error) :=
  fun w =>
    match locate w name with
    | None => sys_error ENOENT w
    | Some k =>
        match files w !! k with
        | Some n => Normal None (with_files w (<[k := f n]> (files w)))
        | None => sys_error ENOENT w
        end
    end.

Definition Chmod (name : string) (mode : Z) : M (option error) :=
  update name (fun n => set_mode n mode).

Definition Chtimes (name : string) (atime mtime : Z) : M (option error) :=
  update name (fun n => set_mtime n mtime).

(** May the object [nd] take the place of what is at [n]? *)
Definition can_replace (nd : node) (m : gmap (list string) node)
    (n : list string) : bool :=
  match m !! n, nd with
  | None, _ => true
  | Some (RegFile _ _ _), RegFile _ _ _ => true
  | Some (DirNode _ _ _), DirNode _ _ _ => negb (has_entries m n)
  | _, _ => false
  end.

(** The map after the object [nd] at [o] has moved to [n], with all
    that lies below it. *)
Definition moved (o n : list string) (nd : node)
    (m : gmap (list string) node) : gmap (list string) node :=
  <[n := nd]>
    (filter (fun kv => ~ o `prefix_of` kv.1) m
     ∪ list_to_map
         (map (fun kv : list string * node =>
                 (n ++ drop (length o) kv.1, kv.2))
            (map_to_list (filter (fun kv => below o kv.1) m)))).

(** [os.Rename]: atomic; it fails across mount points. *)
Definition Rename (oldpath newpath : string) : M (option error) := fun w =>
  match locate w oldpath, locate w newpath with
  | Some o, Some n =>
      match files w !! o with
      | None => sys_error ENOENT w
      | Some nd =>
          if rename_fails (env w) o n then sys_error EXDEV w
          else if bool_decide (o = n) then Normal None w
          else if bool_decide (o `prefix_of` n) then sys_error EINVAL w
          else if negb (is_dir (files w) (parent n)) then sys_error ENOENT w
          else if can_replace nd (files w) n then
            Normal None (with_files w (moved o n nd (files w)))
          else sys_error ENOTEMPTY w
      end
  | _, _ => sys_error ENOENT w
  end.

(** [os.Remove]: a file, or an empty directory. *)
Definition Remove (name : string) : M (option error) := fun w =>
  match locate w name with
  | None => sys_error ENOENT w
  | Some k =>
      match files w !! k with
      | None => sys_error ENOENT w
      | Some _ =>
          if remove_denied (env w) k then sys_error EACCES w
          else if bool_decide (k = []) then sys_error EBUSY w
          else if has_entries (files w) k then sys_error ENOTEMPTY w
          else Normal None (with_files w (delete k (files w)))
      end
  end.
End os.

Module io.
(** [io.Copy(dst, src)] between two files: everything [src] still holds
    after its offset is written at the offset of [dst], up to the point
    where the device refuses more. Returns the number of bytes written. *)
Definition Copy (dst src : File) : M (Z * option error) := fun w =>
  match contents w (fd src), files w !! fd dst with
  | Some data, Some (RegFile old mode _) =>
      let pending := drop (Z.to_nat (pos src)) data in
      let accepted :=
        match write_limit (env w) (fd dst) with
        | Some n => take n pending
        | None => pending
        end in
      let kept := take (Z.to_nat (pos dst)) old in
      let rest := drop (Z.to_nat (pos dst) + length accepted) old in
      let w' := with_files w
                  (<[fd dst := RegFile (kept ++ accepted ++ rest) mode (clock w)]>
                     (files w)) in
      Normal (Z.of_nat (length accepted),
              if bool_decide (length accepted = length pending) then None
              else Some (SysError ENOSPC)) w'
  | None, _ => Normal (0, Some (SysError EISDIR)) w
  | _, _ => Normal (0, Some (SysError EBADF)) w
  end.

(** What a digest receives from [io.CopyN(h, src, n)] and from
    [io.Copy(h, src)], and the file with its offset advanced.  [h] is
    the sequence of bytes written to the digest so far. *)
Definition CopyN_hash (w : world) (h : list byte) (src : File) (n : Z)
    : list byte * File :=
  match contents w (fd src) with
  | Some data =>
      let chunk := take (Z.to_nat n) (drop (Z.to_nat (pos src)) data) in
      (h ++ chunk, mkFile (fd src) (pos src + Z.of_nat (length chunk)))
  | None => (h, src)
  end.

Definition Copy_hash (w : world) (h : list byte) (src : File)
    : list byte * File :=
  match contents w (fd src) with
  | Some data =>
      let chunk := drop (Z.to_nat (pos src)) data in
      (h ++ chunk, mkFile (fd src) (pos src + Z.of_nat (length chunk)))
  | None => (h, src)
  end.
End io.

Module fmt.
(** [fmt.Sprint] on operands that are all strings: plain concatenation
    (a space is only added between operands when neither is a string). *)
Definition Sprint (operands : list string) : string :=
  fold_right String.append "" operands.

(** [fmt.Printf], given the formatted text. *)
Definition Printf (text : string) : M unit := fun w =>
  Normal tt (with_line w text).
End fmt.

(* ===================================================================== *)
(** * pcopylib *)
(* ===================================================================== *)

Inductive FileExistStatus : Type :=
| FileExistStatus_File
| FileExistStatus_Directory
| FileExistStatus_NotExist.

Global Instance FileExistStatus_eq_dec : EqDecision FileExistStatus.
Proof. solve_decision. Defined.

Definition newline : string := String "010" "".

(** The three progress lines of the engine. *)
Definition line_moved (source target : string) : string :=
  source +:+ " -----> " +:+ target +:+ newline.
Definition line_copied (source target : string) : string :=
  source +:+ " +++++> " +:+ target +:+ newline.
Definition line_skipped (source target : string) : string :=
  source +:+ " ====== " +:+ target +:+ ", skipped" +:+ newline.

Definition IsFileExist (path : string) (w : world) : FileExistStatus :=
  match os.Stat path w with
  | Err _ => FileExistStatus_NotExist
  | Ok fileinfo =>
      if IsDir fileinfo then FileExistStatus_Directory
      else FileExistStatus_File
  end.

Definition doCopy (source target : string) : M (option error) :=
  st ← ask (os.Stat source);
  match st with
  | Err err => mret (Some err)
  | Ok fileinfo =>
      opened ← ask (os.Open source);
      match opened with
      | Err err => mret (Some err)
      | Ok sourceFile =>
          created ← os.Create target;
          match created with
          | Err err => mret (Some err)
          | Ok targetFile =>
              copied ← io.Copy targetFile sourceFile;
              match copied.2 with
              | Some err => os.Close targetFile;; mret (Some err)
              | None =>
                  closed ← os.Close targetFile;
                  match closed with
                  | Some err => mret (Some err)
                  | None =>
                      os.Chmod target (Mode fileinfo);;
                      os.Chtimes target (ModTime fileinfo) (ModTime fileinfo);;
                      mret None
                  end
              end
          end
      end
  end.

Definition doCopyOrMove (source target : string) (moveMode : bool)
    : M (option error) :=
  (if moveMode then
     os.Rename source target;;
     fmt.Printf (line_moved source target)
   else
     doCopy source target;;
     fmt.Printf (line_copied source target));;
  mret None.

Definition renameFile (target : string) (idx : Z) : string :=
  let extName := filepath.Ext target in
  let newTarget :=
    slice_to target (len target - len extName)
    +:+ "(" +:+ strconv.Itoa idx +:+ ")" +:+ extName in
  newTarget.

Section Engine.

(** [md5hex data] stands for [fmt.Sprintf("%x", h.Sum(nil))] after
    [data] has been written to the digest [h := md5.New()]. *)
Variable md5hex : list byte -> string.

Definition getFullHash (filename : string) (w : world) : string :=
  match os.Open filename w with
  | Err _ => ""
  | Ok file =>
      let md5Hash : list byte := [] in
      let md5Hash := (io.Copy_hash w md5Hash file).1 in
      md5hex md5Hash
  end.

Definition blockSize : Z := 50 * 1024.

Definition blockOffsets (filesize : Z) : list Z :=
  [ 0;
    go_div (wrap64 (filesize - blockSize)) 3;
    go_div (wrap64 (2 * wrap64 (filesize - blockSize))) 3;
    wrap64 (filesize - blockSize) ].

(** One turn of the loop over the offsets: seek, then copy a block. *)
Definition hash_block (w : world) (st : list byte * File) (offset : Z)
    : list byte * File :=
  let file := (os.Seek st.2 offset).1 in
  io.CopyN_hash w st.1 file blockSize.

Definition getParticalHash (filename : string) (filesize : Z) (w : world)
    : string :=
  match os.Open filename w with
  | Err _ => ""
  | Ok file =>
      let md5Hash : list byte := [] in
      let st := fold_left (hash_block w) (blockOffsets filesize)
                  (md5Hash, file) in
      md5hex st.1
  end.

(** [fiSource, _ := os.Stat(source)] leaves [fiSource] nil when the call
    fails, and [fiSource.Size()] on nil is a run-time panic. *)
Definition hasSameContent (source target : string) (fullHashMode : bool)
    : M bool := fun w =>
  match os.Stat source w, os.Stat target w with
  | Ok fiSource, Ok fiTarget =>
      let srcSize := Size fiSource in
      let dstSize := Size fiTarget in
      if negb (srcSize =? dstSize) then Normal false w
      else
        let '(srcMD5, dstMD5) :=
          if negb fullHashMode && (500 * 1024 <? srcSize) then
            (getParticalHash source srcSize w,
             getParticalHash target dstSize w)
          else
            (getFullHash source w, getFullHash target w) in
        Normal (String.eqb srcMD5 dstMD5
                && negb (len srcMD5 =? 0) && negb (len dstMD5 =? 0)) w
  | _, _ => Panic nil_dereference
  end.

(** The loop of [CopyFileInternal]:

    for IsFileExist(newTarget) != FileExistStatus_NotExist &&
        !hasSameContent(source, newTarget, fullHashMode) {
      newTarget = renameFile(target, renameIdx)
      renameIdx += 1
    }

    It returns the value of [newTarget] at exit. *)
Fixpoint CopyFileInternal_loop (fuel : nat) (source target : string)
    (fullHashMode : bool) (renameIdx : Z) (newTarget : string) : M string :=
  match fuel with
  | O => fun _ => OutOfFuel
  | S fuel' =>
      st ← ask (IsFileExist newTarget);
      if bool_decide (st <> FileExistStatus_NotExist) then
        same ← hasSameContent source newTarget fullHashMode;
        if negb same then
          CopyFileInternal_loop fuel' source target fullHashMode
            (wrap64 (renameIdx + 1)) (renameFile target renameIdx)
        else mret newTarget
      else mret newTarget
  end.

Definition CopyFileInternal (fuel : nat) (source target : string)
    (moveMode fullHashMode : bool) : M (option error) :=
  st ← ask (IsFileExist target);
  if bool_decide (st = FileExistStatus_NotExist) then
    doCopyOrMove source target moveMode;;
    mret None
  else
    let renameIdx := 1 in
    let newTarget := target in
    newTarget ← CopyFileInternal_loop fuel source target fullHashMode
                  renameIdx newTarget;
    let target := newTarget in
    st ← ask (IsFileExist target);
    (if bool_decide (st = FileExistStatus_NotExist) then
       doCopyOrMove source target moveMode;; mret tt
     else
       (if moveMode then os.Remove source;; mret tt else mret tt);;
       fmt.Printf (line_skipped source target));;
    mret None.

End Engine.

Module sort.
(** [sort.Sort(sort.Reverse(sort.StringSlice(l)))]: [l] in descending
    byte-wise order.  Strings that compare equal are identical, so the
    result does not depend on the sorting algorithm. *)
Definition Reverse_StringSlice (l : list string) : list string :=
  merge_sort (fun a b => String.le b a) l.
End sort.

(** The removal pass of [CopyDirectory]:

      for _, dirToRemove := range dirList { os.Remove(dirToRemove) } *)
Fixpoint removeEach (dirList : list string) : M unit :=
  match dirList with
  | [] => mret tt
  | dirToRemove :: rest => os.Remove dirToRemove;; removeEach rest
  end.

Definition identical_text (source target : string) : string :=
  fmt.Sprint ["pcopy: error: %s and %s are identical (not copied).";
              source; target].

Definition invalid_target_text (target : string) : string :=
  fmt.Sprint ["pcopy: error: "; target;
              ": Invalid target, a directory expected"].

Section Tree.

(** The concurrent part of [CopyDirectory]: the job queue, the [jobNum]
    workers draining it with [CopyFile], and the walk that feeds it, up to
    the point where every worker has signalled completion.  Its effect on
    the file system depends on how the scheduler interleaves the workers,
    so it is left open here: [walkAndWork] stands for the run under any
    one schedule, from the state the call is made in to the state all
    workers have finished in; it returns the recorded [dirList], or
    panics. *)
Variable walkAndWork :
  Z -> string -> string -> bool -> bool -> bool -> M (list string).

Definition CopyDirectory (source target : string)
    (moveMode fullHashMode recursiveMode : bool) : M (option error) :=
  if String.eqb source target then
    mret (Some (errors.New (identical_text source target)))
  else
    targetStatus ← ask (IsFileExist target);
    if bool_decide (targetStatus <> FileExistStatus_Directory) then
      mret (Some (errors.New (invalid_target_text target)))
    else
      let jobNum := if moveMode then 10 else 1 in
      dirList ← walkAndWork jobNum source target moveMode fullHashMode
                  recursiveMode;
      (if moveMode then
         removeEach (sort.Reverse_StringSlice dirList)
       else mret tt);;
      mret None.

End Tree.

(* ===================================================================== *)
(** * Sample file systems *)
(* ===================================================================== *)

Definition bytes (s : string) : list byte := list_byte_of_string s.

(** A stand-in for the digest in the examples: never empty, and different
    on different data. *)
Definition sample_digest (data : list byte) : string :=
  "h" +:+ string_of_list_byte data.

Definition sample_dir : node := DirNode 4096 493 0.

Definition make_world (m : gmap (list string) node) (e : faults) : world :=
  {| files := m; cwd := []; clock := 100; stdout := []; env := e |}.

(** [/src/photo.jpg], and a target directory where the names [photo.jpg]
    and [photo(1).jpg] are taken by other content. *)
Definition photo_files : gmap (list string) node :=
  list_to_map
    [ ([], sample_dir);
      (["src"], sample_dir);
      (["src"; "photo.jpg"], RegFile (bytes "abc") 420 7);
      (["dst"], sample_dir);
      (["dst"; "photo.jpg"], RegFile (bytes "xyz") 384 3);
      (["dst"; "photo(1).jpg"], RegFile (bytes "xyw") 384 3) ].

Definition photo_world : world := make_world photo_files no_faults.

(** The same files on a device that accepts one more byte only. *)
Definition full_disk : faults :=
  {| open_denied := fun _ => false;
     create_denied := fun _ => false;
     write_limit := fun _ => Some 1%nat;
     close_fails := fun _ => false;
     rename_fails := fun _ _ => false;
     remove_denied := fun _ => false |}.

Definition full_disk_world : world := make_world photo_files full_disk.

(** The same files on a device that reports a write error at close. *)
Definition failing_close : faults :=
  {| open_denied := fun _ => false;
     create_denied := fun _ => false;
     write_limit := fun _ => None;
     close_fails := fun _ => true;
     rename_fails := fun _ _ => false;
     remove_denied := fun _ => false |}.

Definition failing_close_world : world := make_world photo_files failing_close.

(** The same files, none of which may be opened for reading. *)
Definition unreadable : faults :=
  {| open_denied := fun _ => true;
     create_denied := fun _ => false;
     write_limit := fun _ => None;
     close_fails := fun _ => false;
     rename_fails := fun _ _ => false;
     remove_denied := fun _ => false |}.

Definition unreadable_world : world := make_world photo_files unreadable.

(** The same files with [/src] and [/dst] on different mount points. *)
Definition two_mounts : faults :=
  {| open_denied := fun _ => false;
     create_denied := fun _ => false;
     write_limit := fun _ => None;
     close_fails := fun _ => false;
     rename_fails := fun o n => negb (bool_decide (take 1 o = take 1 n));
     remove_denied := fun _ => false |}.

Definition two_mounts_world : world := make_world photo_files two_mounts.

(** A directory [/dir] without entries, next to a regular file. *)
Definition dir_files : gmap (list string) node :=
  list_to_map
    [ ([], sample_dir);
      (["dir"], sample_dir);
      (["out"], sample_dir);
      (["note.txt"], RegFile (bytes "n") 420 1) ].

Definition dir_world : world := make_world dir_files no_faults.

(** Two files of 600000 bytes that differ in their last byte only. *)
Definition big_data (last : byte) : list byte :=
  repeat x00 (Z.to_nat 599999) ++ [last].

Definition big_files : gmap (list string) node :=
  list_to_map
    [ ([], sample_dir);
      (["a.raw"], RegFile (big_data x01) 420 1);
      (["b.raw"], RegFile (big_data x02) 420 2) ].

Definition big_world : world := make_world big_files no_faults.

(** The run of the walker and its workers over a source directory that has
    no entries: nothing is queued and nothing is recorded. *)
Definition walk_nothing (jobNum : Z) (source target : string)
    (moveMode fullHashMode recursiveMode : bool) : M (list string) :=
  mret [].

(* ===================================================================== *)
(** * Vocabulary of the statements *)
(* ===================================================================== *)

(** The directory a path is followed from. *)
Definition origin (wd : list string) (s : string) : list string :=
  match s with
  | EmptyString => wd
  | String c _ => if Ascii.eqb c "/" then [] else wd
  end.

(** The two parts [renameFile] builds a name from: what it keeps of the
    target in front, and the text it puts behind. *)
Definition tag (target : string) (idx : Z) : string :=
  "(" +:+ strconv.Itoa idx +:+ ")" +:+ filepath.Ext target.

Definition stem (target : string) : string :=
  slice_to target (len target - len (filepath.Ext target)).

(** The numbered candidate names of a target. *)
Definition candidate (target : string) (i : nat) : string :=
  renameFile target (Z.of_nat i).

Section Candidates.

Variable md5hex : list byte -> string.

(** The digest the comparator computes for a file of the given size. *)
Definition digest_of (fh : bool) (size : Z) (p : string) (w : world) : string :=
  if negb fh && (500 * 1024 <? size) then getParticalHash md5hex p size w
  else getFullHash md5hex p w.

(** The name is taken by content that differs from the source. *)
Definition occupied (source cand : string) (fullHashMode : bool) (w : world)
    : Prop :=
  IsFileExist cand w <> FileExistStatus_NotExist
  /\ hasSameContent md5hex source cand fullHashMode w = Normal false w.

(** The name is taken by content the comparator finds equal to the
    source. *)
Definition duplicate (source cand : string) (fullHashMode : bool) (w : world)
    : Prop :=
  IsFileExist cand w <> FileExistStatus_NotExist
  /\ hasSameContent md5hex source cand fullHashMode w = Normal true w.

Definition free (cand : string) (w : world) : Prop :=
  IsFileExist cand w = FileExistStatus_NotExist.

Global Instance free_dec (cand : string) (w : world) : Decision (free cand w).
Proof. unfold free. apply _. Defined.

End Candidates.

(** The block of [blockSize] bytes of [data] that starts at [offset]. *)
Definition window (data : list byte) (offset : Z) : list byte :=
  take (Z.to_nat blockSize) (drop (Z.to_nat offset) data).

(** The comparison of two digests in [hasSameContent]. *)
Definition digests_agree (srcMD5 dstMD5 : string) : bool :=
  String.eqb srcMD5 dstMD5
  && negb (len srcMD5 =? 0) && negb (len dstMD5 =? 0).

Section Proceed.

Variable walkAndWork :
  Z -> string -> string -> bool -> bool -> bool -> M (list string).

(** What [CopyDirectory] does once both checks have passed: the run of
    the workers and the walk, then the removal pass of a move. *)
Definition proceed (source target : string)
    (moveMode fullHashMode recursiveMode : bool) : M (option error) :=
  dirList ← walkAndWork (if moveMode then 10 else 1) source target moveMode
              fullHashMode recursiveMode;
  (if moveMode then removeEach (sort.Reverse_StringSlice dirList)
   else mret tt);;
  mret None.

End Proceed.

(** [w'] differs from [w] at most in what is at the object [K], and in
    what has been printed. *)
Definition same_outside (K : option (list string)) (w w' : world) : Prop :=
  cwd w' = cwd w /\ env w' = env w
  /\ forall k, K <> Some k -> files w' !! k = files w !! k.

(** Every object of [w] that is not the source, nor below it, is in [w']
    as it was; the source itself may only be gone after a move. *)
Definition untouched (moveMode : bool) (source : string) (w w' : world)
    : Prop :=
  forall k n, files w !! k = Some n ->
    files w' !! k = Some n
    \/ (moveMode = true
        /\ exists ks, locate w source = Some ks /\ ks `prefix_of` k).

(** What [CopyFileInternal] does with a duplicate. *)
Definition skip (source target : string) (moveMode : bool) : M unit :=
  (if moveMode then os.Remove source;; mret tt else mret tt);;
  fmt.Printf (line_skipped source target).

(** The three ways a call of [CopyFileInternal] can end. *)
Inductive resolution : Type :=
| TransferredToOriginal
| TransferredToRenamed (n : nat)
| SkippedAsDuplicate (cand : string).

Section Resolution.

Variable md5hex : list byte -> string.

(** The numbered candidates before the [n]-th are all occupied. *)
Definition all_occupied_before (source target : string) (fh : bool)
    (w : world) (n : nat) : Prop :=
  forall i, (1 <= i < n)%nat ->
    occupied md5hex source (candidate target i) fh w.

(** The call from [w] ended in [w'] in the given way. *)
Definition resolved_as (source target : string) (moveMode fh : bool)
    (w w' : world) (res : resolution) : Prop :=
  match res with
  | TransferredToOriginal =>
      free target w
      /\ doCopyOrMove source target moveMode w = Normal None w'
  | TransferredToRenamed n =>
      occupied md5hex source target fh w
      /\ (1 <= n)%nat
      /\ all_occupied_before source target fh w n
      /\ free (candidate target n) w
      /\ doCopyOrMove source (candidate target n) moveMode w = Normal None w'
  | SkippedAsDuplicate cand =>
      (cand = target
       \/ (occupied md5hex source target fh w
           /\ exists n, (1 <= n)%nat /\ cand = candidate target n
                        /\ all_occupied_before source target fh w n))
      /\ duplicate md5hex source cand fh w
      /\ skip source cand moveMode w = Normal tt w'
  end.

End Resolution.

(** What a run returned, and the state it ended in. *)
Definition returned {A} (o : outcome A) : option A :=
  match o with
  | Normal a _ => Some a
  | _ => None
  end.

Definition final {A} (o : outcome A) : option world :=
  match o with
  | Normal _ w => Some w
  | _ => None
  end.

(* ===================================================================== *)
(** * More of the libraries *)
(* ===================================================================== *)

Module strings.
(** [strings.Join(elems, sep)] *)
Fixpoint Join (elems : list string) (sep : string) : string :=
  match elems with
  | [] => ""
  | [e] => e
  | e :: rest => e +:+ sep +:+ Join rest sep
  end.
End strings.

(** The lexical operations of package [filepath] on Unix paths:
    [filepath.Clean], [filepath.Join], [filepath.Base] and
    [filepath.Dir]. *)
Module lexical.

(** One turn of the loop of [filepath.Clean], which reads the path one
    element at a time.  [out] holds the elements written so far.

    case os.IsPathSeparator(path[r]):        empty element: skip
    case path[r] == '.' && (end of element): skip
    case path[r] == '.' && path[r+1] == '.' && (end of element):
      switch {
      case out.w > dotdot:  drop the last element written
      case !rooted:         append ..
      }
    default:                append the element

    [dotdot] is the length of what must stay: the leading separator of a
    rooted path, or the leading [..] elements of any other; so there is
    something to drop exactly when the last element written is not
    [..]. *)
Definition clean_step (rooted : bool) (out : list string) (elem : string)
    : list string :=
  if bool_decide (elem = "" \/ elem = ".") then out
  else if bool_decide (elem = "..") then
    match last out with
    | Some e => if bool_decide (e = "..") then out ++ [".."]
                else removelast out
    | None => if rooted then out else out ++ [".."]
    end
  else out ++ [elem].

(** [filepath.Clean]: the empty path becomes [.]; so does any other
    unrooted path of which nothing is left. *)
Definition Clean (p : string) : string :=
  if bool_decide (p = "") then "."
  else
    let rooted := path.absolute p in
    let out := fold_left (clean_step rooted) (path.split_go p "") [] in
    if rooted then "/" +:+ strings.Join out "/"
    else if bool_decide (out = []) then "."
    else strings.Join out "/".

(** [filepath.Join]: the elements from the first non-empty one on, put
    together with separators and cleaned.

    for i, e := range elem {
      if e != "" { return Clean(strings.Join(elem[i:], "/")) }
    }
    return "" *)
Fixpoint Join (elem : list string) : string :=
  match elem with
  | [] => ""
  | e :: rest =>
      if bool_decide (e <> "") then Clean (strings.Join elem "/")
      else Join rest
  end.

(** for i >= 0 && !os.IsPathSeparator(path[i]) { i-- }

    entered with [i = n - 1]; the result is [i + 1] at exit. *)
Fixpoint after_separator (p : string) (n : nat) : nat :=
  match n with
  | O => O
  | S i =>
      match String.get i p with
      | Some c => if Ascii.eqb c "/" then S i else after_separator p i
      | None => after_separator p i
      end
  end.

(** for len(path) > 0 && os.IsPathSeparator(path[len(path)-1]) {
      path = path[0 : len(path)-1]
    }

    entered with [len(path) = n]. *)
Fixpoint strip_separators (p : string) (n : nat) : string :=
  match n with
  | O => ""
  | S i =>
      match String.get i p with
      | Some c => if Ascii.eqb c "/" then strip_separators p i
                  else substring 0 (S i) p
      | None => strip_separators p i
      end
  end.

(** [filepath.Base]: the last element of the path, trailing separators
    aside; [.] for the empty path, a separator for a path of separators
    only. *)
Definition Base (p : string) : string :=
  if bool_decide (p = "") then "."
  else
    let p := strip_separators p (String.length p) in
    let p := slice_from p (after_separator p (String.length p)) in
    if bool_decide (p = "") then "/" else p.

(** [filepath.Dir]: all but the last element of the path, cleaned. *)
Definition Dir (p : string) : string :=
  Clean (substring 0 (after_separator p (String.length p)) p).

End lexical.

Definition slice_bounds : string :=
  "runtime error: slice bounds out of range".

(** [s[i:]] with the bounds check of the run time. *)
Definition slice_from_checked (s : string) (i : Z) : option string :=
  if (0 <=? i) && (i <=? len s) then Some (slice_from s (Z.to_nat i))
  else None.

(** [s[:n]] with the bounds check of the run time. *)
Definition slice_to_checked (s : string) (n : Z) : option string :=
  if (0 <=? n) && (n <=? len s) then Some (slice_to s n) else None.

(** [fmt.Sprintln] and [fmt.Println] of one string. *)
Definition Sprintln (s : string) : string := s +:+ newline.
Definition Println (s : string) : M unit := fmt.Printf (Sprintln s).

(** A function that can end the process: it returns, or it has called
    [os.Exit]. *)
Inductive control (A : Type) : Type :=
| Return (a : A)
| Exit (code : Z).
Arguments Return {A} a.
Arguments Exit {A} code.

(** [os.ModePerm] and [os.ModeDir] *)
Definition ModePerm : Z := 511.
Definition ModeDir : Z := 2 ^ 31.

(** The error of a call that finds its name taken. *)
Definition EEXIST : error := ErrorString "file exists".

(** [os.Mkdir]: one directory, in a directory that exists.  The new
    directory gets the permission bits asked for, less those the usual
    file mode creation mask (022) takes away. *)

Definition Mkdir (name : string) (perm : Z) : M (option error) := fun w =>
  match locate w name with
  | None => sys_error ENOENT w
  | Some k =>
      match files w !! k with
      | Some _ => Normal (Some EEXIST) w
      | None =>
          if is_dir (files w) (parent k) then
            if create_denied (env w) k then sys_error EACCES w
            else
              Normal None
                (with_files w
                   (<[k := DirNode 4096 (Z.land perm 493) (clock w)]>
                      (files w)))
          else
            match files w !! parent k with
            | Some _ => sys_error ENOTDIR w
            | None => sys_error ENOENT w
            end
      end
  end.

(** [os.MkdirAll]: the directory and the directories above it that are
    missing.

    dir, err := Stat(path)
    if err == nil {
      if dir.IsDir() { return nil }
      return &PathError{Op: "mkdir", Path: path, Err: syscall.ENOTDIR}
    }
    i := len(path)
    for i > 0 && IsPathSeparator(path[i-1]) { i-- }
    j := i
    for j > 0 && !IsPathSeparator(path[j-1]) { j-- }
    if j > 1 {
      err = MkdirAll(path[:j-1], perm)
      if err != nil { return err }
    }
    err = Mkdir(path, perm)
    if err != nil {
      dir, err1 := Lstat(path)
      if err1 == nil && dir.IsDir() { return nil }
      return err
    }
    return nil

    The call on [path[:j-1]] is a call on a shorter path; [n] bounds the
    length of the path. *)
Fixpoint MkdirAll_rec (n : nat) (path : string) (perm : Z)
    : M (option error) :=
  match n with
  | O => fun _ => OutOfFuel
  | S n' =>
      st ← ask (os.Stat path);
      match st with
      | Ok dir => if IsDir dir then mret None else sys_error ENOTDIR
      | Err _ =>
          let i :=
            String.length
              (lexical.strip_separators path (String.length path)) in
          let j := lexical.after_separator path i in
          err ← (if (1 <? j)%nat then
                   MkdirAll_rec n' (substring 0 (j - 1) path) perm
                 else mret None);
          match err with
          | Some err => mret (Some err)
          | None =>
              err ← Mkdir path perm;
              match err with
              | Some err =>
                  st1 ← ask (os.Stat path);
                  match st1 with
                  | Ok dir => if IsDir dir then mret None
                              else mret (Some err)
                  | Err _ => mret (Some err)
                  end
              | None => mret None
              end
          end
      end
  end.

Definition MkdirAll (path : string) (perm : Z) : M (option error) :=
  MkdirAll_rec (S (String.length path)) path perm.

Module time.

(** The fields of a [time.Time], in its location, that the program
    reads. *)
Record Time : Type := mkTime {
  Year : Z;
  Month : Z;
  Day : Z
}.

(** [appendInt]: the decimal digits of [x], padded with zeros to
    [width] digits, behind the sign of a negative number. *)
Definition appendInt (x : Z) (width : nat) : string :=
  let digits := strconv.Itoa (Z.abs x) in
  (if x <? 0 then "-" else "")
  +:+ string_of_list_ascii
        (repeat "0"%char (width - String.length digits))
  +:+ digits.

(** The pieces of a layout that occur in the program. *)
Inductive chunk : Type :=
| stdLongYear
| stdZeroMonth
| stdZeroDay
| text (s : string).

Definition Format_chunk (t : Time) (c : chunk) : string :=
  match c with
  | stdLongYear => appendInt (Year t) 4
  | stdZeroMonth => appendInt (Month t) 2
  | stdZeroDay => appendInt (Day t) 2
  | text s => s
  end.

(** [t.Format(layout)], the layout given by its pieces. *)
Definition Format (t : Time) (layout : list chunk) : string :=
  fold_right (fun c rest => Format_chunk t c +:+ rest) "" layout.

End time.

(* ===================================================================== *)
(** * pcopylib: single files, and the parts of the tree copier *)
(* ===================================================================== *)

Section Entry.

Variable md5hex : list byte -> string.

(** The text of
    [fmt.Sprintf("pcopy: error: %s/: No such file or directory", targetPath)]. *)
Definition missing_directory_text (targetPath : string) : string :=
  fmt.Sprint ["pcopy: error: "; targetPath; "/: No such file or directory"].

Definition CopyFile (fuel : nat) (source target : string)
    (moveMode fullHashMode : bool) : M (option error) :=
  st ← ask (IsFileExist target);
  if bool_decide (st = FileExistStatus_Directory) then
    CopyFileInternal md5hex fuel source
      (lexical.Join [target; lexical.Base source]) moveMode fullHashMode;;
    mret None
  else
    let targetPath := lexical.Dir target in
    let targetPath := if len targetPath =? 0 then "./" else targetPath in
    st ← ask (IsFileExist targetPath);
    if bool_decide (st <> FileExistStatus_Directory) then
      mret (Some (errors.New (missing_directory_text targetPath)))
    else
      CopyFileInternal md5hex fuel source target moveMode fullHashMode;;
      mret None.

End Entry.

Record fileEntry : Type := mkFileEntry {
  path : string;
  info : FileInfo
}.

(** What [fmt.Printf("pcopy: error: %s: Copy %s failed, skiped",
    sourceFilePath)] prints: the second verb has no operand. *)
Definition copy_failed_text (sourceFilePath : string) : string :=
  fmt.Sprint ["pcopy: error: "; sourceFilePath;
              ": Copy %!s(MISSING) failed, skiped"].

Section Worker.

Variable md5hex : list byte -> string.

(** The body of the loop of a worker of [CopyDirectory], for one job
    taken from the queue:

    sourceFilePath := job.path
    targetFilePath := filepath.Join(target, job.path[len(source)+1:])
    err := CopyFile(sourceFilePath, targetFilePath, moveMode, fullHashMode)
    if err != nil { fmt.Printf(...) } *)
Definition copyJob (fuel : nat) (source target : string)
    (moveMode fullHashMode : bool) (job : fileEntry) : M unit :=
  let sourceFilePath := path job in
  match slice_from_checked (path job) (wrap64 (len source + 1)) with
  | None => fun _ => Panic slice_bounds
  | Some relative =>
      let targetFilePath := lexical.Join [target; relative] in
      err ← CopyFile md5hex fuel sourceFilePath targetFilePath moveMode
              fullHashMode;
      match err with
      | Some _ => fmt.Printf (copy_failed_text sourceFilePath)
      | None => mret tt
      end
  end.

End Worker.

(** What the callback of the walk answers: go on ([nil]), or leave the
    directory out ([filepath.SkipDir]). *)
Inductive WalkResult : Type :=
| WalkOn
| SkipDir.

Definition not_created_text (targetDirectory : string) : string :=
  fmt.Sprint ["pcopy: error: "; targetDirectory;
              ": Directory can not be created, skiped"].

(** The callback [CopyDirectory] hands to [filepath.Walk], for one
    entry of the walk.  It returns its answer, the list of directories
    recorded so far, and the job it has put into the queue, if any.  A
    nil [info], which the walk passes when it cannot examine the path,
    is dereferenced. *)
Definition visit (source target : string) (recursiveMode : bool)
    (dirList : list string) (path : string) (info : option FileInfo)
    : M (WalkResult * list string * option fileEntry) :=
  match info with
  | None => fun _ => Panic nil_dereference
  | Some info =>
      if IsDir info then
        if String.eqb source path then mret (WalkOn, dirList, None)
        else if negb recursiveMode then mret (SkipDir, dirList, None)
        else
          match slice_from_checked path (wrap64 (len source + 1)) with
          | None => fun _ => Panic slice_bounds
          | Some relativeSourceDirectory =>
              let targetDirectory :=
                lexical.Join [target; relativeSourceDirectory] in
              st ← ask (IsFileExist targetDirectory);
              (if bool_decide (st = FileExistStatus_NotExist) then
                 MkdirAll targetDirectory (Z.lor ModePerm ModeDir);; mret tt
               else mret tt);;
              st ← ask (IsFileExist targetDirectory);
              if bool_decide (st <> FileExistStatus_Directory) then
                fmt.Printf (not_created_text targetDirectory);;
                mret (SkipDir, dirList, None)
              else mret (WalkOn, dirList ++ [path], None)
          end
      else mret (WalkOn, dirList, Some (mkFileEntry path info))
  end.

(* ===================================================================== *)
(** * pcopy: the command *)
(* ===================================================================== *)

Module pcopy.

Definition shortUsage (errInfo : string) : error :=
  let str := Sprintln "usage: pcopy [-h] [-m] [-f] [-r] source target" in
  let str := str +:+ fmt.Sprint [errInfo] in
  let err := errors.New str in
  err.

Definition longUsage : M unit :=
  Println "usage: pcopy [-h] [-m] [-f] [-R] source target";;
  Println "";;
  Println "positional arguments:";;
  Println "  source      source path for photos to be classified";;
  Println "  target      target path for photos classified";;
  Println "";;
  Println "optional arguments:";;
  Println "  -h, --help  show this help message and exit";;
  Println "  -m          move file(s) from source to target(copy file(s) by default)";;
  Println "  -f          use fullhash mode (more slower than default)";;
  Println "  -r          recursive mode".

(** The package variables. *)
Record globals : Type := mkGlobals {
  moveMode : bool;
  fullHashMode : bool;
  recursiveMode : bool;
  source : string;
  target : string
}.

Definition initial : globals :=
  {| moveMode := false; fullHashMode := false; recursiveMode := false;
     source := ""; target := "" |}.

Definition set_moveMode (g : globals) : globals :=
  {| moveMode := true; fullHashMode := fullHashMode g;
     recursiveMode := recursiveMode g; source := source g;
     target := target g |}.

Definition set_fullHashMode (g : globals) : globals :=
  {| moveMode := moveMode g; fullHashMode := true;
     recursiveMode := recursiveMode g; source := source g;
     target := target g |}.

Definition set_recursiveMode (g : globals) : globals :=
  {| moveMode := moveMode g; fullHashMode := fullHashMode g;
     recursiveMode := true; source := source g; target := target g |}.

Definition set_paths (g : globals) (s t : string) : globals :=
  {| moveMode := moveMode g; fullHashMode := fullHashMode g;
     recursiveMode := recursiveMode g; source := s; target := t |}.

(** The variables of [parseArgs] while it reads the arguments. *)
Record scanned : Type := mkScanned {
  vars : globals;
  remainder : list string;
  invalidArg : list string
}.

(** The loop of [parseArgs] over [os.Args[1:]]. *)
Fixpoint parseArgs_loop (args : list string) (st : scanned)
    : M (control scanned) :=
  match args with
  | [] => mret (Return st)
  | arg :: rest =>
      if bool_decide (arg = "-h" \/ arg = "--help") then
        longUsage;; mret (Exit 0)
      else if bool_decide (arg = "-m") then
        parseArgs_loop rest
          (mkScanned (set_moveMode (vars st)) (remainder st) (invalidArg st))
      else if bool_decide (arg = "-f") then
        parseArgs_loop rest
          (mkScanned (set_fullHashMode (vars st)) (remainder st)
             (invalidArg st))
      else if bool_decide (arg = "-r") then
        parseArgs_loop rest
          (mkScanned (set_recursiveMode (vars st)) (remainder st)
             (invalidArg st))
      else
        match slice_to_checked arg 1 with
        | None => fun _ => Panic slice_bounds
        | Some first =>
            if String.eqb first "-" then
              parseArgs_loop rest
                (mkScanned (vars st) (remainder st) (invalidArg st ++ [arg]))
            else
              parseArgs_loop rest
                (mkScanned (vars st) (remainder st ++ [arg]) (invalidArg st))
        end
  end.

Definition too_few_text : string := "pcopy: error: too few arguments".

Definition unrecognized_text (invalidArg : list string) : string :=
  fmt.Sprint ["pcopy: error: unrecognized arguments: ";
              strings.Join invalidArg " "].

(** [parseArgs], from the values [g] of the package variables; [args] is
    [os.Args] without the name of the program. *)
Definition parseArgs (args : list string) (g : globals)
    : M (control (globals * option error)) :=
  scan ← parseArgs_loop args (mkScanned g [] []);
  match scan return M (control (globals * option error)) with
  | Exit code => mret (Exit code)
  | Return st =>
      let remainder := remainder st in
      let invalidArg :=
        if 2 <? Z.of_nat (length remainder) then
          invalidArg st ++ take (length remainder - 2) remainder
        else invalidArg st in
      if Z.of_nat (length remainder) <? 2 then
        mret (Return (vars st, Some (shortUsage (fmt.Sprint [too_few_text]))))
      else if 0 <? Z.of_nat (length invalidArg) then
        mret (Return (vars st,
                      Some (shortUsage (unrecognized_text invalidArg))))
      else
        match remainder with
        | s :: t :: _ => mret (Return (set_paths (vars st) s t, None))
        | _ => fun _ => Panic "runtime error: index out of range"
        end
  end.

Definition missing_source_text (source : string) : string :=
  fmt.Sprint ["pcopy: error: "; source; ": No such file or directory"].

Section Main.

Variable md5hex : list byte -> string.
Variable walkAndWork :
  Z -> string -> string -> bool -> bool -> bool -> M (list string).

(** [err.Error()] of the errors [main] can be handed. *)
Variable Error : error -> string.

(** [main]; the result is the exit status of the process. *)
Definition main (fuel : nat) (args : list string) : M Z :=
  parsed ← parseArgs args initial;
  match parsed with
  | Exit code => mret code
  | Return (g, Some err) => Println (Error err);; mret 1
  | Return (g, None) =>
      sourceStatus ← ask (IsFileExist (source g));
      if bool_decide (sourceStatus = FileExistStatus_NotExist) then
        Println (Error (shortUsage (missing_source_text (source g))));;
        mret 1
      else if bool_decide (sourceStatus = FileExistStatus_File) then
        err ← CopyFile md5hex fuel (source g) (target g) (moveMode g)
                (fullHashMode g);
        match err with
        | Some err => Println (Error (shortUsage (fmt.Sprint [Error err])));;
                      mret 1
        | None => mret 0
        end
      else
        err ← CopyDirectory walkAndWork (source g) (target g) (moveMode g)
                (fullHashMode g) (recursiveMode g);
        match err with
        | Some err => Println (Error (shortUsage (fmt.Sprint [Error err])));;
                      mret 1
        | None => mret 0
        end
  end.

End Main.

End pcopy.

(* ===================================================================== *)
(** * pclassify: sorting photos into dated folders *)
(* ===================================================================== *)

Module pclassify.

Import time.

(** The layouts ["2006-01"], ["2006"] and ["2006-01-02"]. *)
Definition layout_month : list chunk :=
  [stdLongYear; text "-"; stdZeroMonth].
Definition layout_year : list chunk := [stdLongYear].
Definition layout_date : list chunk :=
  [stdLongYear; text "-"; stdZeroMonth; text "-"; stdZeroDay].

Inductive typeClassifyMode : Type :=
| monthMode
| yearMode
| birthdayMode
| dateMode
| unknown.

Global Instance typeClassifyMode_eq_dec : EqDecision typeClassifyMode.
Proof. solve_decision. Defined.

Definition make_folder_failed : error :=
  errors.New "pclassify: error: make folder by month failed".

(** The common end of the four [makeFolderBy...] functions:

    if pcopylib.IsFileExist(folderPath) != pcopylib.FileExistStatus_Directory {
      os.Mkdir(folderPath, os.ModePerm|os.ModeDir)
    }
    if pcopylib.IsFileExist(folderPath) != pcopylib.FileExistStatus_Directory {
      return "", errors.New(...)
    }
    return folderPath, nil *)
Definition makeFolder (folderPath : string) : M (string * option error) :=
  st ← ask (IsFileExist folderPath);
  (if bool_decide (st <> FileExistStatus_Directory) then
     Mkdir folderPath (Z.lor ModePerm ModeDir);; mret tt
   else mret tt);;
  st ← ask (IsFileExist folderPath);
  if bool_decide (st <> FileExistStatus_Directory) then
    mret ("", Some make_folder_failed)
  else mret (folderPath, None).

Definition makeFolderByMonth (target : string) (date : Time)
    : M (string * option error) :=
  let dateString := Format date layout_month in
  let folderPath := lexical.Join [target; dateString] in
  makeFolder folderPath.

Definition makeFolderByYear (target : string) (date : Time)
    : M (string * option error) :=
  let dateString := Format date layout_year in
  let folderPath := lexical.Join [target; dateString] in
  makeFolder folderPath.

Definition makeFolderByDate (target : string) (date : Time)
    : M (string * option error) :=
  let dateString := Format date layout_date in
  let folderPath := lexical.Join [target; dateString] in
  makeFolder folderPath.

(** [time.Date(2011, 3, 16, 13, 12, 30, 0, time.Local)] *)
Definition birthday : Time := {| Year := 2011; Month := 3; Day := 16 |}.

Definition earlier_than_birthday : error :=
  errors.New
    "pclassify: error: the date photo taken is earlier than birthday".

(** The count of months in [makeFolderByBirthday]. *)
Definition monthAfterBirth (date : Time) : Z :=
  let deltaYear := wrap64 (Year date - Year birthday) in
  let deltaMonth := wrap64 (Month date - Month birthday) in
  let monthAfterBirth := wrap64 (wrap64 (deltaYear * 12) + deltaMonth) in
  if 16 <=? Day date then wrap64 (monthAfterBirth + 1) else monthAfterBirth.

(** [yearTag] and [monthTag] *)
Definition tags (monthAfterBirth : Z) : Z * Z :=
  let yearTag := go_div monthAfterBirth 12 in
  let monthTag := Z.rem monthAfterBirth 12 in
  if monthTag =? 0 then (wrap64 (yearTag - 1), 12) else (yearTag, monthTag).

(** [fmt.Sprintf("%d...%d...", yearTag, monthTag)] with the two texts of
    the program: years, months, and photo or video. *)
Definition photo_folder (yearTag monthTag : Z) : string :=
  strconv.Itoa yearTag +:+ "岁" +:+ strconv.Itoa monthTag +:+ "月照".

Definition video_folder (yearTag monthTag : Z) : string :=
  strconv.Itoa yearTag +:+ "岁" +:+ strconv.Itoa monthTag +:+ "月视频".

Definition shortUsage (errInfo : string) : error :=
  let str :=
    Sprintln
      "usage: pclassify [-h] [-c] [-f] [-m | -y | -b | -d] sourcePath [destPath]"
    in
  let str := str +:+ fmt.Sprint [errInfo] in
  let err := errors.New str in
  err.

Definition longUsage : M unit :=
  Println "usage: pclassify [-h] [-c] [-f] [-m] [-y] [-b] sourcePath [destPath]";;
  Println "";;
  Println "positional arguments:";;
  Println "  sourcePath   source path for photos to be classified";;
  Println "  destPath     specify destination path for classified photos(use source";;
  Println "               path by default)";;
  Println "";;
  Println "optional arguments:";;
  Println "  -h, --help   show this help message and exit";;
  Println "  -c           copy file(s) from source to target(move file(s) by defualt)";;
  Println "  -f           use fullhash mode(more slower than default)";;
  Println "";;
  Println "  classify mode options:";;
  Println "    -m         classify photos by month(default)";;
  Println "    -y         classify photos by year";;
  Println "    -b         classify photos by birthday";;
  Println "    -d         classify photos by date".

(** The package variables. *)
Record globals : Type := mkGlobals {
  copyMode : bool;
  fullHashMode : bool;
  classifyMode : typeClassifyMode;
  source : string;
  target : string
}.

Definition initial : globals :=
  {| copyMode := false; fullHashMode := false; classifyMode := unknown;
     source := ""; target := "" |}.

Definition set_copyMode (g : globals) : globals :=
  {| copyMode := true; fullHashMode := fullHashMode g;
     classifyMode := classifyMode g; source := source g;
     target := target g |}.

Definition set_fullHashMode (g : globals) : globals :=
  {| copyMode := copyMode g; fullHashMode := true;
     classifyMode := classifyMode g; source := source g;
     target := target g |}.

Definition set_classifyMode (g : globals) (m : typeClassifyMode) : globals :=
  {| copyMode := copyMode g; fullHashMode := fullHashMode g;
     classifyMode := m; source := source g; target := target g |}.

Definition set_source (g : globals) (s : string) : globals :=
  {| copyMode := copyMode g; fullHashMode := fullHashMode g;
     classifyMode := classifyMode g; source := s; target := target g |}.

Definition set_target (g : globals) (t : string) : globals :=
  {| copyMode := copyMode g; fullHashMode := fullHashMode g;
     classifyMode := classifyMode g; source := source g; target := t |}.

(** [classifyModeMap]; a key that is missing gives the zero value. *)
Definition classifyModeMap : list (string * typeClassifyMode) :=
  [("-b", birthdayMode); ("-m", monthMode); ("-y", yearMode);
   ("-d", dateMode)].

Definition classifyModeMap_at (arg : string) : typeClassifyMode :=
  match find (fun kv => String.eqb kv.1 arg) classifyModeMap with
  | Some kv => kv.2
  | None => monthMode
  end.

Definition exclusive_text (opt arg : string) : string :=
  fmt.Sprint ["pclassify: error: options "; opt; " and "; arg;
              " are mutally exclusive"].

(** The variables of [parseArgs] while it reads the arguments. *)
Record scanned : Type := mkScanned {
  vars : globals;
  remainder : list string;
  invalidArg : list string
}.

(** The loop of [parseArgs] over [os.Args[1:]].  It can end the call
    with an error.  The inner loop over [classifyModeMap] looks for the
    option of the mode chosen before; the modes in the map differ from
    each other, so the order in which the map is walked does not
    matter. *)
Fixpoint parseArgs_loop (args : list string) (st : scanned)
    : M (control (scanned * option error)) :=
  match args with
  | [] => mret (Return (st, None))
  | arg :: rest =>
      if bool_decide (arg = "-h" \/ arg = "--help") then
        longUsage;; mret (Exit 0)
      else if bool_decide (arg = "-c") then
        parseArgs_loop rest
          (mkScanned (set_copyMode (vars st)) (remainder st) (invalidArg st))
      else if bool_decide (arg = "-f") then
        parseArgs_loop rest
          (mkScanned (set_fullHashMode (vars st)) (remainder st)
             (invalidArg st))
      else if bool_decide (arg = "-b" \/ arg = "-y" \/ arg = "-m"
                           \/ arg = "-d") then
        if bool_decide (classifyMode (vars st) = unknown) then
          parseArgs_loop rest
            (mkScanned (set_classifyMode (vars st) (classifyModeMap_at arg))
               (remainder st) (invalidArg st))
        else
          match find (fun kv => bool_decide (kv.2 = classifyMode (vars st)))
                  classifyModeMap with
          | Some (opt, mode) =>
              mret (Return (st, Some (shortUsage (exclusive_text opt arg))))
          | None => parseArgs_loop rest st
          end
      else
        match slice_to_checked arg 1 with
        | None => fun _ => Panic slice_bounds
        | Some first =>
            if String.eqb first "-" then
              parseArgs_loop rest
                (mkScanned (vars st) (remainder st) (invalidArg st ++ [arg]))
            else
              parseArgs_loop rest
                (mkScanned (vars st) (remainder st ++ [arg]) (invalidArg st))
        end
  end.

Definition too_few_text : string := "pclassify: error: too few arguments".

Definition unrecognized_text (invalidArg : list string) : string :=
  fmt.Sprint ["pclassify: error: unrecognized arguments: ";
              strings.Join invalidArg " "].

Definition parseArgs (args : list string) (g : globals)
    : M (control (globals * option error)) :=
  scan ← parseArgs_loop args (mkScanned g [] []);
  match scan return M (control (globals * option error)) with
  | Exit code => mret (Exit code)
  | Return (st, Some err) => mret (Return (vars st, Some err))
  | Return (st, None) =>
      let remainder := remainder st in
      let invalidArg :=
        if 2 <? Z.of_nat (length remainder) then
          invalidArg st ++ take (length remainder - 2) remainder
        else invalidArg st in
      if Z.of_nat (length remainder) <? 1 then
        mret (Return (vars st, Some (shortUsage (fmt.Sprint [too_few_text]))))
      else if 0 <? Z.of_nat (length invalidArg) then
        mret (Return (vars st,
                      Some (shortUsage (unrecognized_text invalidArg))))
      else
        match remainder with
        | [] => fun _ => Panic "runtime error: index out of range"
        | s :: more =>
            let g := set_source (vars st) s in
            let g :=
              match more with
              | [t] => set_target g t
              | _ => g
              end in
            let g :=
              if bool_decide (classifyMode g = unknown) then
                set_classifyMode g monthMode
              else g in
            let g :=
              if len (target g) =? 0 then set_target g (source g) else g in
            mret (Return (g, None))
        end
  end.

Section Classify.

Variable md5hex : list byte -> string.

(** [strings.ToLower] *)
Variable ToLower : string -> string.

(** The date a photo was taken, as [exif.Decode] and
    [time.ParseInLocation] get it from the bytes of the file; [None]
    when one of them fails. *)
Variable DateTimeOriginal : list byte -> option Time.

(** The calendar date, in the local time zone, of a modification
    time. *)
Variable localDate : Z -> Time.

Definition read_exif_failed : error :=
  errors.New "pclassify: warning: read exif info failed".

Definition get_mtime_failed : error :=
  errors.New "pclassify: warning: get file MT_TIME failed".

(** The functions return the error first, and the present time with
    it. *)
Definition Now (w : world) : Time := localDate (clock w).

Definition getDateFromExif (file : string) (w : world)
    : option error * Time :=
  match os.Open file w with
  | Err _ => (Some read_exif_failed, Now w)
  | Ok f =>
      match contents w (fd f) with
      | None => (Some read_exif_failed, Now w)
      | Some data =>
          match DateTimeOriginal data with
          | None => (Some read_exif_failed, Now w)
          | Some t => (None, t)
          end
      end
  end.

Definition getDateFromModifyTime (file : string) (w : world)
    : option error * Time :=
  match os.Stat file w with
  | Err _ => (Some get_mtime_failed, Now w)
  | Ok fi => (None, localDate (ModTime fi))
  end.

Definition makeFolderByBirthday (target : string) (date : Time)
    (file : string) : M (string * option error) :=
  let monthAfterBirth := monthAfterBirth date in
  if monthAfterBirth <? 0 then mret ("", Some earlier_than_birthday)
  else
    let '(yearTag, monthTag) := tags monthAfterBirth in
    let extName := ToLower (filepath.Ext file) in
    let dateString :=
      if bool_decide (extName = ".jpg" \/ extName = ".cr2") then
        photo_folder yearTag monthTag
      else if bool_decide (extName = ".mp4" \/ extName = ".mov"
                           \/ extName = ".3gp") then
        video_folder yearTag monthTag
      else "" in
    let folderPath := lexical.Join [target; dateString] in
    makeFolder folderPath.

Definition classify (fuel : nat) (file target : string)
    (copyMode fullHashMode : bool) (classifyMode : typeClassifyMode)
    : M (option error) :=
  dated ← ask (getDateFromExif file);
  dated ← (match dated.1 with
           | Some _ => ask (getDateFromModifyTime file)
           | None => mret dated
           end);
  match dated with
  | (Some err, _) => mret (Some err)
  | (None, date) =>
      made ← (match classifyMode with
              | monthMode => makeFolderByMonth target date
              | yearMode => makeFolderByYear target date
              | birthdayMode => makeFolderByBirthday target date file
              | dateMode => makeFolderByDate target date
              | unknown => mret ("", None)
              end);
      match made with
      | (_, Some err) => mret (Some err)
      | (folderPath, None) =>
          let targetFile := lexical.Join [folderPath; lexical.Base file] in
          err ← CopyFile md5hex fuel file targetFile (negb copyMode)
                  fullHashMode;
          match err with
          | Some err => mret (Some err)
          | None => mret None
          end
      end
  end.

End Classify.

End pclassify.

(* ===================================================================== *)
(** * More sample file systems *)
(* ===================================================================== *)

(** Two files of 600000 bytes that differ in one byte, at offset 51200:
    just behind the first sampled block. *)
Definition blind_data (b : byte) : list byte :=
  repeat x00 (Z.to_nat 51200) ++ [b] ++ repeat x00 (Z.to_nat 548799).

Definition blind_files : gmap (list string) node :=
  list_to_map
    [ ([], sample_dir);
      (["a.raw"], RegFile (blind_data x01) 420 1);
      (["b.raw"], RegFile (blind_data x02) 420 2) ].

Definition blind_world : world := make_world blind_files no_faults.

(** [/src/photo.jpg] and a file with the same bytes under another name,
    with other permission bits and another modification time. *)
Definition twin_files : gmap (list string) node :=
  list_to_map
    [ ([], sample_dir);
      (["src"], sample_dir);
      (["src"; "photo.jpg"], RegFile (bytes "abc") 420 7);
      (["dst"], sample_dir);
      (["dst"; "same.jpg"], RegFile (bytes "abc") 384 3) ].

Definition twin_world : world := make_world twin_files no_faults.

(** An example of the two: the date is read off the first three bytes,
    if there are that many; a modification time counts days of January
    2000. *)
Definition sample_exif (data : list byte) : option time.Time :=
  match data with
  | y :: m :: d :: _ =>
      Some (time.mkTime (2000 + Z.of_N (Byte.to_N y)) (Z.of_N (Byte.to_N m))
              (Z.of_N (Byte.to_N d)))
  | _ => None
  end.

Definition sample_localDate (mtime : Z) : time.Time :=
  time.mkTime 2000 1 mtime.

Definition sample_ToLower (s : string) : string := s.

(** A photo taken on 20 August 2015, last modified on 7 January 2000, and
    a target directory without folders. *)
Definition album_files : gmap (list string) node :=
  list_to_map
    [ ([], sample_dir);
      (["in"], sample_dir);
      (["in"; "a.jpg"], RegFile [x0f; x08; x14; x00] 420 7);
      (["in"; "b.jpg"], RegFile [x0f] 420 7);
      (["out"], sample_dir) ].

Definition album_world : world := make_world album_files no_faults.

(** The text of an error, for the examples. *)
Definition sample_Error (e : error) : string :=
  match e with
  | ErrorString s => s
  | SysError _ => "system call failed"
  end.

(* ===================================================================== *)
(** * More vocabulary *)
(* ===================================================================== *)

(** An entry name that [path.enter] appends. *)
Definition real_name (e : string) : Prop :=
  e <> "" /\ e <> "." /\ e <> ".." /\ noslash e = true.

(** What [Clean] writes: names and [..], never an empty element or a
    dot. *)
Definition written (e : string) : Prop :=
  e <> "" /\ e <> "." /\ noslash e = true.

(** The path [filepath.Walk] passes to its callback for the entry [name]
    of the directory it was started on: [filepath.Join(root, name)].  The
    root itself is passed as it was given. *)
Definition walked (root name : string) : string := lexical.Join [root; name].

(** The arguments as [parseArgs] sorts them: an argument that starts
    with a dash is an option; the others are taken as paths. *)
Definition dashed (arg : string) : bool :=
  match arg with
  | String c _ => Ascii.eqb c "-"
  | EmptyString => false
  end.

Definition is_help (arg : string) : Prop := arg = "-h" \/ arg = "--help".

Definition positional (args : list string) : list string :=
  filter (fun arg => dashed arg = false) args.

Definition unknown_options (known args : list string) : list string :=
  filter (fun arg => dashed arg = true /\ arg ∉ known) args.

(** Arguments the loop of [parseArgs] runs through: none is empty, none
    asks for help. *)
Definition plain (args : list string) : Prop :=
  Forall (fun arg => arg <> "" /\ ~ is_help arg) args.

Global Instance plain_dec (args : list string) : Decision (plain args).
Proof. unfold plain, is_help. apply _. Defined.

Definition pcopy_options : list string := ["-m"; "-f"; "-r"].

(** The package variables of [pcopy] after the options in [args] have
    been read. *)
Definition with_options (g : pcopy.globals) (args : list string)
    : pcopy.globals :=
  {| pcopy.moveMode := pcopy.moveMode g || bool_decide ("-m" ∈ args);
     pcopy.fullHashMode := pcopy.fullHashMode g || bool_decide ("-f" ∈ args);
     pcopy.recursiveMode :=
       pcopy.recursiveMode g || bool_decide ("-r" ∈ args);
     pcopy.source := pcopy.source g;
     pcopy.target := pcopy.target g |}.

(** The options of [pclassify], and those among them that choose how the
    photos are filed. *)
Definition pclassify_options : list string :=
  ["-c"; "-f"; "-b"; "-y"; "-m"; "-d"].

Definition mode_option (arg : string) : Prop :=
  arg = "-b" \/ arg = "-y" \/ arg = "-m" \/ arg = "-d".

Definition no_mode_option (args : list string) : Prop :=
  Forall (fun arg => ~ mode_option arg) args.

(** The package variables of [pclassify] after the options [-c] and [-f]
    in [args] have been read. *)
Definition with_classify_options (g : pclassify.globals)
    (args : list string) : pclassify.globals :=
  {| pclassify.copyMode := pclassify.copyMode g || bool_decide ("-c" ∈ args);
     pclassify.fullHashMode :=
       pclassify.fullHashMode g || bool_decide ("-f" ∈ args);
     pclassify.classifyMode := pclassify.classifyMode g;
     pclassify.source := pclassify.source g;
     pclassify.target := pclassify.target g |}.

(** The date [classify] files a photo under: the date it was taken, or,
    when the file holds none that can be read, the date it was last
    modified. *)
Definition photo_date (DateTimeOriginal : list byte -> option time.Time)
    (localDate : Z -> time.Time) (data : list byte) (mtime : Z)
    : time.Time :=
  match DateTimeOriginal data with
  | Some t => t
  | None => localDate mtime
  end.

(* ===================================================================== *)
(** * Facts about strings and paths *)
(* ===================================================================== *)

Section StringFacts.

Lemma string_app_cons (c : ascii) (a b : string) :
  String c a +:+ b = String c (a +:+ b).
Proof. reflexivity. Qed.

Lemma string_app_nil_l (b : string) : "" +:+ b = b.
Proof. reflexivity. Qed.

Lemma string_app_nil_r (s : string) : s +:+ "" = s.
Proof.
  induction s as [|c s IH]; [done|]. by rewrite string_app_cons, IH.
Qed.

Lemma string_app_assoc (a b c : string) :
  (a +:+ b) +:+ c = a +:+ (b +:+ c).
Proof.
  induction a as [|x a IH]; [done|]. by rewrite !string_app_cons, IH.
Qed.

Lemma string_length_app (a b : string) :
  String.length (a +:+ b) = (String.length a + String.length b)%nat.
Proof.
  induction a as [|x a IH]; [done|].
  rewrite string_app_cons. simpl. by rewrite IH.
Qed.

Lemma string_app_inv_tail (a b c : string) :
  a +:+ c = b +:+ c -> a = b.
Proof.
  revert b. induction a as [|x a IH]; intros [|y b] H.
  - done.
  - apply (f_equal String.length) in H.
    rewrite string_app_nil_l, string_app_cons in H. simpl in H.
    rewrite string_length_app in H. lia.
  - apply (f_equal String.length) in H.
    rewrite string_app_nil_l, string_app_cons in H. simpl in H.
    rewrite string_length_app in H. lia.
  - rewrite !string_app_cons in H. injection H as -> H.
    f_equal. by apply IH.
Qed.

Lemma noslash_app (a b : string) :
  noslash (a +:+ b) = noslash a && noslash b.
Proof.
  induction a as [|x a IH]; [done|].
  rewrite string_app_cons. simpl. rewrite IH. by rewrite andb_assoc.
Qed.

Lemma count_char_app (c : ascii) (a b : string) :
  count_char c (a +:+ b) = (count_char c a + count_char c b)%nat.
Proof.
  induction a as [|x a IH]; [done|].
  rewrite string_app_cons. simpl. rewrite IH. lia.
Qed.

Lemma noslash_get (s : string) :
  noslash s = true <-> forall j, String.get j s <> Some "/"%char.
Proof.
  induction s as [|c s IH]; simpl.
  - split; [intros _ j; by destruct j | done].
  - rewrite andb_true_iff, negb_true_iff, IH. split.
    + intros [Hc Hs] [|j]; simpl; [|apply Hs].
      intros [= ->]. by rewrite Ascii.eqb_refl in Hc.
    + intros H. split.
      * destruct (Ascii.eqb_spec c "/") as [->|]; [|done].
        by specialize (H 0%nat).
      * intros j. apply (H (S j)).
Qed.

Lemma substring_length (s : string) (i m : nat) :
  (i + m <= String.length s)%nat -> String.length (substring i m s) = m.
Proof.
  revert i m. induction s as [|c s IH]; intros [|i] [|m] H; simpl in *;
    try done; try lia.
  - f_equal. apply (IH 0%nat). lia.
  - apply IH. lia.
  - apply IH. lia.
Qed.

Lemma substring_0_0 (s : string) : substring 0 0 s = "".
Proof. by destruct s. Qed.

Lemma substring_all (s : string) : substring 0 (String.length s) s = s.
Proof. induction s as [|c s IH]; simpl; [done | by rewrite IH]. Qed.

Lemma substring_split (s : string) (n : nat) :
  (n <= String.length s)%nat ->
  substring 0 n s +:+ substring n (String.length s - n) s = s.
Proof.
  revert n. induction s as [|c s IH]; intros [|n] H; simpl in H;
    try done; try lia.
  - rewrite substring_0_0, Nat.sub_0_r, string_app_nil_l.
    apply substring_all.
  - simpl. rewrite string_app_cons. f_equal. apply IH. lia.
Qed.

Lemma get_lt_length (s : string) (i : nat) :
  (i < String.length s)%nat -> exists c, String.get i s = Some c.
Proof.
  revert i. induction s as [|c s IH]; intros [|i] H; simpl in *;
    try lia; eauto. apply IH. lia.
Qed.

Lemma get_ge_length (s : string) (i : nat) :
  (String.length s <= i)%nat -> String.get i s = None.
Proof.
  revert i. induction s as [|c s IH]; intros [|i] H; simpl in *;
    try done; try lia. apply IH. lia.
Qed.

(** The suffix [path[i:]] is free of separators when no byte from [i]
    on is one. *)
Lemma slice_from_noslash (path : string) (i : nat) :
  (forall j, (i <= j)%nat -> String.get j path <> Some "/"%char) ->
  noslash (slice_from path i) = true.
Proof.
  intros H. apply noslash_get. intros j. unfold slice_from.
  destruct (decide (j < String.length path - i)%nat) as [Hlt|Hge].
  - rewrite substring_correct1 by done. apply H. lia.
  - rewrite substring_correct2 by lia. done.
Qed.

End StringFacts.

Section ExtFacts.

Import filepath.

(** What the scan of [Ext] returns: nothing, or the suffix that starts
    at a dot after which no separator follows. *)
Lemma Ext_loop_spec (path : string) (n : nat) :
  (n <= String.length path)%nat ->
  (forall j, (n <= j)%nat -> String.get j path <> Some "/"%char) ->
  Ext_loop path n = ""
  \/ exists i, (i < String.length path)%nat
       /\ Ext_loop path n = slice_from path i
       /\ String.get i path = Some "."%char
       /\ forall j, (i <= j)%nat -> String.get j path <> Some "/"%char.
Proof.
  induction n as [|i IH]; intros Hn Hfree; simpl; [by left|].
  destruct (get_lt_length path i) as [c Hc]; [lia|]. rewrite Hc.
  destruct (Ascii.eqb_spec c "/") as [->|Hslash]; [by left|].
  destruct (Ascii.eqb_spec c ".") as [->|Hdot].
  - right. exists i. repeat split; [lia | done |].
    intros j Hj. destruct (decide (j = i)) as [->|]; [by rewrite Hc|].
    apply Hfree. lia.
  - apply IH; [lia|]. intros j Hj.
    destruct (decide (j = i)) as [->|]; [|apply Hfree; lia].
    rewrite Hc. by intros [= ->].
Qed.

Lemma Ext_spec (path : string) :
  Ext path = ""
  \/ exists i, (i < String.length path)%nat
       /\ Ext path = slice_from path i
       /\ String.get i path = Some "."%char
       /\ forall j, (i <= j)%nat -> String.get j path <> Some "/"%char.
Proof.
  apply Ext_loop_spec; [done|]. intros j Hj.
  by rewrite get_ge_length.
Qed.

Lemma Ext_noslash (path : string) : noslash (Ext path) = true.
Proof.
  destruct (Ext_spec path) as [->|(i & _ & -> & _ & H)]; [done|].
  by apply slice_from_noslash.
Qed.

(** The extension is a suffix: cutting it off and putting it back gives
    the path. *)
Lemma Ext_suffix (path : string) :
  slice_to path (len path - len (Ext path)) +:+ Ext path = path.
Proof.
  unfold slice_to, len.
  destruct (Ext_spec path) as [->|(i & Hi & -> & _ & _)].
  - simpl. rewrite Z.sub_0_r, Nat2Z.id.
    pose proof (substring_split path (String.length path)) as H.
    rewrite Nat.sub_diag in H.
    assert (substring (String.length path) 0 path = "") as E.
    { clear. induction path; simpl; done. }
    rewrite E in H. apply H. lia.
  - unfold slice_from. rewrite substring_length by lia.
    replace (Z.to_nat (Z.of_nat (String.length path)
                       - Z.of_nat (String.length path - i))) with i by lia.
    apply substring_split. lia.
Qed.

End ExtFacts.

Section ItoaFacts.

Import strconv.

Lemma string_of_uint_noslash (d : Decimal.uint) :
  noslash (NilEmpty.string_of_uint d) = true.
Proof. induction d; simpl; done. Qed.

Lemma Itoa_noslash (i : Z) : noslash (Itoa i) = true.
Proof.
  unfold Itoa, NilZero.string_of_int, NilZero.string_of_uint.
  destruct (Z.to_int i) as [d|d]; destruct d; simpl;
    try done; apply string_of_uint_noslash.
Qed.

Lemma to_int_proper (i : Z) :
  Z.to_int i <> Decimal.Pos Decimal.Nil /\ Z.to_int i <> Decimal.Neg Decimal.Nil.
Proof.
  destruct i as [|p|p]; simpl; split; try done;
    intros [= H]; by apply (DecimalPos.Unsigned.to_uint_nonnil p).
Qed.

(** Different numbers print differently. *)
Lemma Itoa_inj (i j : Z) : Itoa i = Itoa j -> i = j.
Proof.
  unfold Itoa. intros H.
  destruct (to_int_proper i) as [Hi1 Hi2], (to_int_proper j) as [Hj1 Hj2].
  pose proof (NilZero.isi _ Hi1 Hi2) as Ei.
  pose proof (NilZero.isi _ Hj1 Hj2) as Ej.
  rewrite H, Ej in Ei. injection Ei as Ei.
  symmetry. by apply DecimalZ.to_int_inj.
Qed.

End ItoaFacts.

Section PathFacts.

Import path.

Lemma split_go_nonempty (s cur : string) : split_go s cur <> [].
Proof.
  revert cur. induction s as [|c s IH]; intros cur; simpl; [done|].
  destruct (Ascii.eqb c "/"); [done | apply IH].
Qed.

Lemma split_go_noslash (t cur : string) :
  noslash t = true -> split_go t cur = [cur +:+ t].
Proof.
  revert cur. induction t as [|c t IH]; intros cur H; simpl in *.
  - by rewrite string_app_nil_r.
  - apply andb_true_iff in H as [Hc Ht]. apply negb_true_iff in Hc.
    rewrite Hc, IH by done. by rewrite string_app_assoc.
Qed.

(** Appending separator-free text only lengthens the last entry. *)
Lemma split_go_app (s t cur : string) :
  noslash t = true ->
  split_go (s +:+ t) cur
  = removelast (split_go s cur) ++ [List.last (split_go s cur) "" +:+ t].
Proof.
  intros Ht. revert cur. induction s as [|c s IH]; intros cur.
  - rewrite string_app_nil_l. simpl. by apply split_go_noslash.
  - rewrite string_app_cons. simpl.
    destruct (Ascii.eqb c "/"); [|apply IH].
    rewrite IH. pose proof (split_go_nonempty s "") as Hne.
    destruct (split_go s "") as [|x l]; [done|]. done.
Qed.

Lemma fold_left_snoc {A B} (f : A -> B -> A) (l : list B) (x : B) (a : A) :
  fold_left f (l ++ [x]) a = f (fold_left f l a) x.
Proof. by rewrite fold_left_app. Qed.

Lemma enter_named (at_ : list string) (name : string) :
  (0 < count_char "(" name)%nat -> enter at_ name = at_ ++ [name].
Proof.
  intros H. unfold enter.
  rewrite bool_decide_eq_false_2.
  - rewrite bool_decide_eq_false_2; [done|]. intros ->. simpl in H. lia.
  - intros [-> | ->]; simpl in H; lia.
Qed.

Lemma resolve_cons (wd : list string) (c : ascii) (r : string) :
  resolve wd (String c r)
  = Some (fold_left enter (split_go (String c r) "")
            (if Ascii.eqb c "/" then [] else wd)).
Proof. reflexivity. Qed.

(** A path that ends in separator-free text with a parenthesis names the
    entry made of the last entry of the front part and that text. *)
Lemma resolve_app (wd : list string) (s t : string) :
  noslash t = true -> (0 < count_char "(" t)%nat ->
  resolve wd (s +:+ t)
  = Some (fold_left enter (removelast (split_go s "")) (origin wd s)
          ++ [List.last (split_go s "") "" +:+ t]).
Proof.
  intros Ht Hp.
  assert (forall a, (0 < count_char "(" (a +:+ t))%nat) as Hcount.
  { intros a. rewrite count_char_app. lia. }
  destruct s as [|c s].
  - rewrite string_app_nil_l. destruct t as [|c t]; [simpl in Hp; lia|].
    rewrite resolve_cons.
    assert (Ascii.eqb c "/" = false) as ->.
    { simpl in Ht. apply andb_true_iff in Ht as [Hc _].
      by apply negb_true_iff in Hc. }
    rewrite split_go_noslash by done. simpl.
    apply f_equal, enter_named, Hcount.
  - rewrite string_app_cons, resolve_cons, <- string_app_cons.
    rewrite split_go_app by done. rewrite fold_left_snoc.
    apply f_equal, enter_named, Hcount.
Qed.

End PathFacts.

Section RenameFacts.

Import path.

Lemma renameFile_stem_tag (target : string) (idx : Z) :
  renameFile target idx = stem target +:+ tag target idx.
Proof. reflexivity. Qed.

Lemma stem_Ext (target : string) :
  stem target +:+ filepath.Ext target = target.
Proof. apply Ext_suffix. Qed.

Lemma tag_noslash (target : string) (idx : Z) :
  noslash (tag target idx) = true.
Proof.
  unfold tag. rewrite !noslash_app, Itoa_noslash, Ext_noslash. done.
Qed.

Lemma tag_inj (target : string) (i j : Z) :
  tag target i = tag target j -> i = j.
Proof.
  unfold tag. intros H. apply String.app_inj in H.
  apply string_app_inv_tail in H. by apply Itoa_inj.
Qed.

Lemma tag_paren (target : string) (idx : Z) :
  (0 < count_char "(" (tag target idx))%nat.
Proof. unfold tag. rewrite string_app_cons. simpl. lia. Qed.

(** Where a renamed candidate lives: in one directory for all numbers,
    under an entry name that ends in the tag. *)
Lemma locate_renameFile (w : world) (target : string) :
  exists (d : list string) (entry : string), forall idx,
    locate w (renameFile target idx) = Some (d ++ [entry +:+ tag target idx]).
Proof.
  eexists _, _. intros idx. rewrite renameFile_stem_tag.
  apply resolve_app; [apply tag_noslash | apply tag_paren].
Qed.

(** Candidates with different numbers are different objects. *)
Lemma locate_renameFile_inj (w : world) (target : string) (i j : Z) :
  locate w (renameFile target i) = locate w (renameFile target j) -> i = j.
Proof.
  destruct (locate_renameFile w target) as (d & entry & H).
  rewrite !H. intros [= E]. apply app_inv_head in E. injection E as E.
  apply String.app_inj in E. by apply (tag_inj target).
Qed.

End RenameFacts.

(* ===================================================================== *)
(** * Facts about the file system *)
(* ===================================================================== *)

Section ProbeFacts.

Lemma wrap64_small (z : Z) : - 2 ^ 63 <= z < 2 ^ 63 -> wrap64 z = z.
Proof. intros H. unfold wrap64. rewrite Z.mod_small; lia. Qed.

Lemma Stat_Ok_iff (p : string) (w : world) (fi : FileInfo) :
  os.Stat p w = Ok fi <->
  exists k n, locate w p = Some k /\ files w !! k = Some n /\ fi = info_of n.
Proof.
  unfold os.Stat. split.
  - destruct (locate w p) as [k|]; [|done].
    destruct (files w !! k) as [n|] eqn:E; [|done].
    intros [= <-]. eauto.
  - intros (k & n & -> & -> & ->). done.
Qed.

Lemma IsFileExist_exists (p : string) (w : world) :
  IsFileExist p w <> FileExistStatus_NotExist <->
  exists fi, os.Stat p w = Ok fi.
Proof.
  unfold IsFileExist. destruct (os.Stat p w) as [fi|e].
  - split; [eauto|]. intros _. by destruct (IsDir fi).
  - split; [done|]. intros [fi [=]].
Qed.

Lemma IsFileExist_NotExist (p : string) (w : world) :
  IsFileExist p w = FileExistStatus_NotExist <->
  forall k, locate w p = Some k -> files w !! k = None.
Proof.
  unfold IsFileExist, os.Stat. destruct (locate w p) as [k|].
  - destruct (files w !! k) as [n|] eqn:E.
    + split; [by destruct n | intros H; specialize (H k eq_refl); congruence].
    + split; [by intros _ k' [= <-] | done].
  - split; [intros _ k H; discriminate H | done].
Qed.

Lemma IsFileExist_in_dom (p : string) (w : world) :
  IsFileExist p w <> FileExistStatus_NotExist ->
  exists k, locate w p = Some k /\ k ∈ dom (files w).
Proof.
  intros (fi & (k & n & Hk & Hn & _)%Stat_Ok_iff)%IsFileExist_exists.
  exists k. split; [done|]. apply elem_of_dom. eauto.
Qed.

End ProbeFacts.

Ltac unfold_M :=
  unfold mbind, M_bind, bind, ask, mret, M_ret, ret in *.

Section LoopFacts.

Variable md5hex : list byte -> string.

Lemma hasSameContent_total (source target : string) (fh : bool) (w : world)
    (a b : FileInfo) :
  os.Stat source w = Ok a -> os.Stat target w = Ok b ->
  exists r, hasSameContent md5hex source target fh w = Normal r w.
Proof.
  intros Ha Hb. unfold hasSameContent. rewrite Ha, Hb.
  destruct (negb (Size a =? Size b)); [eauto|].
  destruct (negb fh && (500 * 1024 <? Size a)); eauto.
Qed.

Lemma hasSameContent_Normal (source target : string) (fh : bool)
    (w w' : world) (r : bool) :
  hasSameContent md5hex source target fh w = Normal r w' ->
  w' = w /\ (exists a, os.Stat source w = Ok a)
  /\ (exists b, os.Stat target w = Ok b).
Proof.
  unfold hasSameContent.
  destruct (os.Stat source w) as [a|], (os.Stat target w) as [b|];
    try done.
  destruct (negb (Size a =? Size b)).
  - intros [= _ <-]. eauto.
  - destruct (negb fh && (500 * 1024 <? Size a)); intros [= _ <-]; eauto.
Qed.

(** With a source that can be examined, every name is in exactly one of
    three conditions. *)
Lemma candidate_cases (source cand : string) (fh : bool) (w : world) :
  (exists a, os.Stat source w = Ok a) ->
  occupied md5hex source cand fh w
  \/ duplicate md5hex source cand fh w
  \/ free cand w.
Proof.
  intros [a Ha]. unfold occupied, duplicate, free.
  destruct (decide (IsFileExist cand w = FileExistStatus_NotExist))
    as [|Hex]; [auto|].
  destruct (proj1 (IsFileExist_exists cand w) Hex) as [b Hb].
  destruct (hasSameContent_total source cand fh w a b Ha Hb) as [[] Hr];
    auto.
Qed.

Lemma loop_occupied (fuel : nat) (source target : string) (fh : bool)
    (idx : Z) (cur : string) (w : world) :
  occupied md5hex source cur fh w ->
  CopyFileInternal_loop md5hex (S fuel) source target fh idx cur w
  = CopyFileInternal_loop md5hex fuel source target fh (wrap64 (idx + 1))
      (renameFile target idx) w.
Proof.
  intros [Hex Hdiff]. simpl. unfold_M.
  rewrite bool_decide_eq_true_2 by done. by rewrite Hdiff.
Qed.

Lemma loop_duplicate (fuel : nat) (source target : string) (fh : bool)
    (idx : Z) (cur : string) (w : world) :
  duplicate md5hex source cur fh w ->
  CopyFileInternal_loop md5hex (S fuel) source target fh idx cur w
  = Normal cur w.
Proof.
  intros [Hex Hsame]. simpl. unfold_M.
  rewrite bool_decide_eq_true_2 by done. by rewrite Hsame.
Qed.

Lemma loop_free (fuel : nat) (source target : string) (fh : bool)
    (idx : Z) (cur : string) (w : world) :
  free cur w ->
  CopyFileInternal_loop md5hex (S fuel) source target fh idx cur w
  = Normal cur w.
Proof.
  intros Hfree. simpl. unfold_M.
  rewrite bool_decide_eq_false_2; [done|]. unfold free in Hfree. tauto.
Qed.

(** The loop from the [k]-th numbered candidate: it walks through the
    occupied names and returns the first that is not. *)
Lemma loop_from (source target : string) (fh : bool) (w : world) (n : nat) :
  Z.of_nat n + 1 < 2 ^ 63 ->
  (duplicate md5hex source (candidate target n) fh w
   \/ free (candidate target n) w) ->
  forall (j k fuel : nat),
    (k + j = n)%nat -> (j < fuel)%nat ->
    (forall i, (k <= i < n)%nat ->
               occupied md5hex source (candidate target i) fh w) ->
    CopyFileInternal_loop md5hex fuel source target fh
      (Z.of_nat k + 1) (candidate target k) w
    = Normal (candidate target n) w.
Proof.
  intros Hsmall Hstop. induction j as [|j IH]; intros k fuel Hk Hfuel Hocc.
  - assert (k = n) as -> by lia. destruct fuel as [|fuel]; [lia|].
    destruct Hstop; [by apply loop_duplicate | by apply loop_free].
  - destruct fuel as [|fuel]; [lia|].
    rewrite loop_occupied by (apply Hocc; lia).
    rewrite wrap64_small by lia.
    replace (Z.of_nat k + 1 + 1) with (Z.of_nat (S k) + 1) by lia.
    replace (renameFile target (Z.of_nat k + 1)) with (candidate target (S k))
      by (unfold candidate; f_equal; lia).
    apply IH; [lia | lia |]. intros i Hi. apply Hocc. lia.
Qed.

(** Not every one of the first [size + 1] numbered names can be taken. *)
Lemma candidates_run_out (source target : string) (fh : bool) (w : world) :
  ~ (forall i, (1 <= i <= S (size (files w)))%nat ->
               occupied md5hex source (candidate target i) fh w).
Proof.
  intros Hocc.
  destruct (locate_renameFile w target) as (d & entry & Hloc).
  set (name := fun i : nat => d ++ [entry +:+ tag target (Z.of_nat i)]).
  set (ks := name <$> seq 1 (S (size (files w)))).
  assert (NoDup ks) as Hnd.
  { apply NoDup_fmap_2; [|apply NoDup_seq].
    intros i j E. unfold name in E. apply app_inv_head in E.
    injection E as E. apply String.app_inj in E. apply tag_inj in E. lia. }
  assert (forall k, k ∈ ks -> k ∈ elements (dom (files w))) as Hin.
  { intros k (i & -> & Hi%elem_of_seq)%list_elem_of_fmap.
    destruct (Hocc i) as [Hex _]; [lia|].
    apply IsFileExist_in_dom in Hex as (k & Hk & Hdom).
    unfold candidate in Hk. rewrite Hloc in Hk. injection Hk as <-.
    by apply elem_of_elements. }
  pose proof (submseteq_length _ _ (NoDup_submseteq _ _ Hnd Hin)) as Hlen.
  subst ks. rewrite length_fmap, length_seq in Hlen.
  change (length (elements (dom (files w)))) with (size (dom (files w)))
    in Hlen.
  rewrite size_dom in Hlen. lia.
Qed.

(** Hence a first numbered name that is not occupied exists, and it is
    among the first [size + 1]. *)
Lemma first_stop (source target : string) (fh : bool) (w : world) :
  (exists a, os.Stat source w = Ok a) ->
  exists n, (1 <= n <= S (size (files w)))%nat
    /\ (forall i, (1 <= i < n)%nat ->
                  occupied md5hex source (candidate target i) fh w)
    /\ (duplicate md5hex source (candidate target n) fh w
        \/ free (candidate target n) w).
Proof.
  intros Hsrc.
  assert (forall m : nat,
    (exists n, (1 <= n <= m)%nat
       /\ (forall i, (1 <= i < n)%nat ->
                     occupied md5hex source (candidate target i) fh w)
       /\ (duplicate md5hex source (candidate target n) fh w
           \/ free (candidate target n) w))
    \/ (forall i, (1 <= i <= m)%nat ->
                  occupied md5hex source (candidate target i) fh w)) as Hsearch.
  { induction m as [|m [(n & Hn & Hbefore & Hstop) | Hall]].
    - right. intros i Hi. lia.
    - left. exists n. split; [lia | done].
    - destruct (candidate_cases source (candidate target (S m)) fh w Hsrc)
        as [Hocc | Hstop].
      + right. intros i Hi.
        destruct (decide (i = S m)) as [->|]; [done | apply Hall; lia].
      + left. exists (S m). split; [lia|]. split; [|done].
        intros i Hi. apply Hall. lia. }
  destruct (Hsearch (S (size (files w)))) as [H | Hall]; [done|].
  by apply candidates_run_out in Hall.
Qed.

(** From the start of [CopyFileInternal]: with the target occupied, the
    loop returns the first numbered candidate that is not. *)
Lemma rename_sequence_loop (w : world) (source target : string) (fh : bool)
    (n : nat) :
  Z.of_nat n + 1 < 2 ^ 63 -> (1 <= n)%nat ->
  occupied md5hex source target fh w ->
  (forall i, (1 <= i < n)%nat ->
             occupied md5hex source (candidate target i) fh w) ->
  (duplicate md5hex source (candidate target n) fh w
   \/ free (candidate target n) w) ->
  forall fuel, (n < fuel)%nat ->
    CopyFileInternal_loop md5hex fuel source target fh 1 target w
    = Normal (candidate target n) w.
Proof.
  intros Hsmall Hn Hocc Hbefore Hstop [|fuel] Hfuel; [lia|].
  rewrite loop_occupied by done.
  rewrite wrap64_small by lia.
  change (1 + 1) with (Z.of_nat 1 + 1).
  change (renameFile target 1) with (candidate target 1).
  apply (loop_from source target fh w n) with (j := (n - 1)%nat);
    [lia | exact Hstop | lia | lia |].
  intros i Hi. apply Hbefore. lia.
Qed.

End LoopFacts.

(* ===================================================================== *)
(** * Properties of the collision resolver *)
(* ===================================================================== *)

(** C2 (rename sequence determinism).  [renameFile] cuts the target in
    front of its extension and puts the number, in parentheses, in between:
    [photo.jpg] gives [photo(1).jpg], [photo(2).jpg], ...; every candidate
    is built from the target itself.  When the target is taken by content
    that differs from the source, the loop of [CopyFileInternal] tries the
    candidates 1, 2, 3, ... in this order and returns the first one that is
    free or holds a duplicate of the source; all candidates before it are
    taken by different content.  (The counter is a Go [int]: the file
    system is taken to hold fewer than 2^63 - 3 objects, so that it does
    not wrap.) *)
Theorem rename_sequence_determinism (md5hex : list byte -> string)
    (w : world) (source target : string) (fullHashMode : bool) :
  Z.of_nat (size (files w)) + 3 < 2 ^ 63 ->
  occupied md5hex source target fullHashMode w ->
  (forall idx,
     renameFile target idx
     = stem target +:+ "(" +:+ strconv.Itoa idx +:+ ")" +:+ filepath.Ext target)
  /\ stem target +:+ filepath.Ext target = target
  /\ renameFile "photo.jpg" 1 = "photo(1).jpg"
  /\ renameFile "photo.jpg" 2 = "photo(2).jpg"
  /\ exists n : nat,
       (1 <= n)%nat
       /\ (forall i, (1 <= i < n)%nat ->
             occupied md5hex source (renameFile target (Z.of_nat i))
               fullHashMode w)
       /\ (duplicate md5hex source (renameFile target (Z.of_nat n))
             fullHashMode w
           \/ free (renameFile target (Z.of_nat n)) w)
       /\ forall fuel, (n < fuel)%nat ->
            CopyFileInternal_loop md5hex fuel source target fullHashMode
              1 target w
            = Normal (renameFile target (Z.of_nat n)) w.
Proof.
  intros Hsmall Hocc.
  split; [reflexivity|]. split; [apply stem_Ext|].
  split; [reflexivity|]. split; [reflexivity|].
  destruct Hocc as [Hex Hdiff].
  destruct (hasSameContent_Normal _ _ _ _ _ _ _ Hdiff) as (_ & Hsrc & _).
  destruct (first_stop md5hex source target fullHashMode w Hsrc)
    as (n & Hn & Hbefore & Hstop).
  exists n. split; [lia|]. split; [exact Hbefore|]. split; [exact Hstop|].
  intros [|fuel] Hfuel; [lia|].
  rewrite loop_occupied by (by split).
  rewrite wrap64_small by lia.
  change (1 + 1) with (Z.of_nat 1 + 1).
  change (renameFile target 1) with (candidate target 1).
  change (renameFile target (Z.of_nat n)) with (candidate target n).
  apply (loop_from md5hex source target fullHashMode w n)
    with (j := (n - 1)%nat); [lia | exact Hstop | lia | lia |].
  intros i Hi. apply Hbefore. lia.
Qed.

Lemma rename_sequence_determinism_witness :
  exists n : nat,
    (1 <= n)%nat
    /\ forall fuel, (n < fuel)%nat ->
         CopyFileInternal_loop sample_digest fuel "src/photo.jpg"
           "dst/photo.jpg" false 1 "dst/photo.jpg" photo_world
         = Normal (renameFile "dst/photo.jpg" (Z.of_nat n)) photo_world.
Proof.
  destruct (rename_sequence_determinism sample_digest photo_world
              "src/photo.jpg" "dst/photo.jpg" false)
    as (_ & _ & _ & _ & n & Hn & _ & _ & Hrun).
  - vm_compute. reflexivity.
  - split; [vm_compute; discriminate | vm_compute; reflexivity].
  - exists n. split; [exact Hn | exact Hrun].
Defined.

(* ===================================================================== *)
(** * Properties of the content comparator *)
(* ===================================================================== *)

Section ComparatorFacts.

Variable md5hex : list byte -> string.

(** A failed [os.Stat] on either side ends the comparison in a panic. *)
Lemma hasSameContent_stat_failure (source target : string) (fh : bool)
    (w : world) :
  (exists e, os.Stat source w = Err e) \/ (exists e, os.Stat target w = Err e) ->
  hasSameContent md5hex source target fh w = Panic nil_dereference.
Proof.
  unfold hasSameContent. intros [[e ->] | [e ->]]; [done|].
  by destruct (os.Stat source w).
Qed.

(** When both files can be examined the answer is: equal sizes, equal
    digests, neither digest empty. *)
Lemma hasSameContent_examined (source target : string) (fh : bool)
    (w : world) (a b : FileInfo) :
  os.Stat source w = Ok a -> os.Stat target w = Ok b ->
  hasSameContent md5hex source target fh w
  = Normal ((Size a =? Size b)
            && String.eqb (digest_of md5hex fh (Size a) source w)
                 (digest_of md5hex fh (Size b) target w)
            && negb (len (digest_of md5hex fh (Size a) source w) =? 0)
            && negb (len (digest_of md5hex fh (Size b) target w) =? 0)) w.
Proof.
  intros Ha Hb. unfold hasSameContent, digest_of. rewrite Ha, Hb.
  destruct (Size a =? Size b) eqn:E; simpl; [|done].
  apply Z.eqb_eq in E. rewrite <- E.
  by destruct (negb fh && (500 * 1024 <? Size a)).
Qed.

(** A digest that could not be computed never compares equal. *)
Lemma hasSameContent_empty_digest (source target : string) (fh : bool)
    (w w' : world) (a b : FileInfo) (r : bool) :
  os.Stat source w = Ok a -> os.Stat target w = Ok b ->
  digest_of md5hex fh (Size a) source w = ""
  \/ digest_of md5hex fh (Size b) target w = "" ->
  hasSameContent md5hex source target fh w = Normal r w' -> r = false.
Proof.
  intros Ha Hb Hempty. rewrite (hasSameContent_examined _ _ _ _ a b) by done.
  intros [= <- _].
  destruct Hempty as [-> | ->]; simpl;
    rewrite ?andb_false_r; done.
Qed.

End ComparatorFacts.

Lemma hasSameContent_empty_digest_witness :
  hasSameContent sample_digest "src/photo.jpg" "src/photo.jpg" true
    unreadable_world = Normal false unreadable_world.
Proof.
  destruct (hasSameContent sample_digest "src/photo.jpg" "src/photo.jpg" true
              unreadable_world) as [r w'| |] eqn:Hrun;
    [|vm_compute in Hrun; discriminate Hrun..].
  destruct (hasSameContent_Normal _ _ _ _ _ _ _ Hrun) as (-> & _).
  f_equal.
  apply (hasSameContent_empty_digest sample_digest "src/photo.jpg"
           "src/photo.jpg" true unreadable_world unreadable_world
           (info_of (RegFile (bytes "abc") 420 7))
           (info_of (RegFile (bytes "abc") 420 7)) r);
    [vm_compute; reflexivity | vm_compute; reflexivity
    | left; vm_compute; reflexivity | exact Hrun].
Defined.

(** C3 (ambiguous reads).  The comparator is meant to answer "not
    identical" when a file cannot be examined.  It does so when a digest
    cannot be computed ([hasSameContent_empty_digest]), but not when
    [os.Stat] fails: the error is dropped, the nil [FileInfo] is asked for
    its size, and the call panics instead of returning false.  Here the
    source does not exist (first run) or the target does not (second). *)
Theorem hasSameContent_stat_failure_panics :
  hasSameContent sample_digest "src/missing.jpg" "dst/photo.jpg" false
    photo_world = Panic nil_dereference
  /\ hasSameContent sample_digest "src/photo.jpg" "dst/missing.jpg" true
       photo_world = Panic nil_dereference
  /\ returned (hasSameContent sample_digest "src/missing.jpg" "dst/photo.jpg"
                 false photo_world) <> Some false.
Proof. repeat split; vm_compute; done. Qed.

(* ===================================================================== *)
(** * Properties of the single-entry transfer *)
(* ===================================================================== *)

Lemma Close_frame (f : File) (w w' : world) (r : option error) :
  os.Close f w = Normal r w' -> w' = w.
Proof.
  unfold os.Close, sys_error, ret.
  destruct (close_fails (env w) (fd f)); by intros [= _ <-].
Qed.

(** Whatever happens inside, [doCopyOrMove] reports success. *)
Lemma doCopyOrMove_returns_nil (source target : string) (moveMode : bool)
    (w w' : world) (r : option error) :
  doCopyOrMove source target moveMode w = Normal r w' -> r = None.
Proof.
  unfold doCopyOrMove. unfold_M. destruct moveMode.
  - destruct (os.Rename source target w); [|done..].
    simpl. by intros [= <- _].
  - destruct (doCopy source target w); [|done..].
    simpl. by intros [= <- _].
Qed.

(** [doCopy] itself does return an error that shows after the target has
    been created, be it at a write or at close. *)
Lemma doCopy_surfaces (source target : string) (w w1 w2 : world)
    (fileinfo : FileInfo) (sourceFile targetFile : File) (written : Z)
    (failed : option error) (err : error) :
  os.Stat source w = Ok fileinfo ->
  os.Open source w = Ok sourceFile ->
  os.Create target w = Normal (Ok targetFile) w1 ->
  io.Copy targetFile sourceFile w1 = Normal (written, failed) w2 ->
  failed = Some err
  \/ (failed = None /\ os.Close targetFile w2 = Normal (Some err) w2) ->
  doCopy source target w = Normal (Some err) w2.
Proof.
  intros Hstat Hopen Hcreate Hcopy Hfail. unfold doCopy. unfold_M.
  rewrite Hstat, Hopen, Hcreate, Hcopy. cbn [snd].
  destruct Hfail as [-> | [-> Hclose]].
  - destruct (os.Close targetFile w2) as [c w3| |] eqn:Hclose; [|
      unfold os.Close, sys_error, ret in Hclose;
      by destruct (close_fails (env w2) (fd targetFile))..].
    apply Close_frame in Hclose as ->. done.
  - by rewrite Hclose.
Qed.

Lemma doCopy_surfaces_witness :
  exists w',
    doCopy "src/photo.jpg" "dst/new.jpg" full_disk_world
    = Normal (Some (SysError ENOSPC)) w'.
Proof.
  eexists.
  eapply (doCopy_surfaces "src/photo.jpg" "dst/new.jpg" full_disk_world);
    [vm_compute; reflexivity | vm_compute; reflexivity
    | vm_compute; reflexivity | vm_compute; reflexivity
    | left; reflexivity].
Defined.

(** C4 (failures of a copy are surfaced).  On a device that accepts one
    byte only, copying the three bytes of [/src/photo.jpg] fails after the
    target has been created: [doCopy] returns the write error and leaves
    the partial target behind, but [doCopyOrMove] drops that result and
    returns nil.  The same happens when the error shows at close. *)
Theorem copy_failure_not_surfaced :
  returned (doCopy "src/photo.jpg" "dst/new.jpg" full_disk_world)
  = Some (Some (SysError ENOSPC))
  /\ (exists w', final (doCopy "src/photo.jpg" "dst/new.jpg" full_disk_world)
                 = Some w'
                 /\ contents w' ["dst"; "new.jpg"] = Some (bytes "a"))
  /\ returned (doCopyOrMove "src/photo.jpg" "dst/new.jpg" false
                 full_disk_world)
     = Some None
  /\ returned (doCopy "src/photo.jpg" "dst/new.jpg" failing_close_world)
     = Some (Some (SysError EIO))
  /\ returned (doCopyOrMove "src/photo.jpg" "dst/new.jpg" false
                 failing_close_world)
     = Some None.
Proof.
  split; [vm_compute; reflexivity|].
  split; [|repeat split; vm_compute; reflexivity].
  eexists. split; [vm_compute; reflexivity|]. vm_compute. reflexivity.
Qed.

(* ===================================================================== *)
(** * Properties of the sampled digest *)
(* ===================================================================== *)

Section SamplingFacts.

Variable md5hex : list byte -> string.

Lemma blockSize_value : blockSize = 51200.
Proof. reflexivity. Qed.

(** Without overflow the offsets are the ones of the formula. *)
Lemma blockOffsets_exact (filesize : Z) :
  blockSize <= filesize -> filesize - blockSize < 2 ^ 62 ->
  blockOffsets filesize
  = [0; (filesize - blockSize) / 3; 2 * (filesize - blockSize) / 3;
     filesize - blockSize].
Proof.
  intros Hlo Hhi. unfold blockOffsets, go_div.
  rewrite !(wrap64_small (filesize - blockSize)) by lia.
  rewrite (wrap64_small (2 * (filesize - blockSize))) by lia.
  rewrite !Z.quot_div_nonneg by lia. done.
Qed.

Lemma blockOffsets_ordered (filesize : Z) :
  blockSize <= filesize ->
  0 <= (filesize - blockSize) / 3
  /\ (filesize - blockSize) / 3 <= 2 * (filesize - blockSize) / 3
  /\ 2 * (filesize - blockSize) / 3 <= filesize - blockSize.
Proof.
  intros H. split; [apply Z.div_pos; lia|]. split.
  - apply Z.div_le_mono; lia.
  - apply Z.div_le_upper_bound; lia.
Qed.

Lemma window_length (data : list byte) (offset : Z) :
  0 <= offset -> offset + blockSize <= Z.of_nat (length data) ->
  Z.of_nat (length (window data offset)) = blockSize.
Proof.
  intros H0 H1. unfold window. rewrite length_take, length_drop.
  rewrite blockSize_value in *. lia.
Qed.

(** One turn of the loop appends the block at the offset it seeks to. *)
Lemma hash_block_window (w : world) (h : list byte) (f : File)
    (data : list byte) (offset : Z) :
  contents w (fd f) = Some data -> 0 <= offset ->
  exists p, hash_block w (h, f) offset
            = (h ++ window data offset, mkFile (fd f) p).
Proof.
  intros Hc Hoff. unfold hash_block, os.Seek, io.CopyN_hash.
  assert ((offset <? 0) = false) as -> by lia.
  cbn [fst snd fd pos]. rewrite Hc. eauto.
Qed.

(** The whole loop appends the blocks in the order of the offsets. *)
Lemma hash_blocks_windows (w : world) (data : list byte) (offsets : list Z) :
  Forall (fun o => 0 <= o) offsets ->
  forall (h : list byte) (f : File),
    contents w (fd f) = Some data ->
    exists p, fold_left (hash_block w) offsets (h, f)
              = (h ++ concat (map (window data) offsets), mkFile (fd f) p).
Proof.
  induction 1 as [|o offsets Ho _ IH]; intros h f Hc.
  - exists (pos f). cbn [fold_left map concat]. rewrite app_nil_r.
    by destruct f.
  - cbn [fold_left map concat].
    destruct (hash_block_window w h f data o Hc Ho) as [p ->].
    destruct (IH (h ++ window data o) (mkFile (fd f) p) Hc) as [p' ->].
    exists p'. by rewrite <- app_assoc.
Qed.

(** The sampled digest of a readable regular file whose size is passed
    in: the four blocks, in order, through one digest. *)
Lemma getParticalHash_windows (w : world) (p : string) (k : list string)
    (data : list byte) (mode mtime : Z) :
  locate w p = Some k -> files w !! k = Some (RegFile data mode mtime) ->
  open_denied (env w) k = false ->
  let size := Z.of_nat (length data) in
  blockSize <= size -> size - blockSize < 2 ^ 62 ->
  getParticalHash md5hex p size w
  = md5hex (window data 0
            ++ window data ((size - blockSize) / 3)
            ++ window data (2 * (size - blockSize) / 3)
            ++ window data (size - blockSize)).
Proof.
  intros Hk Hf Hopen size Hlo Hhi.
  destruct (blockOffsets_ordered size Hlo) as (H1 & H2 & H3).
  unfold getParticalHash, os.Open. rewrite Hk, Hf, Hopen.
  rewrite blockOffsets_exact by done.
  assert (contents w k = Some data) as Hc by (unfold contents; by rewrite Hf).
  destruct (hash_blocks_windows w data
              [0; (size - blockSize) / 3; 2 * (size - blockSize) / 3;
               size - blockSize]) with (h := @nil byte) (f := mkFile k 0)
    as [p' ->]; [|done|].
  - repeat constructor; lia.
  - cbn [fst map concat]. by rewrite app_nil_r, app_nil_l.
Qed.

(** The full digest of a readable regular file is the digest of all its
    bytes. *)
Lemma getFullHash_all (w : world) (p : string) (k : list string)
    (data : list byte) (mode mtime : Z) :
  locate w p = Some k -> files w !! k = Some (RegFile data mode mtime) ->
  open_denied (env w) k = false ->
  getFullHash md5hex p w = md5hex data.
Proof.
  intros Hk Hf Hopen. unfold getFullHash, os.Open, io.Copy_hash, contents.
  rewrite Hk, Hf, Hopen. cbn [fd pos fst]. rewrite Hf. done.
Qed.

End SamplingFacts.

(** C5 (strategy selection and sampling), as it holds.  For two regular
    files of the same size, [hasSameContent] compares sampled digests
    exactly when [fullHashMode] is off and the size exceeds 500 KiB, and
    full-file digests otherwise.  The full digest of a file that can be
    opened is the digest of all its bytes.  When size - 50 KiB is below
    2^62, so that the doubling in the third offset stays within [int64],
    the sampled digest of a file that can be opened is one digest over the
    four 50 KiB blocks at offsets 0, (size-50KiB)/3, 2(size-50KiB)/3 and
    size-50KiB, in this order; above 500 KiB these offsets do not decrease
    and every block lies within the file. *)
Theorem comparator_strategy_and_sampling (md5hex : list byte -> string)
    (w : world) (source target : string) (fullHashMode : bool)
    (ks kt : list string) (ds dt : list byte) (ms ts mt tt : Z) :
  locate w source = Some ks -> files w !! ks = Some (RegFile ds ms ts) ->
  locate w target = Some kt -> files w !! kt = Some (RegFile dt mt tt) ->
  length ds = length dt ->
  let size := Z.of_nat (length ds) in
  let o1 := (size - blockSize) / 3 in
  let o2 := 2 * (size - blockSize) / 3 in
  let o3 := size - blockSize in
  let sampled := fun d : list byte =>
    md5hex (window d 0 ++ window d o1 ++ window d o2 ++ window d o3) in
  (fullHashMode = false /\ 500 * 1024 < size ->
   hasSameContent md5hex source target fullHashMode w
   = Normal (digests_agree (getParticalHash md5hex source size w)
               (getParticalHash md5hex target size w)) w)
  /\ (~ (fullHashMode = false /\ 500 * 1024 < size) ->
      hasSameContent md5hex source target fullHashMode w
      = Normal (digests_agree (getFullHash md5hex source w)
                  (getFullHash md5hex target w)) w)
  /\ (open_denied (env w) ks = false ->
      getFullHash md5hex source w = md5hex ds)
  /\ (open_denied (env w) kt = false ->
      getFullHash md5hex target w = md5hex dt)
  /\ (500 * 1024 < size -> size - blockSize < 2 ^ 62 ->
      (open_denied (env w) ks = false ->
       getParticalHash md5hex source size w = sampled ds)
      /\ (open_denied (env w) kt = false ->
          getParticalHash md5hex target size w = sampled dt)
      /\ blockOffsets size = [0; o1; o2; o3]
      /\ 0 <= o1 /\ o1 <= o2 /\ o2 <= o3
      /\ Forall (fun o => 0 <= o /\ o + blockSize <= size
                          /\ Z.of_nat (length (window ds o)) = blockSize
                          /\ Z.of_nat (length (window dt o)) = blockSize)
           [0; o1; o2; o3]).
Proof.
  intros Hks Hfs Hkt Hft Hlen size o1 o2 o3 sampled.
  assert (os.Stat source w = Ok (info_of (RegFile ds ms ts))) as Hss.
  { unfold os.Stat. by rewrite Hks, Hfs. }
  assert (os.Stat target w = Ok (info_of (RegFile dt mt tt))) as Hst.
  { unfold os.Stat. by rewrite Hkt, Hft. }
  pose proof (hasSameContent_examined md5hex source target fullHashMode w
                _ _ Hss Hst) as Hrun.
  cbn [info_of Size] in Hrun. rewrite <- Hlen in Hrun. fold size in Hrun.
  rewrite Z.eqb_refl in Hrun. cbn [andb] in Hrun.
  assert (blockSize = 51200) as Hbs by reflexivity.
  split; [|split; [|split; [|split]]].
  - intros [-> Hbig]. rewrite Hrun. unfold digest_of.
    assert ((500 * 1024 <? size) = true) as -> by lia. done.
  - intros Hnot. rewrite Hrun. unfold digest_of.
    assert (negb fullHashMode && (500 * 1024 <? size) = false) as ->; [|done].
    destruct fullHashMode; [done|]. cbn [negb andb].
    apply Z.ltb_ge. destruct (decide (500 * 1024 < size)); [|lia].
    exfalso. by apply Hnot.
  - intros Hopen. by apply (getFullHash_all md5hex w source ks ds ms ts).
  - intros Hopen. by apply (getFullHash_all md5hex w target kt dt mt tt).
  - intros Hbig Hhi.
    destruct (blockOffsets_ordered size) as (H1 & H2 & H3); [lia|].
    split; [|split].
    + intros Hopen.
      apply (getParticalHash_windows md5hex w source ks ds ms ts);
        done || lia.
    + intros Hopen. subst sampled o1 o2 o3 size. rewrite Hlen in *.
      apply (getParticalHash_windows md5hex w target kt dt mt tt);
        done || lia.
    + split; [apply blockOffsets_exact; lia|].
      split; [done|]. split; [done|]. split; [done|].
      repeat constructor; try (subst o1 o2 o3; lia);
        apply window_length; subst o1 o2 o3 size; lia.
Qed.

Lemma big_data_length (last : byte) :
  Z.of_nat (length (big_data last)) = 600000.
Proof.
  unfold big_data. rewrite length_app, repeat_length. cbn [length]. lia.
Qed.

Lemma comparator_strategy_and_sampling_witness :
  let sampled := fun d : list byte =>
    sample_digest (window d 0 ++ window d 182933 ++ window d 365866
                   ++ window d 548800) in
  hasSameContent sample_digest "a.raw" "b.raw" false big_world
  = Normal (digests_agree (sampled (big_data x01)) (sampled (big_data x02)))
      big_world
  /\ hasSameContent sample_digest "a.raw" "b.raw" true big_world
     = Normal (digests_agree (sample_digest (big_data x01))
                 (sample_digest (big_data x02))) big_world
  /\ blockOffsets 600000 = [0; 182933; 365866; 548800].
Proof.
  assert (length (big_data x01) = length (big_data x02)) as Hlen.
  { apply Nat2Z.inj. by rewrite !big_data_length. }
  pose proof (big_data_length x01) as Hsize.
  destruct (comparator_strategy_and_sampling sample_digest big_world
              "a.raw" "b.raw" false ["a.raw"] ["b.raw"]
              (big_data x01) (big_data x02) 420 1 420 2)
    as (Hsampled & _ & _ & _ & Hwindows);
    [reflexivity | reflexivity | reflexivity | reflexivity | exact Hlen |].
  destruct (comparator_strategy_and_sampling sample_digest big_world
              "a.raw" "b.raw" true ["a.raw"] ["b.raw"]
              (big_data x01) (big_data x02) 420 1 420 2)
    as (_ & Hfull & Hfs & Hft & _);
    [reflexivity | reflexivity | reflexivity | reflexivity | exact Hlen |].
  rewrite Hsize in Hsampled, Hwindows.
  destruct Hwindows as (Hws & Hwt & Hoff & _); [lia | by vm_compute |].
  intros sampled. split; [|split].
  - rewrite Hsampled by (split; [done | lia]).
    by rewrite Hws, Hwt.
  - rewrite Hfull by (by intros [[=] _]). by rewrite Hfs, Hft.
  - exact Hoff.
Defined.

(** C5, as stated, fails for a file of 2^62 + 50 KiB bytes: doubling
    size - 50 KiB wraps around, the third offset the code computes is
    negative (the seek to it is refused), and the offsets are not in
    order. *)
Lemma sampling_offsets_wrap_around :
  500 * 1024 < 2 ^ 62 + 51200
  /\ blockOffsets (2 ^ 62 + 51200)
     = [0; 1537228672809129301; -3074457345618258602; 4611686018427387904]
  /\ ~ (exists o1 o2 o3,
          blockOffsets (2 ^ 62 + 51200) = [0; o1; o2; o3]
          /\ o2 = 2 * (2 ^ 62 + 51200 - blockSize) / 3
          /\ 0 <= o1 <= o2 /\ o2 <= o3)
  /\ (os.Seek (mkFile ["f"] 1537228672809180501) (-3074457345618258602)).1
     = mkFile ["f"] 1537228672809180501.
Proof.
  split; [done|]. split; [vm_compute; reflexivity|].
  split; [|vm_compute; reflexivity].
  intros (o1 & o2 & o3 & Hoff & _ & Horder & _).
  vm_compute in Hoff. injection Hoff as <- <- <-. lia.
Qed.

(* ===================================================================== *)
(** * Properties of a move *)
(* ===================================================================== *)

Section RenameSyscall.

(** [os.Rename] either fails and leaves the state as it was, or succeeds
    and the object that was at the old path is at the new one. *)
Lemma Rename_cases (oldpath newpath : string) (w : world) :
  (exists e, os.Rename oldpath newpath w = Normal (Some e) w)
  \/ (exists o n nd w',
        os.Rename oldpath newpath w = Normal None w'
        /\ locate w oldpath = Some o /\ locate w newpath = Some n
        /\ files w !! o = Some nd /\ files w' !! n = Some nd
        /\ cwd w' = cwd w /\ stdout w' = stdout w /\ env w' = env w).
Proof.
  unfold os.Rename, sys_error, ret.
  destruct (locate w oldpath) as [o|]; [|eauto].
  destruct (locate w newpath) as [n|]; [|eauto].
  destruct (files w !! o) as [nd|] eqn:Ho; [|eauto].
  destruct (rename_fails (env w) o n); [eauto|].
  case_bool_decide as Hon.
  { subst n. right. exists o, o, nd, w. by rewrite Ho. }
  case_bool_decide; [eauto|].
  destruct (negb (is_dir (files w) (parent n))); [eauto|].
  destruct (os.can_replace nd (files w) n); [|eauto].
  right. exists o, n, nd. eexists. split; [done|].
  repeat split; try done. unfold os.moved. cbn [files with_files].
  apply lookup_insert_eq.
Qed.

End RenameSyscall.

(** C7 (move), as it holds.  A move-mode transfer is one [os.Rename] and
    the progress line, nothing else: there is no fallback.  When the
    rename succeeds the object of the source is at the target; when it
    fails, nothing is copied and nothing is deleted, the file system is as
    it was.  Either way the content of the source is kept. *)
Theorem move_is_rename_only (w : world) (source target : string)
    (ko : list string) (nd : node) :
  locate w source = Some ko -> files w !! ko = Some nd ->
  exists r w',
    doCopyOrMove source target true w = Normal r w'
    /\ stdout w' = stdout w ++ [line_moved source target]
    /\ ((exists kn, returned (os.Rename source target w) = Some None
                    /\ locate w target = Some kn
                    /\ files w' !! kn = Some nd)
        \/ (exists e, returned (os.Rename source target w) = Some (Some e)
                      /\ files w' = files w)).
Proof.
  intros Hko Hnd. unfold doCopyOrMove. unfold_M.
  destruct (Rename_cases source target w)
    as [[e He] | (o & n & nd' & w1 & Hrun & Ho & Hn & Hnd' & Hmoved & _ & Hout & _)].
  - rewrite He. cbn. eexists _, _. split; [done|]. split; [done|].
    right. exists e. done.
  - rewrite Hrun. cbn. eexists _, _. split; [done|].
    split; [cbn [stdout with_line]; by rewrite Hout|]. left. exists n.
    rewrite Hko in Ho. injection Ho as <-.
    rewrite Hnd in Hnd'. injection Hnd' as <-. done.
Qed.

Lemma move_is_rename_only_witness :
  exists r w',
    doCopyOrMove "src/photo.jpg" "dst/new.jpg" true photo_world = Normal r w'
    /\ files w' !! ["dst"; "new.jpg"] = Some (RegFile (bytes "abc") 420 7).
Proof.
  destruct (move_is_rename_only photo_world "src/photo.jpg" "dst/new.jpg"
              ["src"; "photo.jpg"] (RegFile (bytes "abc") 420 7))
    as (r & w' & Hrun & _ & [(kn & _ & Hkn & Hat) | (e & He & _)]).
  - vm_compute. reflexivity.
  - vm_compute. reflexivity.
  - exists r, w'. split; [exact Hrun|].
    vm_compute in Hkn. injection Hkn as <-. exact Hat.
  - vm_compute in He. discriminate He.
Defined.

(** C7, as stated, fails: with [/src] and [/dst] on different mount
    points the rename is refused, and the move then neither copies the
    bytes of the source to the target nor deletes the source. *)
Lemma move_has_no_fallback :
  returned (os.Rename "src/photo.jpg" "dst/new.jpg" two_mounts_world)
  = Some (Some (SysError EXDEV))
  /\ ~ (exists w',
          final (doCopyOrMove "src/photo.jpg" "dst/new.jpg" true
                   two_mounts_world) = Some w'
          /\ contents w' ["dst"; "new.jpg"] = Some (bytes "abc")
          /\ IsFileExist "src/photo.jpg" w' = FileExistStatus_NotExist).
Proof.
  split; [vm_compute; reflexivity|].
  intros (w' & Hfinal & Htarget & _).
  vm_compute in Hfinal. injection Hfinal as <-.
  vm_compute in Htarget. discriminate Htarget.
Qed.

(* ===================================================================== *)
(** * Properties of the tree copier *)
(* ===================================================================== *)

Section SortFacts.

(** A path sorts strictly after each of its proper prefixes. *)
Lemma extension_not_le (p : string) (c : ascii) (r : string) :
  ~ String.le (p +:+ String c r) p.
Proof.
  unfold String.le, String.leb.
  assert (String.compare (p +:+ String c r) p = Gt) as ->; [|simpl; tauto].
  induction p as [|x p IH]; [done|].
  rewrite string_app_cons. simpl.
  assert (Ascii.compare x x = Eq) as ->; [|done].
  unfold Ascii.compare. apply N.compare_refl.
Qed.

Lemma StronglySorted_lookup {A} (R : relation A) (l : list A) (i j : nat)
    (a b : A) :
  StronglySorted R l -> (i < j)%nat ->
  l !! i = Some a -> l !! j = Some b -> R a b.
Proof.
  intros Hs Hij Hi Hj. rewrite <- (take_drop (S i) l) in Hs.
  apply (StronglySorted_app_1_elem_of R _ _ a b Hs).
  - apply list_elem_of_lookup. exists i. rewrite lookup_take_lt by lia. done.
  - apply list_elem_of_lookup. exists (j - S i)%nat.
    rewrite lookup_drop. by replace (S i + (j - S i))%nat with j by lia.
Qed.

Lemma Reverse_StringSlice_sorted (l : list string) :
  StronglySorted (fun a b => String.le b a) (sort.Reverse_StringSlice l).
Proof.
  unfold sort.Reverse_StringSlice.
  assert (Transitive (fun a b : string => String.le b a)) as Htrans.
  { intros a b c Hab Hbc. by etrans. }
  assert (Total (fun a b : string => String.le b a)) as Htotal.
  { intros a b. destruct (total String.le a b); auto. }
  apply StronglySorted_merge_sort; done.
Qed.

Lemma removeEach_app (l1 l2 : list string) (w : world) :
  removeEach (l1 ++ l2) w = (removeEach l1;; removeEach l2) w.
Proof.
  revert w. induction l1 as [|d l1 IH]; intros w; [done|].
  cbn [app removeEach]. unfold_M.
  destruct (os.Remove d w) as [r w1| |]; [|done..].
  rewrite IH. done.
Qed.

End SortFacts.

(** C9 (deepest first).  The removal pass of a move walks the recorded
    directories in descending byte order.  That order holds the same
    directories as were recorded, and a directory [parent/rest] stands in
    it before [parent], wherever the two were recorded: the pass calls
    [os.Remove] on the child, and only later on the parent. *)
Theorem deepest_first_removal (dirList : list string)
    (parent child rest : string) (i j : nat) :
  child = parent +:+ "/" +:+ rest ->
  sort.Reverse_StringSlice dirList !! i = Some parent ->
  sort.Reverse_StringSlice dirList !! j = Some child ->
  sort.Reverse_StringSlice dirList ≡ₚ dirList
  /\ (j < i)%nat
  /\ exists l1 l2 l3,
       sort.Reverse_StringSlice dirList = l1 ++ child :: l2 ++ parent :: l3
       /\ forall w,
            removeEach (sort.Reverse_StringSlice dirList) w
            = (removeEach l1;; os.Remove child;; removeEach l2;;
               os.Remove parent;; removeEach l3) w.
Proof.
  intros -> Hi Hj.
  pose proof (Reverse_StringSlice_sorted dirList) as Hs.
  split; [apply merge_sort_Permutation|].
  assert (j < i)%nat as Hji.
  { destruct (decide (j < i)%nat) as [|Hge]; [done|]. exfalso.
    destruct (decide (i = j)) as [->|Hne].
    - rewrite Hi in Hj. injection Hj as Hj.
      apply (f_equal String.length) in Hj.
      rewrite string_length_app in Hj. simpl in Hj. lia.
    - apply (extension_not_le parent "/" rest).
      apply (StronglySorted_lookup _ _ i j _ _ Hs); [lia | done | done]. }
  split; [done|].
  set (order := sort.Reverse_StringSlice dirList) in *.
  exists (take j order), (take (i - S j) (drop (S j) order)),
         (drop (S i) order).
  assert (order = take j order ++ (parent +:+ "/" +:+ rest)
                    :: take (i - S j) (drop (S j) order)
                    ++ parent :: drop (S i) order) as Hsplit.
  { rewrite <- (take_drop_middle order j _ Hj) at 1. do 2 f_equal.
    assert (drop (S j) order !! (i - S j)%nat = Some parent) as Hi'.
    { rewrite lookup_drop. by replace (S j + (i - S j))%nat with i by lia. }
    rewrite <- (take_drop_middle _ _ _ Hi') at 1. do 2 f_equal.
    rewrite drop_drop. f_equal. lia. }
  split; [exact Hsplit|]. intros w. rewrite Hsplit at 1.
  rewrite removeEach_app. unfold_M.
  destruct (removeEach (take j order) w) as [[] w1| |]; [|done..].
  cbn [removeEach]. unfold_M.
  destruct (os.Remove (parent +:+ "/" +:+ rest) w1) as [r w2| |]; [|done..].
  rewrite removeEach_app. unfold_M.
  destruct (removeEach (take (i - S j) (drop (S j) order)) w2)
    as [[] w3| |]; done.
Qed.

Lemma deepest_first_removal_witness :
  sort.Reverse_StringSlice ["/s/a"; "/s/a/b"; "/s/c"; "/s/a/b/d"] !! 2%nat
  = Some "/s/a/b"
  /\ sort.Reverse_StringSlice ["/s/a"; "/s/a/b"; "/s/c"; "/s/a/b/d"] !! 3%nat
     = Some "/s/a"
  /\ (2 < 3)%nat.
Proof.
  destruct (deepest_first_removal ["/s/a"; "/s/a/b"; "/s/c"; "/s/a/b/d"]
              "/s/a" "/s/a/b" "b" 3 2) as (_ & Hlt & _).
  - reflexivity.
  - vm_compute. reflexivity.
  - vm_compute. reflexivity.
  - split; [vm_compute; reflexivity|].
    split; [vm_compute; reflexivity | exact Hlt].
Defined.

Section PreconditionFacts.

(** The two error texts of [CopyDirectory] never coincide: one holds two
    more percent signs than the other. *)
Lemma identical_text_distinct (source target : string) :
  identical_text source target <> invalid_target_text target.
Proof.
  intros H. apply (f_equal (count_char "%")) in H.
  unfold identical_text, invalid_target_text, fmt.Sprint in H.
  cbn [fold_right] in H. rewrite !count_char_app in H.
  simpl in H. lia.
Qed.

Variable walkAndWork :
  Z -> string -> string -> bool -> bool -> bool -> M (list string).

Lemma proceed_no_error (source target : string) (mv fh rec : bool)
    (w w' : world) (e : error) :
  proceed walkAndWork source target mv fh rec w <> Normal (Some e) w'.
Proof.
  unfold proceed. unfold_M.
  destruct (walkAndWork _ source target mv fh rec w) as [l w1| |]; [|done..].
  destruct mv; [|done].
  by destruct (removeEach (sort.Reverse_StringSlice l) w1).
Qed.

Lemma CopyDirectory_identical (source : string) (mv fh rec : bool)
    (w : world) :
  CopyDirectory walkAndWork source source mv fh rec w
  = Normal (Some (errors.New (identical_text source source))) w.
Proof. unfold CopyDirectory. by rewrite String.eqb_refl. Qed.

Lemma CopyDirectory_invalid_target (source target : string) (mv fh rec : bool)
    (w : world) :
  source <> target ->
  IsFileExist target w <> FileExistStatus_Directory ->
  CopyDirectory walkAndWork source target mv fh rec w
  = Normal (Some (errors.New (invalid_target_text target))) w.
Proof.
  intros Hne Hst. unfold CopyDirectory.
  rewrite (proj2 (String.eqb_neq source target) Hne). unfold_M.
  by rewrite bool_decide_eq_true_2.
Qed.

Lemma CopyDirectory_proceeds (source target : string) (mv fh rec : bool)
    (w : world) :
  source <> target ->
  IsFileExist target w = FileExistStatus_Directory ->
  CopyDirectory walkAndWork source target mv fh rec w
  = proceed walkAndWork source target mv fh rec w.
Proof.
  intros Hne Hst. unfold CopyDirectory.
  rewrite (proj2 (String.eqb_neq source target) Hne). unfold_M.
  rewrite bool_decide_eq_false_2 by (by rewrite Hst; intros []). done.
Qed.

End PreconditionFacts.

(** C8 (preconditions abort before any work).  When source and target are
    the same string, or the target is not an existing directory,
    [CopyDirectory] returns an error in the very state it was called in:
    nothing was created, transferred or printed, and the workers and the
    walk were never started, whatever they would have done.  When both
    checks pass, the call is the run of the workers and the walk followed
    by the removal pass, and what it returns is not an error. *)
Theorem tree_copy_preconditions
    (walkAndWork : Z -> string -> string -> bool -> bool -> bool
                   -> M (list string))
    (source target : string) (moveMode fullHashMode recursiveMode : bool)
    (w : world) :
  (source = target \/ IsFileExist target w <> FileExistStatus_Directory ->
   exists e,
     CopyDirectory walkAndWork source target moveMode fullHashMode
       recursiveMode w = Normal (Some e) w
     /\ e = errors.New (if String.eqb source target
                        then identical_text source target
                        else invalid_target_text target))
  /\ (source <> target ->
      IsFileExist target w = FileExistStatus_Directory ->
      CopyDirectory walkAndWork source target moveMode fullHashMode
        recursiveMode w
      = proceed walkAndWork source target moveMode fullHashMode
          recursiveMode w
      /\ forall e w',
           CopyDirectory walkAndWork source target moveMode fullHashMode
             recursiveMode w <> Normal (Some e) w').
Proof.
  split.
  - intros Hbad. destruct (decide (source = target)) as [->|Hne].
    + eexists. split; [apply CopyDirectory_identical|].
      by rewrite String.eqb_refl.
    + destruct Hbad as [|Hst]; [done|]. eexists.
      split; [by apply CopyDirectory_invalid_target|].
      by rewrite (proj2 (String.eqb_neq source target) Hne).
  - intros Hne Hst. rewrite CopyDirectory_proceeds by done.
    split; [done|]. intros e w'. apply proceed_no_error.
Qed.

Lemma tree_copy_preconditions_witness :
  (exists e,
     CopyDirectory walk_nothing "dir" "note.txt" true false true dir_world
     = Normal (Some e) dir_world
     /\ e = errors.New (invalid_target_text "note.txt"))
  /\ CopyDirectory walk_nothing "dir" "out" true false true dir_world
     = Normal None dir_world.
Proof.
  destruct (tree_copy_preconditions walk_nothing "dir" "note.txt"
              true false true dir_world) as [Hbad _].
  destruct (tree_copy_preconditions walk_nothing "dir" "out"
              true false true dir_world) as [_ Hgood].
  split.
  - apply Hbad. right. vm_compute. discriminate.
  - destruct Hgood as [-> _]; [discriminate | vm_compute; reflexivity|].
    vm_compute. reflexivity.
Defined.

(** C10 (the identity check is textual).  [CopyDirectory] returns the
    "identical" error exactly when its two arguments are the same string.
    [dir] and [dir/] are different strings that name the same directory:
    for them the checks pass and the copy proceeds. *)
Theorem identical_check_is_textual :
  (forall (walkAndWork : Z -> string -> string -> bool -> bool -> bool
                         -> M (list string))
          (source target : string)
          (moveMode fullHashMode recursiveMode : bool) (w : world),
     (exists w',
        CopyDirectory walkAndWork source target moveMode fullHashMode
          recursiveMode w
        = Normal (Some (errors.New (identical_text source target))) w')
     <-> source = target)
  /\ "dir" <> "dir/"
  /\ locate dir_world "dir" = locate dir_world "dir/"
  /\ IsFileExist "dir/" dir_world = FileExistStatus_Directory
  /\ forall (walkAndWork : Z -> string -> string -> bool -> bool -> bool
                           -> M (list string))
            (moveMode fullHashMode recursiveMode : bool),
       CopyDirectory walkAndWork "dir" "dir/" moveMode fullHashMode
         recursiveMode dir_world
       = proceed walkAndWork "dir" "dir/" moveMode fullHashMode
           recursiveMode dir_world.
Proof.
  split; [|split; [done|split; [vm_compute; reflexivity|split]]].
  - intros walk source target mv fh rec w. split.
    + intros [w' Hrun]. destruct (decide (source = target)) as [|Hne]; [done|].
      exfalso.
      destruct (decide (IsFileExist target w = FileExistStatus_Directory))
        as [Hst|Hst].
      * rewrite CopyDirectory_proceeds in Hrun by done.
        by apply proceed_no_error in Hrun.
      * rewrite CopyDirectory_invalid_target in Hrun by done.
        unfold errors.New in Hrun.
        apply (identical_text_distinct source target). congruence.
    + intros ->. exists w. apply CopyDirectory_identical.
  - vm_compute. reflexivity.
  - intros walk mv fh rec. apply CopyDirectory_proceeds; [done|].
    vm_compute. reflexivity.
Qed.

Lemma identical_check_is_textual_witness :
  exists w',
    CopyDirectory walk_nothing "dir" "dir" false false false dir_world
    = Normal (Some (errors.New (identical_text "dir" "dir"))) w'.
Proof.
  destruct identical_check_is_textual as [Hiff _].
  apply (Hiff walk_nothing "dir" "dir" false false false dir_world).
  reflexivity.
Defined.

(* ===================================================================== *)
(** * What a transfer can touch *)
(* ===================================================================== *)

Section FrameFacts.

Lemma same_outside_refl (K : option (list string)) (w : world) :
  same_outside K w w.
Proof. by repeat split. Qed.

Lemma same_outside_trans (K : option (list string)) (w1 w2 w3 : world) :
  same_outside K w1 w2 -> same_outside K w2 w3 -> same_outside K w1 w3.
Proof.
  intros (Hc1 & He1 & Hf1) (Hc2 & He2 & Hf2).
  split; [congruence|]. split; [congruence|].
  intros k Hk. rewrite Hf2, Hf1; done.
Qed.

Lemma same_outside_locate (K : option (list string)) (w w' : world)
    (p : string) :
  same_outside K w w' -> locate w' p = locate w p.
Proof. intros (Hc & _). unfold locate. by rewrite Hc. Qed.

Lemma same_outside_insert (w : world) (k : list string) (n : node) :
  same_outside (Some k) w (with_files w (<[k := n]> (files w))).
Proof.
  repeat split. intros k' Hk'. cbn [files with_files].
  apply lookup_insert_ne. congruence.
Qed.

Lemma Create_frame (name : string) (w w' : world) (r : result File) :
  os.Create name w = Normal r w' ->
  same_outside (locate w name) w w'
  /\ forall f, r = Ok f -> locate w name = Some (fd f).
Proof.
  unfold os.Create, sys_fail, ret.
  destruct (locate w name) as [k|];
    [|intros [= <- <-]; split; [apply same_outside_refl | done]].
  destruct (create_denied (env w) k);
    [intros [= <- <-]; split; [apply same_outside_refl | done]|].
  destruct (files w !! k) as [[d m t | s m t]|].
  - intros [= <- <-]. split; [apply same_outside_insert|].
    by intros f [= <-].
  - intros [= <- <-]; split; [apply same_outside_refl | done].
  - destruct (is_dir (files w) (parent k)); intros [= <- <-].
    + split; [apply same_outside_insert|]. by intros f [= <-].
    + split; [apply same_outside_refl | done].
Qed.

Lemma Copy_frame (dst src : File) (w w' : world) (r : Z * option error) :
  io.Copy dst src w = Normal r w' -> same_outside (Some (fd dst)) w w'.
Proof.
  unfold io.Copy.
  destruct (contents w (fd src)) as [data|];
    [|intros [= _ <-]; apply same_outside_refl].
  destruct (files w !! fd dst) as [[old m t | s m t]|];
    try (intros [= _ <-]; apply same_outside_refl).
  intros [= _ <-]. apply same_outside_insert.
Qed.

Lemma update_frame (name : string) (f : node -> node) (w w' : world)
    (r : option error) :
  os.update name f w = Normal r w' -> same_outside (locate w name) w w'.
Proof.
  unfold os.update, sys_error, ret.
  destruct (locate w name) as [k|];
    [|intros [= _ <-]; apply same_outside_refl].
  destruct (files w !! k) as [n|]; intros [= _ <-];
    [apply same_outside_insert | apply same_outside_refl].
Qed.

(** A copy touches nothing but its target. *)
Lemma doCopy_frame (source target : string) (w w' : world)
    (r : option error) :
  doCopy source target w = Normal r w' ->
  same_outside (locate w target) w w'.
Proof.
  unfold doCopy. unfold_M.
  destruct (os.Stat source w) as [fileinfo|e];
    [|intros [= _ <-]; apply same_outside_refl].
  destruct (os.Open source w) as [sourceFile|e];
    [|intros [= _ <-]; apply same_outside_refl].
  destruct (os.Create target w) as [created w1| |] eqn:Hcreate; [|done..].
  destruct (Create_frame _ _ _ _ Hcreate) as [H1 Hfd].
  destruct created as [targetFile|e]; [|by intros [= _ <-]].
  specialize (Hfd _ eq_refl).
  destruct (io.Copy targetFile sourceFile w1) as [copied w2| |] eqn:Hcopy;
    [|done..].
  apply Copy_frame in Hcopy. rewrite <- Hfd in Hcopy.
  pose proof (same_outside_trans _ _ _ _ H1 Hcopy) as H2.
  destruct (copied.2) as [e|].
  - destruct (os.Close targetFile w2) as [c w3| |] eqn:Hclose; [|done..].
    apply Close_frame in Hclose as ->. by intros [= _ <-].
  - destruct (os.Close targetFile w2) as [c w3| |] eqn:Hclose; [|done..].
    apply Close_frame in Hclose as ->.
    destruct c as [e|]; [by intros [= _ <-]|].
    unfold os.Chmod, os.Chtimes.
    destruct (os.update target _ w2) as [c1 w4| |] eqn:Hchmod; [|done..].
    apply update_frame in Hchmod.
    rewrite (same_outside_locate _ _ _ target H2) in Hchmod.
    pose proof (same_outside_trans _ _ _ _ H2 Hchmod) as H4.
    destruct (os.update target _ w4) as [c2 w5| |] eqn:Hchtimes; [|done..].
    apply update_frame in Hchtimes.
    rewrite (same_outside_locate _ _ _ target H4) in Hchtimes.
    intros [= _ <-]. by apply (same_outside_trans _ _ w4).
Qed.

(** A rename onto a free name leaves every object in place that is not
    the moved one, or below it. *)
Lemma Rename_frame (source target : string) (w w' : world)
    (r : option error) :
  os.Rename source target w = Normal r w' ->
  free target w -> untouched true source w w'.
Proof.
  intros Hrun Hfree k x Hk.
  destruct (Rename_cases source target w)
    as [[e He] | (o & n & nd & w1 & Hrun1 & Ho & Hn & Hnd & _)].
  { rewrite He in Hrun. injection Hrun as _ <-. by left. }
  rewrite Hrun1 in Hrun. injection Hrun as _ <-.
  pose proof (proj1 (IsFileExist_NotExist _ _) Hfree n Hn) as Hfree'.
  revert Hrun1. unfold os.Rename, sys_error, ret.
  rewrite Ho, Hn, Hnd.
  destruct (rename_fails (env w) o n); [done|].
  case_bool_decide; [intros [= <-]; by left|].
  case_bool_decide; [done|].
  destruct (negb (is_dir (files w) (parent n))); [done|].
  destruct (os.can_replace nd (files w) n); [|done].
  intros [= <-].
  destruct (decide (o `prefix_of` k)) as [Hpre|Hpre]; [right; eauto|].
  left. cbn [files with_files]. unfold os.moved.
  rewrite lookup_insert_ne by congruence.
  apply lookup_union_Some_l. by apply map_lookup_filter_Some_2.
Qed.

Lemma Remove_frame (source : string) (w w' : world) (r : option error) :
  os.Remove source w = Normal r w' -> untouched true source w w'.
Proof.
  unfold os.Remove, sys_error, ret. intros Hrun k x Hk.
  destruct (locate w source) as [ks|]; [|injection Hrun as _ <-; by left].
  destruct (files w !! ks); [|injection Hrun as _ <-; by left].
  destruct (remove_denied (env w) ks); [injection Hrun as _ <-; by left|].
  case_bool_decide; [injection Hrun as _ <-; by left|].
  destruct (has_entries (files w) ks); injection Hrun as _ <-; [by left|].
  destruct (decide (ks = k)) as [->|Hne]; [right; eauto|].
  left. cbn [files with_files]. by rewrite lookup_delete_ne.
Qed.

(** A transfer to a free name overwrites nothing. *)
Lemma doCopyOrMove_frame (source target : string) (moveMode : bool)
    (w w' : world) (r : option error) :
  doCopyOrMove source target moveMode w = Normal r w' ->
  free target w -> untouched moveMode source w w'.
Proof.
  unfold doCopyOrMove. unfold_M. intros Hrun Hfree.
  destruct moveMode.
  - destruct (os.Rename source target w) as [r1 w1| |] eqn:Hrename;
      [|done..].
    cbn in Hrun. injection Hrun as _ <-.
    intros k x Hk. by apply (Rename_frame _ _ _ _ _ Hrename Hfree).
  - destruct (doCopy source target w) as [r1 w1| |] eqn:Hcopy; [|done..].
    cbn in Hrun. injection Hrun as _ <-.
    apply doCopy_frame in Hcopy as (_ & _ & Hsame).
    intros k x Hk. left. cbn [files with_line]. rewrite Hsame; [done|].
    intros Hloc.
    rewrite (proj1 (IsFileExist_NotExist _ _) Hfree k Hloc) in Hk. done.
Qed.

Lemma skip_frame (source target : string) (moveMode : bool) (w w' : world) :
  skip source target moveMode w = Normal tt w' ->
  untouched moveMode source w w'
  /\ stdout w' = stdout w ++ [line_skipped source target].
Proof.
  unfold skip. unfold_M. destruct moveMode.
  - destruct (os.Remove source w) as [r1 w1| |] eqn:Hremove; [|done..].
    cbn. intros [= <-]. split.
    + intros k x Hk. by apply (Remove_frame _ _ _ _ Hremove).
    + cbn [stdout with_line]. f_equal. revert Hremove.
      unfold os.Remove, sys_error, ret.
      repeat case_match; by intros [= _ <-].
  - cbn. intros [= <-]. split; [|done]. intros k x Hk. by left.
Qed.

End FrameFacts.

(* ===================================================================== *)
(** * The never-overwrite invariant *)
(* ===================================================================== *)

Section ResolverFacts.

Variable md5hex : list byte -> string.

(** What the loop returns, when it returns: the state is as before, the
    name is the target or one of its renamings, and it is free or holds a
    duplicate. *)
Lemma loop_result (fuel : nat) (source target : string) (fh : bool)
    (idx : Z) (cur res : string) (w w' : world) :
  CopyFileInternal_loop md5hex fuel source target fh idx cur w
  = Normal res w' ->
  w' = w
  /\ (res = cur \/ exists i, res = renameFile target i)
  /\ (free res w \/ duplicate md5hex source res fh w).
Proof.
  revert idx cur. induction fuel as [|fuel IH]; intros idx cur; [done|].
  simpl. unfold_M. case_bool_decide as Hex.
  - destruct (hasSameContent md5hex source cur fh w) as [same w1| |] eqn:Hsame;
      [|done..].
    destruct (hasSameContent_Normal _ _ _ _ _ _ _ Hsame) as (-> & _).
    destruct same; cbn [negb].
    + intros [= <- <-]. split; [done|]. split; [by left|].
      right. by split.
    + intros Hrun. apply IH in Hrun as (-> & Hname & Hstate).
      split; [done|]. split; [|done].
      destruct Hname as [-> | ?]; [right; eauto | by right].
  - intros [= <- <-]. split; [done|]. split; [by left|].
    left. unfold free.
    destruct (decide (IsFileExist cur w = FileExistStatus_NotExist)); tauto.
Qed.

End ResolverFacts.

(** C1 (never overwrite).  Whenever [CopyFileInternal] returns, it has
    done one of two things.  Either it has called [doCopyOrMove] once, on
    the target or on one of its renamings, and that name was probed as
    not existing in the very state the call is made in.  Or it has found a
    duplicate and called no transfer at all.  In both cases every object
    the file system held before is still there unchanged, except that a
    move takes the source (and what lies below it) away. *)
Theorem never_overwrite (md5hex : list byte -> string) (fuel : nat)
    (source target : string) (moveMode fullHashMode : bool)
    (w w' : world) (r : option error) :
  CopyFileInternal md5hex fuel source target moveMode fullHashMode w
  = Normal r w' ->
  ((exists cand,
      (cand = target \/ exists idx, cand = renameFile target idx)
      /\ IsFileExist cand w = FileExistStatus_NotExist
      /\ doCopyOrMove source cand moveMode w = Normal None w')
   \/ (exists cand,
         (cand = target \/ exists idx, cand = renameFile target idx)
         /\ duplicate md5hex source cand fullHashMode w
         /\ skip source cand moveMode w = Normal tt w'))
  /\ untouched moveMode source w w'.
Proof.
  unfold CopyFileInternal. unfold_M. case_bool_decide as Htarget.
  - destruct (doCopyOrMove source target moveMode w) as [r1 w1| |] eqn:Hrun;
      [|done..].
    intros [= _ <-].
    pose proof (doCopyOrMove_returns_nil _ _ _ _ _ _ Hrun) as ->.
    split; [|by apply (doCopyOrMove_frame _ _ _ _ _ _ Hrun)].
    left. exists target. split; [by left | done].
  - destruct (CopyFileInternal_loop md5hex fuel source target fullHashMode
                1 target w) as [cand w1| |] eqn:Hloop; [|done..].
    apply loop_result in Hloop as (-> & Hname & Hstate).
    case_bool_decide as Hcand.
    + destruct (doCopyOrMove source cand moveMode w) as [r1 w1| |] eqn:Hrun;
        [|done..].
      intros [= _ <-].
      pose proof (doCopyOrMove_returns_nil _ _ _ _ _ _ Hrun) as ->.
      split; [|by apply (doCopyOrMove_frame _ _ _ _ _ _ Hrun)].
      left. exists cand. done.
    + destruct Hstate as [Hfree | Hdup]; [done|].
      assert (forall o : outcome unit,
                match o with
                | Normal _ w2 => Normal (@None error) w2
                | Panic r0 => Panic r0
                | OutOfFuel => OutOfFuel
                end = Normal r w' -> o = Normal tt w') as Hinv.
      { intros [[] w2| |]; [|done..]. by intros [= _ <-]. }
      intros Hrun. apply Hinv in Hrun.
      change (skip source cand moveMode w = Normal tt w') in Hrun.
      split; [|by apply (skip_frame _ _ _ _ _ Hrun)].
      right. exists cand. done.
Qed.

Lemma never_overwrite_witness :
  exists r w',
    CopyFileInternal sample_digest 10 "src/photo.jpg" "dst/photo.jpg"
      false false photo_world = Normal r w'
    /\ untouched false "src/photo.jpg" photo_world w'.
Proof.
  destruct (CopyFileInternal sample_digest 10 "src/photo.jpg" "dst/photo.jpg"
              false false photo_world) as [r w'| |] eqn:Hrun;
    [|vm_compute in Hrun; discriminate Hrun..].
  exists r, w'. split; [reflexivity|].
  apply (never_overwrite sample_digest 10 "src/photo.jpg" "dst/photo.jpg"
           false false photo_world w' r Hrun).
Defined.

(* ===================================================================== *)
(** * The outcome of a collision resolution *)
(* ===================================================================== *)

Section Totality.

Lemma Create_total (name : string) (w : world) :
  exists r w', os.Create name w = Normal r w'.
Proof.
  unfold os.Create, sys_fail, ret. repeat case_match; eauto.
Qed.

Lemma Copy_total (dst src : File) (w : world) :
  exists r w', io.Copy dst src w = Normal r w'.
Proof. unfold io.Copy. repeat case_match; eauto. Qed.

Lemma Close_total (f : File) (w : world) :
  exists r, os.Close f w = Normal r w.
Proof. unfold os.Close, sys_error, ret. case_match; eauto. Qed.

Lemma update_total (name : string) (f : node -> node) (w : world) :
  exists r w', os.update name f w = Normal r w'.
Proof. unfold os.update, sys_error, ret. repeat case_match; eauto. Qed.

Lemma Remove_total (name : string) (w : world) :
  exists r w', os.Remove name w = Normal r w'.
Proof. unfold os.Remove, sys_error, ret. repeat case_match; eauto. Qed.

(** A copy never panics: it returns, with or without an error. *)
Lemma doCopy_total (source target : string) (w : world) :
  exists r w', doCopy source target w = Normal r w'.
Proof.
  unfold doCopy. unfold_M.
  destruct (os.Stat source w) as [fileinfo|e]; [|eauto].
  destruct (os.Open source w) as [sourceFile|e]; [|eauto].
  destruct (Create_total target w) as (created & w1 & ->).
  destruct created as [targetFile|e]; [|eauto].
  destruct (Copy_total targetFile sourceFile w1) as (copied & w2 & ->).
  destruct (Close_total targetFile w2) as (closed & Hclose).
  destruct (copied.2) as [e|]; rewrite Hclose; [eauto|].
  destruct closed as [e|]; [eauto|].
  unfold os.Chmod, os.Chtimes.
  destruct (update_total target (fun n => os.set_mode n (Mode fileinfo)) w2)
    as (c1 & w3 & ->).
  destruct (update_total target
              (fun n => os.set_mtime n (ModTime fileinfo)) w3)
    as (c2 & w4 & ->).
  eauto.
Qed.

Lemma doCopyOrMove_total (source target : string) (moveMode : bool)
    (w : world) :
  exists w', doCopyOrMove source target moveMode w = Normal None w'.
Proof.
  unfold doCopyOrMove. unfold_M. destruct moveMode.
  - destruct (Rename_cases source target w)
      as [[e ->] | (o & n & nd & w1 & -> & _)]; cbn; eauto.
  - destruct (doCopy_total source target w) as (r & w1 & ->). cbn. eauto.
Qed.

Lemma skip_total (source target : string) (moveMode : bool) (w : world) :
  exists w', skip source target moveMode w = Normal tt w'.
Proof.
  unfold skip. unfold_M. destruct moveMode; [|cbn; eauto].
  destruct (Remove_total source w) as (r & w1 & ->). cbn. eauto.
Qed.

End Totality.

Section OutcomeFacts.

Variable md5hex : list byte -> string.

Lemma free_not_occupied (source cand : string) (fh : bool) (w : world) :
  free cand w -> ~ occupied md5hex source cand fh w.
Proof. intros Hfree [Hex _]. done. Qed.

Lemma free_not_duplicate (source cand : string) (fh : bool) (w : world) :
  free cand w -> ~ duplicate md5hex source cand fh w.
Proof. intros Hfree [Hex _]. done. Qed.

Lemma duplicate_not_occupied (source cand : string) (fh : bool) (w : world) :
  duplicate md5hex source cand fh w -> ~ occupied md5hex source cand fh w.
Proof. intros [_ Hdup] [_ Hocc]. congruence. Qed.

(** The first numbered candidate that is not occupied is unique. *)
Lemma first_unique (source target : string) (fh : bool) (w : world)
    (n n' : nat) :
  (1 <= n)%nat -> (1 <= n')%nat ->
  all_occupied_before md5hex source target fh w n ->
  all_occupied_before md5hex source target fh w n' ->
  ~ occupied md5hex source (candidate target n) fh w ->
  ~ occupied md5hex source (candidate target n') fh w ->
  n = n'.
Proof.
  intros Hn Hn' Hbefore Hbefore' Hstop Hstop'.
  destruct (Nat.lt_trichotomy n n') as [Hlt | [-> | Hlt]]; [|done|].
  - exfalso. apply Hstop, Hbefore'. lia.
  - exfalso. apply Hstop', Hbefore. lia.
Qed.

Lemma CopyFileInternal_free (fuel : nat) (source target : string)
    (mv fh : bool) (w : world) :
  free target w ->
  CopyFileInternal md5hex fuel source target mv fh w
  = (doCopyOrMove source target mv;; mret None) w.
Proof.
  intros Hfree. unfold CopyFileInternal. unfold_M.
  by rewrite bool_decide_eq_true_2.
Qed.

Lemma CopyFileInternal_found (fuel : nat) (source target cand : string)
    (mv fh : bool) (w : world) :
  ~ free target w ->
  CopyFileInternal_loop md5hex fuel source target fh 1 target w
  = Normal cand w ->
  CopyFileInternal md5hex fuel source target mv fh w
  = if bool_decide (free cand w)
    then (doCopyOrMove source cand mv;; mret None) w
    else (skip source cand mv;; mret None) w.
Proof.
  intros Htaken Hloop. unfold CopyFileInternal. unfold_M.
  rewrite bool_decide_eq_false_2 by done. rewrite Hloop.
  unfold free.
  destruct (decide (IsFileExist cand w = FileExistStatus_NotExist)) as [Hf|Hf].
  - rewrite !bool_decide_eq_true_2 by done.
    by destruct (doCopyOrMove source cand mv w).
  - rewrite !bool_decide_eq_false_2 by done. unfold skip. unfold_M.
    destruct mv; [|done].
    by destruct (os.Remove source w).
Qed.

End OutcomeFacts.

Section Outcome.

Variable md5hex : list byte -> string.

(** When the target is taken and the source cannot be examined, the first
    comparison panics. *)
Lemma CopyFileInternal_panics (fuel : nat) (source target : string)
    (mv fh : bool) (w : world) :
  ~ free target w -> (exists e, os.Stat source w = Err e) ->
  CopyFileInternal md5hex (S fuel) source target mv fh w
  = Panic nil_dereference.
Proof.
  intros Htaken Hsrc. unfold CopyFileInternal. unfold_M.
  rewrite bool_decide_eq_false_2 by done. simpl. unfold_M.
  rewrite bool_decide_eq_true_2 by done.
  rewrite hasSameContent_stat_failure by auto. done.
Qed.

(** In every other case the call returns, and it ends in exactly one of
    the three ways: there is one [resolution] that describes it, and no
    other does. *)
Theorem resolution_outcome (source target : string) (mv fh : bool)
    (w : world) :
  Z.of_nat (size (files w)) + 3 < 2 ^ 63 ->
  free target w \/ (exists a, os.Stat source w = Ok a) ->
  forall fuel, (S (size (files w)) < fuel)%nat ->
  exists w' res,
    CopyFileInternal md5hex fuel source target mv fh w = Normal None w'
    /\ resolved_as md5hex source target mv fh w w' res
    /\ forall res', resolved_as md5hex source target mv fh w w' res' ->
                    res' = res.
Proof.
  intros Hsmall Hpre fuel Hfuel.
  destruct (decide (free target w)) as [Hfree | Htaken].
  { (* the target name is free *)
    destruct (doCopyOrMove_total source target mv w) as [w' Hrun].
    exists w', TransferredToOriginal.
    rewrite CopyFileInternal_free by done. unfold_M. rewrite Hrun.
    split; [done|]. split; [by split|].
    intros [|n|cand]; cbn [resolved_as]; [done|..].
    - intros (Hocc & _). by apply free_not_occupied in Hocc.
    - intros ([-> | [Hocc _]] & Hdup & _).
      + by apply free_not_duplicate in Hdup.
      + by apply free_not_occupied in Hocc. }
  destruct Hpre as [|Hsrc]; [done|].
  destruct (candidate_cases md5hex source target fh w Hsrc)
    as [Hocc | [Hdup | ]]; [| |done].
  - (* the target is occupied: the numbered candidates are tried *)
    destruct (first_stop md5hex source target fh w Hsrc)
      as (n & Hn & Hbefore & Hstop).
    assert (CopyFileInternal_loop md5hex fuel source target fh 1 target w
            = Normal (candidate target n) w) as Hloop.
    { apply (rename_sequence_loop md5hex w source target fh n);
        done || lia. }
    rewrite (CopyFileInternal_found md5hex fuel source target _ mv fh w
               Htaken Hloop).
    assert (forall n', (1 <= n')%nat ->
              all_occupied_before md5hex source target fh w n' ->
              ~ occupied md5hex source (candidate target n') fh w ->
              n' = n) as Hfirst.
    { intros n' Hn' Hbefore' Hstop'.
      apply (first_unique md5hex source target fh w); try done; [lia|].
      destruct Hstop as [Hd | Hf];
        [by apply duplicate_not_occupied | by apply free_not_occupied]. }
    destruct Hstop as [Hdupn | Hfreen].
    + (* a duplicate among the candidates *)
      rewrite bool_decide_eq_false_2
        by (intros Hf; by apply free_not_duplicate in Hdupn).
      destruct (skip_total source (candidate target n) mv w) as [w' Hrun].
      exists w', (SkippedAsDuplicate (candidate target n)).
      unfold_M. rewrite Hrun. split; [done|]. split.
      * cbn [resolved_as]. split; [|done]. right. split; [done|].
        exists n. split; [lia | done].
      * intros [|n'|cand]; cbn [resolved_as].
        -- intros [Hf _]. done.
        -- intros (_ & Hn' & Hbefore' & Hfree' & _).
           rewrite (Hfirst n' Hn' Hbefore') in Hfree'
             by (by apply free_not_occupied).
           by apply free_not_duplicate in Hdupn.
        -- intros ([-> | (_ & n' & Hn' & -> & Hbefore')] & Hdup' & _).
           ++ by apply duplicate_not_occupied in Hdup'.
           ++ rewrite (Hfirst n' Hn' Hbefore'); [done|].
              by apply duplicate_not_occupied.
    + (* a free candidate *)
      rewrite bool_decide_eq_true_2 by done.
      destruct (doCopyOrMove_total source (candidate target n) mv w)
        as [w' Hrun].
      exists w', (TransferredToRenamed n).
      unfold_M. rewrite Hrun. split; [done|]. split.
      * cbn [resolved_as]. split; [done|]. split; [lia|]. done.
      * intros [|n'|cand]; cbn [resolved_as].
        -- intros [Hf _]. done.
        -- intros (_ & Hn' & Hbefore' & Hfree' & _).
           rewrite (Hfirst n' Hn' Hbefore'); [done|].
           by apply free_not_occupied.
        -- intros ([-> | (_ & n' & Hn' & -> & Hbefore')] & Hdup' & _).
           ++ by apply duplicate_not_occupied in Hdup'.
           ++ rewrite (Hfirst n' Hn' Hbefore') in Hdup'
                by (by apply duplicate_not_occupied).
              by apply free_not_duplicate in Hdup'.
  - (* the target itself holds a duplicate *)
    destruct fuel as [|fuel]; [lia|].
    rewrite (CopyFileInternal_found md5hex (S fuel) source target target
               mv fh w Htaken) by (by apply loop_duplicate).
    rewrite bool_decide_eq_false_2 by done.
    destruct (skip_total source target mv w) as [w' Hrun].
    exists w', (SkippedAsDuplicate target).
    unfold_M. rewrite Hrun. split; [done|]. split.
    + cbn [resolved_as]. split; [by left | done].
    + intros [|n'|cand]; cbn [resolved_as].
      * intros [Hf _]. done.
      * intros (Hocc & _). by apply duplicate_not_occupied in Hdup.
      * intros ([-> | (Hocc & _)] & _); [done|].
        by apply duplicate_not_occupied in Hdup.
Qed.

End Outcome.

Lemma resolution_outcome_witness :
  exists w' res,
    CopyFileInternal sample_digest 10 "src/photo.jpg" "dst/photo.jpg"
      true false photo_world = Normal None w'
    /\ resolved_as sample_digest "src/photo.jpg" "dst/photo.jpg" true false
         photo_world w' res.
Proof.
  destruct (resolution_outcome sample_digest "src/photo.jpg" "dst/photo.jpg"
              true false photo_world) with (fuel := 10%nat)
    as (w' & res & Hrun & Hres & _).
  - vm_compute. reflexivity.
  - right. eexists. vm_compute. reflexivity.
  - vm_compute. lia.
  - exists w', res. split; [exact Hrun | exact Hres].
Defined.

(** C6 (exactly one outcome).  Whenever the target name is free or the
    source can be examined, the call ends in exactly one of the three ways
    ([resolution_outcome]).  Not so in the remaining case: with the target
    [/dst/photo.jpg] taken and no file at the source path, the first
    comparison asks the nil [FileInfo] of the source for its size and the
    call panics.  Nothing is transferred and nothing is skipped. *)
Theorem resolution_without_source_panics (fuel : nat) (moveMode : bool) :
  IsFileExist "dst/photo.jpg" photo_world = FileExistStatus_File
  /\ IsFileExist "src/missing.jpg" photo_world = FileExistStatus_NotExist
  /\ CopyFileInternal sample_digest (S fuel) "src/missing.jpg"
       "dst/photo.jpg" moveMode false photo_world
     = Panic nil_dereference
  /\ forall w' res,
       ~ (CopyFileInternal sample_digest (S fuel) "src/missing.jpg"
            "dst/photo.jpg" moveMode false photo_world = Normal None w'
          /\ resolved_as sample_digest "src/missing.jpg" "dst/photo.jpg"
               moveMode false photo_world w' res).
Proof.
  assert (CopyFileInternal sample_digest (S fuel) "src/missing.jpg"
            "dst/photo.jpg" moveMode false photo_world
          = Panic nil_dereference) as Hpanic.
  { apply CopyFileInternal_panics; [|eexists]; vm_compute; done. }
  split; [vm_compute; reflexivity|]. split; [vm_compute; reflexivity|].
  split; [exact Hpanic|]. intros w' res [Hrun _]. congruence.
Qed.

Section CopySuccess.

Lemma Stat_at (p : string) (w : world) (k : list string) (n : node) :
  locate w p = Some k -> files w !! k = Some n ->
  os.Stat p w = Ok (info_of n).
Proof. intros Hk Hn. unfold os.Stat. by rewrite Hk, Hn. Qed.

Lemma Open_at (p : string) (w : world) (k : list string) (n : node) :
  locate w p = Some k -> files w !! k = Some n ->
  open_denied (env w) k = false ->
  os.Open p w = Ok (mkFile k 0).
Proof. intros Hk Hn Hd. unfold os.Open. by rewrite Hk, Hn, Hd. Qed.

(** Where a copy can put its target: on a free name in an existing
    directory, or on a regular file, which it truncates. *)
Lemma Create_fresh_or_regular (target : string) (w : world)
    (kt : list string) :
  locate w target = Some kt ->
  create_denied (env w) kt = false ->
  (files w !! kt = None /\ is_dir (files w) (parent kt) = true)
  \/ (exists d m t, files w !! kt = Some (RegFile d m t)) ->
  exists m,
    os.Create target w
    = Normal (Ok (mkFile kt 0))
        (with_files w (<[kt := RegFile [] m (clock w)]> (files w))).
Proof.
  intros Hkt Hcreate Hplace. unfold os.Create. rewrite Hkt, Hcreate.
  destruct Hplace as [[-> ->] | (d & m & t & ->)]; eauto.
Qed.

Lemma doCopy_succeeds (w : world) (source target : string)
    (ks kt : list string) (data : list byte) (mode mtime : Z) :
  locate w source = Some ks ->
  files w !! ks = Some (RegFile data mode mtime) ->
  open_denied (env w) ks = false ->
  locate w target = Some kt -> ks <> kt ->
  (files w !! kt = None /\ is_dir (files w) (parent kt) = true)
  \/ (exists d m t, files w !! kt = Some (RegFile d m t)) ->
  create_denied (env w) kt = false ->
  write_limit (env w) kt = None ->
  close_fails (env w) kt = false ->
  doCopy source target w
  = Normal None (with_files w (<[kt := RegFile data mode mtime]> (files w))).
Proof.
  intros Hks Hfs Hopen Hkt Hne Hplace Hcreate Hwrite Hclose.
  destruct (Create_fresh_or_regular target w kt Hkt Hcreate Hplace)
    as [m Hrun].
  unfold doCopy. unfold_M.
  rewrite (Stat_at _ _ _ _ Hks Hfs), (Open_at _ _ _ _ Hks Hfs Hopen), Hrun.
  unfold io.Copy, contents. cbn [fd pos files with_files env].
  rewrite lookup_insert_ne by congruence. rewrite Hfs.
  rewrite lookup_insert_eq. rewrite Hwrite.
  cbn [Z.to_nat drop take length Nat.add app].
  rewrite drop_nil, app_nil_r.
  rewrite bool_decide_eq_true_2 by done. cbn [snd].
  unfold os.Close. cbn [fd env with_files]. rewrite Hclose.
  unfold os.Chmod, os.Chtimes, os.update, locate.
  cbn [cwd files with_files info_of Mode ModTime].
  fold (locate w target). rewrite Hkt.
  rewrite lookup_insert_eq. cbn [files with_files cwd].
  fold (locate w target). rewrite Hkt.
  rewrite lookup_insert_eq. cbn [os.set_mode os.set_mtime].
  unfold with_files. cbn. rewrite !insert_insert_eq. done.
Qed.

End CopySuccess.

(** When nothing is refused, [doCopy] leaves at the target a regular file
    with the bytes, the permission bits and the modification time of the
    source, whether the target name was free or held a regular file; the
    source and everything else stay as they were. *)
Theorem doCopy_preserves (w : world) (source target : string)
    (ks kt : list string) (data : list byte) (mode mtime : Z) :
  locate w source = Some ks ->
  files w !! ks = Some (RegFile data mode mtime) ->
  open_denied (env w) ks = false ->
  locate w target = Some kt -> ks <> kt ->
  (files w !! kt = None /\ is_dir (files w) (parent kt) = true)
  \/ (exists d m t, files w !! kt = Some (RegFile d m t)) ->
  create_denied (env w) kt = false ->
  write_limit (env w) kt = None ->
  close_fails (env w) kt = false ->
  doCopy source target w
  = Normal None (with_files w (<[kt := RegFile data mode mtime]> (files w))).
Proof. apply doCopy_succeeds. Qed.

Lemma doCopy_preserves_witness :
  doCopy "src/photo.jpg" "dst/photo.jpg" photo_world
  = Normal None
      (with_files photo_world
         (<[["dst"; "photo.jpg"] := RegFile (bytes "abc") 420 7]>
            (files photo_world))).
Proof.
  apply (doCopy_preserves photo_world "src/photo.jpg" "dst/photo.jpg"
           ["src"; "photo.jpg"] ["dst"; "photo.jpg"] (bytes "abc") 420 7);
    [reflexivity | reflexivity | reflexivity | reflexivity | discriminate
    | right; exists (bytes "xyz"), 384, 3; reflexivity
    | reflexivity | reflexivity | reflexivity].
Defined.

(* ===================================================================== *)
(** * Files the comparator finds equal *)
(* ===================================================================== *)

Section EqualFacts.

Variable md5hex : list byte -> string.

(** One turn of the sampling loop reads the bytes only: on two files with
    the same bytes it appends the same block and ends at the same
    offset. *)
Lemma hash_block_same (w : world) (h : list byte) (k1 k2 : list string)
    (p : Z) (data : list byte) (offset : Z) :
  contents w k1 = Some data -> contents w k2 = Some data ->
  exists h' p',
    hash_block w (h, mkFile k1 p) offset = (h', mkFile k1 p')
    /\ hash_block w (h, mkFile k2 p) offset = (h', mkFile k2 p').
Proof.
  intros H1 H2. unfold hash_block, os.Seek, io.CopyN_hash.
  destruct (offset <? 0); cbn [fst snd fd pos]; rewrite H1, H2; eauto.
Qed.

Lemma hash_blocks_same (w : world) (k1 k2 : list string) (data : list byte)
    (offsets : list Z) :
  contents w k1 = Some data -> contents w k2 = Some data ->
  forall (h : list byte) (p : Z),
    (fold_left (hash_block w) offsets (h, mkFile k1 p)).1
    = (fold_left (hash_block w) offsets (h, mkFile k2 p)).1.
Proof.
  intros H1 H2. induction offsets as [|o offsets IH]; intros h p; [done|].
  cbn [fold_left].
  destruct (hash_block_same w h k1 k2 p data o H1 H2) as (h' & p' & -> & ->).
  apply IH.
Qed.

Lemma contents_at (w : world) (k : list string) (data : list byte)
    (mode mtime : Z) :
  files w !! k = Some (RegFile data mode mtime) -> contents w k = Some data.
Proof. intros H. unfold contents. by rewrite H. Qed.

(** The digest the comparator takes of a readable regular file is a
    function of the bytes of the file and of the size passed in. *)
Lemma digest_of_same (fh : bool) (size : Z) (w : world) (p1 p2 : string)
    (k1 k2 : list string) (data : list byte) (m1 t1 m2 t2 : Z) :
  locate w p1 = Some k1 -> files w !! k1 = Some (RegFile data m1 t1) ->
  open_denied (env w) k1 = false ->
  locate w p2 = Some k2 -> files w !! k2 = Some (RegFile data m2 t2) ->
  open_denied (env w) k2 = false ->
  exists sampled,
    digest_of md5hex fh size p1 w = md5hex sampled
    /\ digest_of md5hex fh size p2 w = md5hex sampled.
Proof.
  intros Hk1 Hf1 Ho1 Hk2 Hf2 Ho2. unfold digest_of.
  destruct (negb fh && (500 * 1024 <? size)).
  - unfold getParticalHash.
    rewrite (Open_at _ _ _ _ Hk1 Hf1 Ho1), (Open_at _ _ _ _ Hk2 Hf2 Ho2).
    eexists. split; [reflexivity|]. f_equal. symmetry.
    apply (hash_blocks_same w k1 k2 data);
      eauto using contents_at.
  - rewrite (getFullHash_all md5hex w p1 k1 data m1 t1) by done.
    rewrite (getFullHash_all md5hex w p2 k2 data m2 t2) by done.
    eauto.
Qed.

Lemma len_nonempty (s : string) : s <> "" -> (len s =? 0) = false.
Proof. intros H. destruct s; [done|]. unfold len. simpl. lia. Qed.

Hypothesis md5hex_nonempty : forall data, md5hex data <> "".

(** Two readable regular files with the same bytes are found equal, in
    either mode. *)
Lemma same_bytes_duplicate (fh : bool) (w : world) (source target : string)
    (ks kt : list string) (data : list byte) (ms ts mt tt : Z) :
  locate w source = Some ks -> files w !! ks = Some (RegFile data ms ts) ->
  open_denied (env w) ks = false ->
  locate w target = Some kt -> files w !! kt = Some (RegFile data mt tt) ->
  open_denied (env w) kt = false ->
  duplicate md5hex source target fh w.
Proof.
  intros Hks Hfs Hos Hkt Hft Hot.
  pose proof (Stat_at _ _ _ _ Hks Hfs) as Hss.
  pose proof (Stat_at _ _ _ _ Hkt Hft) as Hst.
  split; [apply IsFileExist_exists; eauto|].
  rewrite (hasSameContent_examined md5hex _ _ _ _ _ _ Hss Hst).
  cbn [info_of Size]. rewrite Z.eqb_refl.
  destruct (digest_of_same fh (Z.of_nat (length data)) w source target
              ks kt data ms ts mt tt) as (sampled & -> & ->); try done.
  rewrite String.eqb_refl, len_nonempty by done. done.
Qed.

(** The sampled digests of two files agree as soon as the four blocks
    do. *)
Lemma same_windows_duplicate (w : world) (source target : string)
    (ks kt : list string) (ds dt : list byte) (ms ts mt tt : Z) :
  locate w source = Some ks -> files w !! ks = Some (RegFile ds ms ts) ->
  open_denied (env w) ks = false ->
  locate w target = Some kt -> files w !! kt = Some (RegFile dt mt tt) ->
  open_denied (env w) kt = false ->
  length dt = length ds ->
  let size := Z.of_nat (length ds) in
  500 * 1024 < size -> size - blockSize < 2 ^ 62 ->
  Forall (fun o => window ds o = window dt o)
    [0; (size - blockSize) / 3; 2 * (size - blockSize) / 3;
     size - blockSize] ->
  duplicate md5hex source target false w.
Proof.
  intros Hks Hfs Hos Hkt Hft Hot Hlen size Hbig Hhi Hwin.
  pose proof (Stat_at _ _ _ _ Hks Hfs) as Hss.
  pose proof (Stat_at _ _ _ _ Hkt Hft) as Hst.
  assert (blockSize = 51200) as Hbs by reflexivity.
  split; [apply IsFileExist_exists; eauto|].
  rewrite (hasSameContent_examined md5hex _ _ _ _ _ _ Hss Hst).
  cbn [info_of Size]. rewrite Hlen. fold size. rewrite Z.eqb_refl.
  unfold digest_of.
  assert ((500 * 1024 <? size) = true) as -> by lia. cbn [negb andb].
  subst size.
  rewrite (getParticalHash_windows md5hex w source ks ds ms ts)
    by (done || lia).
  rewrite <- Hlen.
  rewrite (getParticalHash_windows md5hex w target kt dt mt tt)
    by (done || lia).
  rewrite Hlen.
  apply Forall_cons in Hwin as [-> Hwin].
  apply Forall_cons in Hwin as [-> Hwin].
  apply Forall_cons in Hwin as [-> Hwin].
  apply Forall_cons in Hwin as [-> _].
  rewrite String.eqb_refl, len_nonempty by done. done.
Qed.

End EqualFacts.

Lemma sample_digest_nonempty (data : list byte) : sample_digest data <> "".
Proof. unfold sample_digest. by rewrite string_app_cons. Qed.

Lemma sample_digest_inj (a b : list byte) :
  sample_digest a = sample_digest b -> a = b.
Proof.
  unfold sample_digest. intros H%String.app_inj.
  apply (f_equal list_byte_of_string) in H.
  by rewrite !list_byte_of_string_of_list_byte in H.
Qed.

(** Two regular files that can be read and hold the same bytes are found
    equal by [hasSameContent], with full and with sampled digests,
    whatever their names, permission bits and modification times.  (The
    digest of any data is taken to be a non-empty text, as a hexadecimal
    MD5 sum is.) *)
Theorem hasSameContent_same_bytes (md5hex : list byte -> string)
    (fullHashMode : bool) (w : world) (source target : string)
    (ks kt : list string) (data : list byte) (ms ts mt tt : Z) :
  (forall d, md5hex d <> "") ->
  locate w source = Some ks -> files w !! ks = Some (RegFile data ms ts) ->
  open_denied (env w) ks = false ->
  locate w target = Some kt -> files w !! kt = Some (RegFile data mt tt) ->
  open_denied (env w) kt = false ->
  hasSameContent md5hex source target fullHashMode w = Normal true w.
Proof.
  intros Hne Hks Hfs Hos Hkt Hft Hot.
  by destruct (same_bytes_duplicate md5hex Hne fullHashMode w source target
                 ks kt data ms ts mt tt).
Qed.

Lemma hasSameContent_same_bytes_witness :
  hasSameContent sample_digest "a.raw" "./a.raw" false big_world
  = Normal true big_world.
Proof.
  apply (hasSameContent_same_bytes sample_digest false big_world
           "a.raw" "./a.raw" ["a.raw"] ["a.raw"] (big_data x01) 420 1 420 1);
    [apply sample_digest_nonempty | reflexivity | reflexivity | reflexivity
    | reflexivity | reflexivity | reflexivity].
Defined.

Section BlindFacts.

(** A block that lies in front of a byte, or behind it, does not see
    it. *)
Lemma window_front (front back back' : list byte) :
  length front = Z.to_nat blockSize ->
  window (front ++ back) 0 = window (front ++ back') 0.
Proof.
  intros H. unfold window. change (Z.to_nat 0) with 0%nat.
  rewrite !drop_0, !take_app_le by lia. done.
Qed.

Lemma window_behind (front front' back : list byte) (offset : Z) :
  length front' = length front ->
  Z.of_nat (length front) <= offset ->
  window (front ++ back) offset = window (front' ++ back) offset.
Proof.
  intros Hlen H. unfold window.
  rewrite !drop_app_ge by lia. by rewrite Hlen.
Qed.

Lemma blind_data_length (b : byte) :
  Z.of_nat (length (blind_data b)) = 600000.
Proof.
  unfold blind_data. rewrite !length_app, !repeat_length. cbn [length]. lia.
Qed.

Lemma blind_data_window (offset : Z) :
  offset = 0 \/ 51201 <= offset ->
  window (blind_data x01) offset = window (blind_data x02) offset.
Proof.
  unfold blind_data. intros [-> | H].
  - apply window_front. by rewrite repeat_length.
  - rewrite !(app_assoc _ [_]). apply window_behind.
    + by rewrite !length_app.
    + rewrite length_app, repeat_length. cbn [length]. lia.
Qed.

End BlindFacts.

(** With sampled digests (fast mode, more than 500 KiB) [hasSameContent]
    looks at four blocks of 50 KiB only: two readable files of the same
    size that agree on these blocks are found equal, whatever the bytes
    in between are. *)
Theorem sampled_comparison_blind_spot (md5hex : list byte -> string)
    (w : world) (source target : string) (ks kt : list string)
    (ds dt : list byte) (ms ts mt tt : Z) :
  (forall d, md5hex d <> "") ->
  locate w source = Some ks -> files w !! ks = Some (RegFile ds ms ts) ->
  open_denied (env w) ks = false ->
  locate w target = Some kt -> files w !! kt = Some (RegFile dt mt tt) ->
  open_denied (env w) kt = false ->
  length dt = length ds ->
  let size := Z.of_nat (length ds) in
  500 * 1024 < size -> size - blockSize < 2 ^ 62 ->
  Forall (fun o => window ds o = window dt o)
    [0; (size - blockSize) / 3; 2 * (size - blockSize) / 3;
     size - blockSize] ->
  hasSameContent md5hex source target false w = Normal true w.
Proof.
  intros Hne Hks Hfs Hos Hkt Hft Hot Hlen size Hbig Hhi Hwin.
  by destruct (same_windows_duplicate md5hex Hne w source target ks kt
                 ds dt ms ts mt tt).
Qed.

Lemma sampled_comparison_blind_spot_witness :
  blind_data x01 <> blind_data x02
  /\ hasSameContent sample_digest "a.raw" "b.raw" false blind_world
     = Normal true blind_world
  /\ hasSameContent sample_digest "a.raw" "b.raw" true blind_world
     = Normal false blind_world.
Proof.
  assert (length (blind_data x02) = length (blind_data x01)) as Hlen.
  { apply Nat2Z.inj. by rewrite !blind_data_length. }
  split; [|split].
  - unfold blind_data. intros H. apply app_inv_head in H. discriminate H.
  - apply (sampled_comparison_blind_spot sample_digest blind_world
             "a.raw" "b.raw" ["a.raw"] ["b.raw"]
             (blind_data x01) (blind_data x02) 420 1 420 2);
      [apply sample_digest_nonempty | reflexivity | reflexivity
      | reflexivity | reflexivity | reflexivity | reflexivity | exact Hlen
      | rewrite blind_data_length; lia
      | rewrite blind_data_length; by vm_compute |].
    rewrite blind_data_length.
    repeat (apply Forall_cons; split;
              [apply blind_data_window; vm_compute; intuition congruence|]).
    constructor.
  - assert (os.Stat "a.raw" blind_world
            = Ok (info_of (RegFile (blind_data x01) 420 1))) as Ha
      by reflexivity.
    assert (os.Stat "b.raw" blind_world
            = Ok (info_of (RegFile (blind_data x02) 420 2))) as Hb
      by reflexivity.
    rewrite (hasSameContent_examined sample_digest _ _ _ _ _ _ Ha Hb).
    cbn [info_of Size]. rewrite !blind_data_length. unfold digest_of.
    cbn [negb andb Z.eqb Pos.eqb].
    rewrite (getFullHash_all sample_digest blind_world "a.raw" ["a.raw"]
               (blind_data x01) 420 1) by reflexivity.
    rewrite (getFullHash_all sample_digest blind_world "b.raw" ["b.raw"]
               (blind_data x02) 420 2) by reflexivity.
    assert (sample_digest (blind_data x01) <> sample_digest (blind_data x02))
      as Hdiff.
    { intros H%sample_digest_inj.
      unfold blind_data in H. apply app_inv_head in H. discriminate H. }
    apply String.eqb_neq in Hdiff. rewrite Hdiff. done.
Defined.

(* ===================================================================== *)
(** * What happens to a duplicate *)
(* ===================================================================== *)

Section DuplicateFacts.

Variable md5hex : list byte -> string.

(** With a duplicate at the target name the loop is left at once and the
    entry is skipped. *)
Lemma CopyFileInternal_duplicate (fuel : nat) (source target : string)
    (mv fh : bool) (w : world) :
  duplicate md5hex source target fh w ->
  CopyFileInternal md5hex (S fuel) source target mv fh w
  = (skip source target mv;; mret None) w.
Proof.
  intros Hdup.
  rewrite (CopyFileInternal_found md5hex (S fuel) source target target
             mv fh w).
  - rewrite bool_decide_eq_false_2; [done|].
    intros Hfree. by apply free_not_duplicate in Hdup.
  - intros Hfree. by apply free_not_duplicate in Hdup.
  - by apply loop_duplicate.
Qed.

Lemma skip_copy (source target : string) (w : world) :
  skip source target false w
  = Normal tt (with_line w (line_skipped source target)).
Proof. reflexivity. Qed.

(** Skipping in move mode removes the source. *)
Lemma skip_move (source target : string) (w : world) (ks : list string)
    (n : node) :
  locate w source = Some ks -> files w !! ks = Some n ->
  remove_denied (env w) ks = false -> ks <> [] ->
  has_entries (files w) ks = false ->
  skip source target true w
  = Normal tt (with_line (with_files w (delete ks (files w)))
                 (line_skipped source target)).
Proof.
  intros Hks Hn Hrm Hroot Hleaf. unfold skip. unfold_M.
  unfold os.Remove. rewrite Hks, Hn, Hrm, Hleaf.
  by rewrite bool_decide_eq_false_2.
Qed.

Hypothesis md5hex_nonempty : forall data, md5hex data <> "".

Lemma copy_of_duplicate_is_skipped_at (fuel : nat) (fh : bool) (w : world)
    (source target : string) (ks kt : list string) (data : list byte)
    (ms ts mt tt : Z) :
  locate w source = Some ks -> files w !! ks = Some (RegFile data ms ts) ->
  open_denied (env w) ks = false ->
  locate w target = Some kt -> files w !! kt = Some (RegFile data mt tt) ->
  open_denied (env w) kt = false ->
  CopyFileInternal md5hex (S fuel) source target false fh w
  = Normal None (with_line w (line_skipped source target)).
Proof.
  intros Hks Hfs Hos Hkt Hft Hot.
  rewrite CopyFileInternal_duplicate
    by (by apply (same_bytes_duplicate md5hex md5hex_nonempty fh w source
                    target ks kt data ms ts mt tt)).
  done.
Qed.

Lemma move_of_same_object (fuel : nat) (fh : bool) (w : world)
    (source target : string) (k : list string) (data : list byte)
    (mode mtime : Z) :
  locate w source = Some k -> locate w target = Some k ->
  files w !! k = Some (RegFile data mode mtime) ->
  open_denied (env w) k = false ->
  remove_denied (env w) k = false -> k <> [] ->
  has_entries (files w) k = false ->
  CopyFileInternal md5hex (S fuel) source target true fh w
  = Normal None
      (with_line (with_files w (delete k (files w)))
         (line_skipped source target)).
Proof.
  intros Hks Hkt Hf Hopen Hrm Hroot Hleaf.
  rewrite CopyFileInternal_duplicate
    by (by apply (same_bytes_duplicate md5hex md5hex_nonempty fh w source
                    target k k data mode mtime mode mtime)).
  unfold_M. by rewrite (skip_move source target w k _ Hks Hf Hrm Hroot Hleaf).
Qed.

End DuplicateFacts.

(** A copy onto a name that already holds the same bytes changes no file:
    the entry is reported as skipped.  So copying the same source to the
    same target twice leaves one copy. *)
Theorem copy_of_duplicate_is_skipped (md5hex : list byte -> string)
    (fuel : nat) (fullHashMode : bool) (w : world) (source target : string)
    (ks kt : list string) (data : list byte) (ms ts mt tt : Z) :
  (forall d, md5hex d <> "") ->
  locate w source = Some ks -> files w !! ks = Some (RegFile data ms ts) ->
  open_denied (env w) ks = false ->
  locate w target = Some kt -> files w !! kt = Some (RegFile data mt tt) ->
  open_denied (env w) kt = false ->
  CopyFileInternal md5hex (S fuel) source target false fullHashMode w
  = Normal None (with_line w (line_skipped source target)).
Proof.
  intros Hne. by apply copy_of_duplicate_is_skipped_at.
Qed.

(** A move onto a name that already holds the same bytes removes the
    source and leaves the file at the target as it is. *)
Theorem move_of_duplicate_removes_source (md5hex : list byte -> string)
    (fuel : nat) (fullHashMode : bool) (w : world) (source target : string)
    (ks kt : list string) (data : list byte) (ms ts mt tt : Z) :
  (forall d, md5hex d <> "") ->
  locate w source = Some ks -> files w !! ks = Some (RegFile data ms ts) ->
  open_denied (env w) ks = false ->
  locate w target = Some kt -> files w !! kt = Some (RegFile data mt tt) ->
  open_denied (env w) kt = false ->
  ks <> kt ->
  remove_denied (env w) ks = false -> ks <> [] ->
  has_entries (files w) ks = false ->
  exists w',
    CopyFileInternal md5hex (S fuel) source target true fullHashMode w
    = Normal None w'
    /\ files w' = delete ks (files w)
    /\ files w' !! kt = Some (RegFile data mt tt)
    /\ stdout w' = stdout w ++ [line_skipped source target].
Proof.
  intros Hne Hks Hfs Hos Hkt Hft Hot Hdiff Hrm Hroot Hleaf.
  rewrite CopyFileInternal_duplicate
    by (by apply (same_bytes_duplicate md5hex Hne fullHashMode w source
                    target ks kt data ms ts mt tt)).
  unfold_M. rewrite (skip_move source target w ks _ Hks Hfs Hrm Hroot Hleaf).
  eexists. split; [reflexivity|]. cbn [files stdout with_files with_line].
  split; [done|]. split; [|done]. by rewrite lookup_delete_ne.
Qed.

Lemma copy_of_duplicate_is_skipped_witness :
  CopyFileInternal sample_digest 1 "src/photo.jpg" "src/./photo.jpg" false
    false photo_world
  = Normal None
      (with_line photo_world
         (line_skipped "src/photo.jpg" "src/./photo.jpg")).
Proof.
  apply (copy_of_duplicate_is_skipped sample_digest 0 false photo_world
           "src/photo.jpg" "src/./photo.jpg" ["src"; "photo.jpg"]
           ["src"; "photo.jpg"] (bytes "abc") 420 7 420 7);
    [apply sample_digest_nonempty | reflexivity | reflexivity | reflexivity
    | reflexivity | reflexivity | reflexivity].
Defined.

Lemma move_of_duplicate_removes_source_witness :
  exists w',
    CopyFileInternal sample_digest 1 "src/photo.jpg" "dst/same.jpg" true
      false twin_world = Normal None w'
    /\ files w' = delete ["src"; "photo.jpg"] (files twin_world)
    /\ files w' !! ["dst"; "same.jpg"] = Some (RegFile (bytes "abc") 384 3)
    /\ stdout w'
       = stdout twin_world ++ [line_skipped "src/photo.jpg" "dst/same.jpg"].
Proof.
  apply (move_of_duplicate_removes_source sample_digest 0 false twin_world
           "src/photo.jpg" "dst/same.jpg" ["src"; "photo.jpg"]
           ["dst"; "same.jpg"] (bytes "abc") 420 7 384 3);
    [apply sample_digest_nonempty | reflexivity | reflexivity | reflexivity
    | reflexivity | reflexivity | reflexivity | discriminate | reflexivity
    | discriminate | vm_compute; reflexivity].
Defined.

(* ===================================================================== *)
(** * A transfer to a free name *)
(* ===================================================================== *)

Section TransferFacts.

Lemma has_entries_false (m : gmap (list string) node) (k k' : list string)
    (n : node) :
  has_entries m k = false -> m !! k' = Some n -> ~ below k k'.
Proof.
  unfold has_entries. intros H Hk'. apply negb_false_iff in H.
  apply bool_decide_eq_true in H. by apply (H k' n).
Qed.

(** Moving an object that has nothing below it takes it out of the map
    and puts it at the new place. *)
Lemma moved_leaf (o n : list string) (nd : node)
    (m : gmap (list string) node) :
  has_entries m o = false ->
  os.moved o n nd m = <[n := nd]> (delete o m).
Proof.
  intros Hleaf. unfold os.moved. f_equal.
  assert (filter (fun kv : list string * node => below o kv.1) m = ∅) as ->.
  { apply map_empty_filter_2. intros k x Hk Hb.
    by apply (has_entries_false m o k x). }
  rewrite map_to_list_empty. cbn [map]. rewrite list_to_map_nil.
  rewrite (right_id_L ∅ (∪)).
  apply map_eq. intros k. destruct (decide (k = o)) as [->|Hne].
  - rewrite lookup_delete_eq. apply map_lookup_filter_None. right.
    intros x _ Hpre. by apply Hpre.
  - rewrite lookup_delete_ne by done.
    destruct (m !! k) as [x|] eqn:Hk.
    + apply map_lookup_filter_Some. split; [done|]. intros Hpre.
      apply (has_entries_false m o k x Hleaf Hk). by split.
    + apply map_lookup_filter_None. by left.
Qed.

(** A regular file without entries below it is no prefix of a name whose
    directory exists. *)
Lemma leaf_not_prefix (m : gmap (list string) node) (o n : list string)
    (data : list byte) (mode mtime : Z) :
  m !! o = Some (RegFile data mode mtime) -> has_entries m o = false ->
  is_dir m (parent n) = true -> o <> n -> ~ o `prefix_of` n.
Proof.
  intros Ho Hleaf Hdir Hne [l ->]. unfold is_dir, parent in Hdir.
  destruct l as [|x l] using rev_ind; [by rewrite app_nil_r in Hne|].
  rewrite app_assoc, removelast_last in Hdir.
  destruct (m !! (o ++ l)) as [[|s md t]|] eqn:Hl; try done.
  destruct l as [|y l].
  - rewrite app_nil_r in Hl. congruence.
  - apply (has_entries_false m o _ _ Hleaf Hl). split; [by eexists|].
    intros E. apply (f_equal length) in E. rewrite length_app in E.
    simpl in E. lia.
Qed.

Lemma Rename_leaf (oldpath newpath : string) (w : world)
    (o n : list string) (data : list byte) (mode mtime : Z) :
  locate w oldpath = Some o -> locate w newpath = Some n ->
  files w !! o = Some (RegFile data mode mtime) ->
  has_entries (files w) o = false ->
  files w !! n = None -> is_dir (files w) (parent n) = true ->
  rename_fails (env w) o n = false ->
  os.Rename oldpath newpath w
  = Normal None
      (with_files w (<[n := RegFile data mode mtime]> (delete o (files w)))).
Proof.
  intros Ho Hn Hfo Hleaf Hfn Hdir Hok.
  assert (o <> n) as Hne by congruence.
  unfold os.Rename. rewrite Ho, Hn, Hfo, Hok.
  rewrite bool_decide_eq_false_2 by done.
  rewrite bool_decide_eq_false_2
    by (by apply (leaf_not_prefix (files w) o n data mode mtime)).
  rewrite Hdir. cbn [negb]. unfold os.can_replace. rewrite Hfn.
  by rewrite moved_leaf.
Qed.

Lemma free_at (target : string) (w : world) (kt : list string) :
  locate w target = Some kt -> files w !! kt = None -> free target w.
Proof.
  intros Hkt Hnone. apply IsFileExist_NotExist. intros k Hk.
  rewrite Hkt in Hk. by injection Hk as <-.
Qed.

Lemma copy_to_free_name (md5hex : list byte -> string) (fuel : nat)
    (fh : bool) (w : world) (source target : string) (ks kt : list string)
    (data : list byte) (mode mtime : Z) :
  locate w source = Some ks ->
  files w !! ks = Some (RegFile data mode mtime) ->
  open_denied (env w) ks = false ->
  locate w target = Some kt -> files w !! kt = None ->
  is_dir (files w) (parent kt) = true ->
  create_denied (env w) kt = false -> write_limit (env w) kt = None ->
  close_fails (env w) kt = false ->
  CopyFileInternal md5hex fuel source target false fh w
  = Normal None
      (with_line
         (with_files w (<[kt := RegFile data mode mtime]> (files w)))
         (line_copied source target)).
Proof.
  intros Hks Hfs Hos Hkt Hft Hdir Hcr Hwr Hcl.
  assert (ks <> kt) as Hdiff by congruence.
  rewrite CopyFileInternal_free by (by apply (free_at target w kt)).
  unfold doCopyOrMove. unfold_M.
  rewrite (doCopy_succeeds w source target ks kt data mode mtime); auto.
Qed.

Lemma move_to_free_name_at (md5hex : list byte -> string) (fuel : nat)
    (fh : bool) (w : world) (source target : string) (ks kt : list string)
    (data : list byte) (mode mtime : Z) :
  locate w source = Some ks ->
  files w !! ks = Some (RegFile data mode mtime) ->
  has_entries (files w) ks = false ->
  locate w target = Some kt -> files w !! kt = None ->
  is_dir (files w) (parent kt) = true ->
  rename_fails (env w) ks kt = false ->
  CopyFileInternal md5hex fuel source target true fh w
  = Normal None
      (with_line
         (with_files w
            (<[kt := RegFile data mode mtime]> (delete ks (files w))))
         (line_moved source target)).
Proof.
  intros Hks Hfs Hleaf Hkt Hft Hdir Hok.
  rewrite CopyFileInternal_free by (by apply (free_at target w kt)).
  unfold doCopyOrMove. unfold_M.
  by rewrite (Rename_leaf source target w ks kt data mode mtime).
Qed.

Lemma has_entries_insert (m : gmap (list string) node) (k kn : list string)
    (n : node) :
  ~ below k kn -> has_entries m k = false ->
  has_entries (<[kn := n]> m) k = false.
Proof.
  unfold has_entries. intros Hkn H. apply negb_false_iff in H.
  apply bool_decide_eq_true in H. apply negb_false_iff.
  apply bool_decide_eq_true. intros k' x Hk'.
  destruct (decide (k' = kn)) as [->|Hne]; [done|].
  rewrite lookup_insert_ne in Hk' by done. by apply (H k' x).
Qed.

End TransferFacts.

(** Copying a readable regular file to a free name in an existing
    directory, with nothing refused by the system, creates the target
    with the bytes, permission bits and modification time of the source
    and reports the copy; a second copy of the same source to the same
    target then finds the duplicate and changes no file. *)
Theorem copy_twice_keeps_one (md5hex : list byte -> string)
    (fuel fuel' : nat) (fullHashMode : bool) (w : world)
    (source target : string) (ks kt : list string) (data : list byte)
    (mode mtime : Z) :
  (forall d, md5hex d <> "") ->
  locate w source = Some ks ->
  files w !! ks = Some (RegFile data mode mtime) ->
  open_denied (env w) ks = false ->
  locate w target = Some kt -> files w !! kt = None ->
  is_dir (files w) (parent kt) = true ->
  create_denied (env w) kt = false -> write_limit (env w) kt = None ->
  close_fails (env w) kt = false -> open_denied (env w) kt = false ->
  let w1 :=
    with_line
      (with_files w (<[kt := RegFile data mode mtime]> (files w)))
      (line_copied source target) in
  CopyFileInternal md5hex fuel source target false fullHashMode w
  = Normal None w1
  /\ CopyFileInternal md5hex (S fuel') source target false fullHashMode w1
     = Normal None (with_line w1 (line_skipped source target)).
Proof.
  intros Hne Hks Hfs Hos Hkt Hft Hdir Hcr Hwr Hcl Hot w1.
  assert (ks <> kt) as Hdiff by congruence.
  split.
  - by apply (copy_to_free_name md5hex fuel fullHashMode w source target
                ks kt data mode mtime).
  - apply (copy_of_duplicate_is_skipped_at md5hex Hne fuel' fullHashMode w1
             source target ks kt data mode mtime mode mtime); try done.
    + subst w1. cbn [files with_line with_files].
      by rewrite lookup_insert_ne.
    + subst w1. cbn [files with_line with_files]. apply lookup_insert_eq.
Qed.

(** Moving a regular file to a free name in an existing directory, with
    the rename not refused, takes the file away from the source path and
    puts it, bytes, permission bits and modification time unchanged, at
    the target; no other file changes. *)
Theorem move_to_free_name (md5hex : list byte -> string) (fuel : nat)
    (fullHashMode : bool) (w : world) (source target : string)
    (ks kt : list string) (data : list byte) (mode mtime : Z) :
  locate w source = Some ks ->
  files w !! ks = Some (RegFile data mode mtime) ->
  has_entries (files w) ks = false ->
  locate w target = Some kt -> files w !! kt = None ->
  is_dir (files w) (parent kt) = true ->
  rename_fails (env w) ks kt = false ->
  CopyFileInternal md5hex fuel source target true fullHashMode w
  = Normal None
      (with_line
         (with_files w
            (<[kt := RegFile data mode mtime]> (delete ks (files w))))
         (line_moved source target)).
Proof. apply move_to_free_name_at. Qed.

Lemma copy_twice_keeps_one_witness :
  let w1 :=
    with_line
      (with_files photo_world
         (<[["dst"; "new.jpg"] := RegFile (bytes "abc") 420 7]>
            (files photo_world)))
      (line_copied "src/photo.jpg" "dst/new.jpg") in
  CopyFileInternal sample_digest 0 "src/photo.jpg" "dst/new.jpg" false false
    photo_world = Normal None w1
  /\ CopyFileInternal sample_digest 1 "src/photo.jpg" "dst/new.jpg" false
       false w1
     = Normal None (with_line w1 (line_skipped "src/photo.jpg" "dst/new.jpg")).
Proof.
  apply (copy_twice_keeps_one sample_digest 0 0 false photo_world
           "src/photo.jpg" "dst/new.jpg" ["src"; "photo.jpg"]
           ["dst"; "new.jpg"] (bytes "abc") 420 7);
    [apply sample_digest_nonempty | reflexivity | reflexivity | reflexivity
    | reflexivity | reflexivity | reflexivity | reflexivity | reflexivity
    | reflexivity | reflexivity].
Defined.

Lemma move_to_free_name_witness :
  CopyFileInternal sample_digest 0 "src/photo.jpg" "dst/new.jpg" true false
    photo_world
  = Normal None
      (with_line
         (with_files photo_world
            (<[["dst"; "new.jpg"] := RegFile (bytes "abc") 420 7]>
               (delete ["src"; "photo.jpg"] (files photo_world))))
         (line_moved "src/photo.jpg" "dst/new.jpg")).
Proof.
  apply (move_to_free_name sample_digest 0 false photo_world
           "src/photo.jpg" "dst/new.jpg" ["src"; "photo.jpg"]
           ["dst"; "new.jpg"] (bytes "abc") 420 7);
    [reflexivity | reflexivity | vm_compute; reflexivity | reflexivity
    | reflexivity | reflexivity | reflexivity].
Defined.

(* ===================================================================== *)
(** * Facts about cleaned and joined paths *)
(* ===================================================================== *)

Section LexicalFacts.

Import path.

Lemma enter_real (at_ : list string) (e : string) :
  e <> "" -> e <> "." -> e <> ".." -> enter at_ e = at_ ++ [e].
Proof.
  intros H1 H2 H3. unfold enter.
  rewrite bool_decide_eq_false_2 by (intros [|]; done).
  by rewrite bool_decide_eq_false_2.
Qed.

Lemma enter_skip (at_ : list string) (e : string) :
  e = "" \/ e = "." -> enter at_ e = at_.
Proof. intros H. unfold enter. by rewrite bool_decide_eq_true_2. Qed.

Lemma enter_up (at_ : list string) : enter at_ ".." = removelast at_.
Proof. reflexivity. Qed.

Lemma split_go_slash (s t cur : string) :
  split_go (s +:+ "/" +:+ t) cur = split_go s cur ++ split_go t "".
Proof.
  revert cur. induction s as [|c s IH]; intros cur.
  - by rewrite string_app_nil_l.
  - rewrite string_app_cons. simpl.
    destruct (Ascii.eqb c "/"); [|apply IH]. by rewrite IH.
Qed.

Lemma split_go_noslash_elems (s cur : string) :
  noslash cur = true -> Forall (fun e => noslash e = true) (split_go s cur).
Proof.
  revert cur. induction s as [|c s IH]; intros cur Hcur; simpl.
  - by constructor.
  - destruct (Ascii.eqb c "/") eqn:Hc.
    + constructor; [done|]. by apply IH.
    + apply IH. rewrite noslash_app, Hcur. simpl. by rewrite Hc.
Qed.

Lemma absolute_app (s t : string) :
  s <> "" -> absolute (s +:+ t) = absolute s.
Proof. by destruct s. Qed.

Lemma origin_absolute (wd : list string) (p : string) :
  origin wd p = if absolute p then [] else wd.
Proof. by destruct p. Qed.

Lemma resolve_nonempty (wd : list string) (p : string) :
  p <> "" ->
  resolve wd p = Some (fold_left enter (split_go p "") (origin wd p)).
Proof. destruct p; [done|]. intros _. by rewrite origin_absolute. Qed.

Lemma resolve_Some (wd : list string) (p : string) (k : list string) :
  resolve wd p = Some k -> p <> "".
Proof. by destruct p. Qed.

(** The text [Clean] writes falls apart into the elements it was put
    together from. *)
Lemma split_go_Join (out : list string) (e : string) :
  Forall written (e :: out) ->
  split_go (strings.Join (e :: out) "/") "" = e :: out.
Proof.
  revert e. induction out as [|e' out IH]; intros e Hall.
  - apply Forall_cons in Hall as [(_ & _ & He) _]. simpl.
    by rewrite split_go_noslash.
  - apply Forall_cons in Hall as [(_ & _ & He) Hall].
    change (strings.Join (e :: e' :: out) "/")
      with (e +:+ "/" +:+ strings.Join (e' :: out) "/").
    rewrite split_go_slash, split_go_noslash by done.
    by rewrite IH.
Qed.

Lemma Join_first (out : list string) (e : string) :
  e <> "" -> exists c r, strings.Join (e :: out) "/" = String c r
                         /\ e +:+ "" <> "" /\
                         (noslash e = true -> Ascii.eqb c "/" = false).
Proof.
  intros He. destruct e as [|c e]; [done|].
  destruct out as [|e' out].
  - exists c, e. split; [done|]. split; [done|]. simpl.
    intros H. apply andb_true_iff in H as [H _]. by apply negb_true_iff.
  - exists c, (e +:+ "/" +:+ strings.Join (e' :: out) "/").
    split; [done|]. split; [done|]. simpl.
    intros H. apply andb_true_iff in H as [H _]. by apply negb_true_iff.
Qed.

(** The elements written stay well formed, and following them leads
    where following the elements read leads. *)
Lemma clean_step_written (rooted : bool) (out : list string) (e : string) :
  noslash e = true -> Forall written out ->
  Forall written (lexical.clean_step rooted out e).
Proof.
  intros He Hout. unfold lexical.clean_step.
  case_bool_decide as H1; [done|].
  assert (written "..") as Hdd by done.
  case_bool_decide as H2.
  - destruct (last out) as [x|] eqn:Hlast.
    + case_bool_decide.
      * apply Forall_app. split; [done|]. by constructor.
      * destruct out as [|y out] using rev_ind; [done|].
        rewrite removelast_last. by apply Forall_app in Hout as [Hout _].
    + destruct rooted; [done|]. apply Forall_app. split; [done|].
      by constructor.
  - apply Forall_app. split; [done|]. constructor; [|done].
    split; [tauto|]. split; [tauto|done].
Qed.

Lemma clean_step_enter (rooted : bool) (start out : list string)
    (e : string) :
  (rooted = true -> start = []) -> Forall written out ->
  fold_left enter (lexical.clean_step rooted out e) start
  = enter (fold_left enter out start) e.
Proof.
  intros Hroot Hout. unfold lexical.clean_step.
  case_bool_decide as H1; [by rewrite enter_skip|].
  case_bool_decide as H2.
  - subst e. rewrite enter_up.
    destruct out as [|x out _] using rev_ind.
    + cbn [last fold_left]. destruct rooted.
      * by rewrite Hroot.
      * done.
    + rewrite last_snoc. case_bool_decide as Hx.
      * by rewrite fold_left_snoc.
      * rewrite removelast_last, fold_left_snoc.
        apply Forall_app in Hout as [_ Hx'].
        apply Forall_cons in Hx' as [(Hx1 & Hx2 & _) _].
        rewrite enter_real by done. by rewrite removelast_last.
  - by rewrite fold_left_snoc.
Qed.

Lemma clean_steps (rooted : bool) (start : list string)
    (elems out : list string) :
  (rooted = true -> start = []) ->
  Forall (fun e => noslash e = true) elems -> Forall written out ->
  Forall written (fold_left (lexical.clean_step rooted) elems out)
  /\ fold_left enter (fold_left (lexical.clean_step rooted) elems out) start
     = fold_left enter elems (fold_left enter out start).
Proof.
  intros Hroot Helems. revert out.
  induction Helems as [|e elems He _ IH]; intros out Hout; [done|].
  cbn [fold_left].
  destruct (IH (lexical.clean_step rooted out e)) as [H1 H2];
    [by apply clean_step_written|].
  split; [done|]. rewrite H2. by rewrite clean_step_enter.
Qed.

(** [Clean] does not change what a path names. *)
Lemma resolve_Clean (wd : list string) (p : string) :
  p <> "" -> resolve wd (lexical.Clean p) = resolve wd p.
Proof.
  intros Hp. rewrite (resolve_nonempty wd p) by done.
  unfold lexical.Clean. rewrite bool_decide_eq_false_2 by done.
  rewrite origin_absolute.
  destruct (clean_steps (absolute p) (if absolute p then [] else wd)
              (split_go p "") [])
    as [Hout Hpos]; [by destruct (absolute p) | | done |].
  { by apply split_go_noslash_elems. }
  cbn [fold_left] in Hpos. rewrite <- Hpos.
  set (out := fold_left (lexical.clean_step (absolute p)) (split_go p "") [])
    in *.
  destruct (absolute p).
  - rewrite string_app_cons, string_app_nil_l, resolve_cons. f_equal.
    change (Ascii.eqb "/" "/") with true. cbv iota.
    change (split_go (String "/" (strings.Join out "/")) "")
      with ("" :: split_go (strings.Join out "/") "").
    destruct out as [|e out]; [done|].
    rewrite split_go_Join by done. done.
  - destruct out as [|e out]; [done|].
    rewrite bool_decide_eq_false_2 by done.
    pose proof Hout as Hall. apply Forall_cons in Hout as [(He & _ & Hns) _].
    destruct (Join_first out e He) as (c & r & Heq & _ & Hc).
    pose proof (split_go_Join out e Hall) as Hsplit.
    rewrite Heq in *. rewrite resolve_cons, Hc by done.
    by rewrite Hsplit.
Qed.

(** [Join] of a path and further elements names what is reached from
    the path by following the elements. *)
Lemma resolve_Join (wd : list string) (a b : string) (ka : list string) :
  resolve wd a = Some ka ->
  resolve wd (lexical.Join [a; b])
  = Some (fold_left enter (split_go b "") ka).
Proof.
  intros Ha. pose proof (resolve_Some _ _ _ Ha) as Hne.
  cbn [lexical.Join]. rewrite bool_decide_eq_true_2 by done.
  change (strings.Join [a; b] "/") with (a +:+ "/" +:+ b).
  assert (a +:+ "/" +:+ b <> "") as Hne' by (by destruct a).
  rewrite resolve_Clean by done.
  rewrite resolve_nonempty by done.
  rewrite resolve_nonempty in Ha by done. injection Ha as <-.
  rewrite split_go_slash, fold_left_app.
  rewrite !origin_absolute, absolute_app by done. done.
Qed.

Lemma resolve_Join_name (wd : list string) (a b : string) (ka : list string) :
  resolve wd a = Some ka -> real_name b ->
  resolve wd (lexical.Join [a; b]) = Some (ka ++ [b]).
Proof.
  intros Ha (H1 & H2 & H3 & H4). rewrite (resolve_Join wd a b ka Ha).
  rewrite split_go_noslash by done. rewrite string_app_nil_l.
  cbn [fold_left]. by rewrite enter_real.
Qed.

End LexicalFacts.

Section DirFacts.

Import path.

Lemma Join_nonempty (out : list string) (e : string) :
  e <> "" -> strings.Join (e :: out) "/" <> "".
Proof.
  intros He. destruct e as [|c e]; [done|]. by destruct out.
Qed.

(** [Clean] never returns the empty path; neither does [Dir]. *)
Lemma Clean_nonempty (p : string) : lexical.Clean p <> "".
Proof.
  unfold lexical.Clean. case_bool_decide; [done|].
  destruct (absolute p) eqn:Hroot; [by rewrite string_app_cons|].
  destruct (clean_steps false [] (split_go p "") [])
    as [Hout _]; [done | by apply split_go_noslash_elems | done |].
  destruct (fold_left (lexical.clean_step false) (split_go p "") [])
    as [|e out]; [done|].
  rewrite bool_decide_eq_false_2 by done.
  apply Join_nonempty. by apply Forall_cons in Hout as [(He & _) _].
Qed.

Lemma Dir_nonempty (p : string) : (len (lexical.Dir p) =? 0) = false.
Proof. apply len_nonempty, Clean_nonempty. Qed.

End DirFacts.

(* ===================================================================== *)
(** * Properties of the copy of one file *)
(* ===================================================================== *)

Section EntryFacts.

Variable md5hex : list byte -> string.

Lemma IsFileExist_Directory (p : string) (w : world) (k : list string) :
  locate w p = Some k -> is_dir (files w) k = true ->
  IsFileExist p w = FileExistStatus_Directory.
Proof.
  intros Hk Hdir. unfold is_dir in Hdir. unfold IsFileExist, os.Stat.
  rewrite Hk. by destruct (files w !! k) as [[]|].
Qed.

Lemma IsFileExist_File (p : string) (w : world) (k : list string)
    (data : list byte) (mode mtime : Z) :
  locate w p = Some k -> files w !! k = Some (RegFile data mode mtime) ->
  IsFileExist p w = FileExistStatus_File.
Proof.
  intros Hk Hf. unfold IsFileExist, os.Stat. by rewrite Hk, Hf.
Qed.

(** Into a directory: the entry goes under the base name of the
    source. *)
Lemma CopyFile_directory (fuel : nat) (source target : string)
    (mv fh : bool) (w : world) :
  IsFileExist target w = FileExistStatus_Directory ->
  CopyFile md5hex fuel source target mv fh w
  = (CopyFileInternal md5hex fuel source
       (lexical.Join [target; lexical.Base source]) mv fh;; mret None) w.
Proof.
  intros Hst. unfold CopyFile. unfold_M.
  by rewrite bool_decide_eq_true_2.
Qed.

(** Onto a name in an existing directory. *)
Lemma CopyFile_name (fuel : nat) (source target : string)
    (mv fh : bool) (w : world) :
  IsFileExist target w <> FileExistStatus_Directory ->
  IsFileExist (lexical.Dir target) w = FileExistStatus_Directory ->
  CopyFile md5hex fuel source target mv fh w
  = (CopyFileInternal md5hex fuel source target mv fh;; mret None) w.
Proof.
  intros Hst Hdir. unfold CopyFile. unfold_M.
  rewrite bool_decide_eq_false_2 by done. rewrite Dir_nonempty.
  rewrite bool_decide_eq_false_2; [done|]. rewrite Hdir. by intros [].
Qed.

Lemma CopyFile_missing_directory (fuel : nat) (source target : string)
    (mv fh : bool) (w : world) :
  IsFileExist target w <> FileExistStatus_Directory ->
  IsFileExist (lexical.Dir target) w <> FileExistStatus_Directory ->
  CopyFile md5hex fuel source target mv fh w
  = Normal (Some (errors.New (missing_directory_text (lexical.Dir target))))
      w.
Proof.
  intros Hst Hdir. unfold CopyFile. unfold_M.
  rewrite bool_decide_eq_false_2 by done. rewrite Dir_nonempty.
  by rewrite bool_decide_eq_true_2.
Qed.

Lemma then_nil_no_error {A} (m : M A) (w w' : world) (e : error) :
  (m;; mret (@None error)) w <> Normal (Some e) w'.
Proof. unfold_M. by destruct (m w). Qed.

Lemma CopyFile_error_cases (fuel : nat) (source target : string)
    (mv fh : bool) (w w' : world) (e : error) :
  CopyFile md5hex fuel source target mv fh w = Normal (Some e) w' ->
  w' = w
  /\ e = errors.New (missing_directory_text (lexical.Dir target))
  /\ IsFileExist target w <> FileExistStatus_Directory
  /\ IsFileExist (lexical.Dir target) w <> FileExistStatus_Directory.
Proof.
  intros Hrun.
  destruct (decide (IsFileExist target w = FileExistStatus_Directory))
    as [Hst|Hst].
  { rewrite CopyFile_directory in Hrun by done.
    by apply then_nil_no_error in Hrun. }
  destruct (decide (IsFileExist (lexical.Dir target) w
                    = FileExistStatus_Directory)) as [Hdir|Hdir].
  { rewrite CopyFile_name in Hrun by done.
    by apply then_nil_no_error in Hrun. }
  rewrite CopyFile_missing_directory in Hrun by done.
  injection Hrun as <- <-. done.
Qed.

End EntryFacts.

(** [CopyFile] returns an error in one case only: the target is not an
    existing directory and the directory part of the target path is not
    one either.  It then returns in the state it was called in: nothing
    is created, copied or printed.  In every other case the result, if
    any, is nil, whatever happened to the copy.  (The fallback of an
    empty directory part to [./] is never taken: [filepath.Dir] does not
    return the empty path.) *)
Theorem CopyFile_error_is_missing_directory (md5hex : list byte -> string)
    (fuel : nat) (source target : string) (moveMode fullHashMode : bool)
    (w : world) :
  len (lexical.Dir target) <> 0
  /\ (IsFileExist target w <> FileExistStatus_Directory
      /\ IsFileExist (lexical.Dir target) w <> FileExistStatus_Directory ->
      CopyFile md5hex fuel source target moveMode fullHashMode w
      = Normal
          (Some (errors.New (missing_directory_text (lexical.Dir target)))) w)
  /\ (forall e w',
        CopyFile md5hex fuel source target moveMode fullHashMode w
        = Normal (Some e) w' ->
        w' = w
        /\ e = errors.New (missing_directory_text (lexical.Dir target))
        /\ IsFileExist target w <> FileExistStatus_Directory
        /\ IsFileExist (lexical.Dir target) w <> FileExistStatus_Directory).
Proof.
  split; [pose proof (Dir_nonempty target); lia|].
  split; [intros [Hst Hdir]; by apply CopyFile_missing_directory|].
  intros e w'. apply CopyFile_error_cases.
Qed.

Lemma CopyFile_error_is_missing_directory_witness :
  CopyFile sample_digest 10 "src/photo.jpg" "nowhere/new.jpg" false false
    photo_world
  = Normal (Some (errors.New (missing_directory_text "nowhere"))) photo_world.
Proof.
  destruct (CopyFile_error_is_missing_directory sample_digest 10
              "src/photo.jpg" "nowhere/new.jpg" false false photo_world)
    as (_ & Herr & _).
  apply Herr. split; vm_compute; discriminate.
Defined.

(** Copying a readable regular file to a path that names an existing
    directory puts the copy into that directory under the base name of
    the source path, with the bytes, permission bits and modification
    time of the source, when that name is free there and the system
    refuses nothing; no other file changes. *)
Theorem CopyFile_into_directory (md5hex : list byte -> string) (fuel : nat)
    (fullHashMode : bool) (w : world) (source target : string)
    (ks kt : list string) (data : list byte) (mode mtime : Z) :
  let name := lexical.Base source in
  locate w source = Some ks ->
  files w !! ks = Some (RegFile data mode mtime) ->
  open_denied (env w) ks = false ->
  locate w target = Some kt -> is_dir (files w) kt = true ->
  real_name name -> files w !! (kt ++ [name]) = None ->
  create_denied (env w) (kt ++ [name]) = false ->
  write_limit (env w) (kt ++ [name]) = None ->
  close_fails (env w) (kt ++ [name]) = false ->
  CopyFile md5hex fuel source target false fullHashMode w
  = Normal None
      (with_line
         (with_files w
            (<[kt ++ [name] := RegFile data mode mtime]> (files w)))
         (line_copied source (lexical.Join [target; name]))).
Proof.
  intros name Hks Hfs Hos Hkt Hdir Hname Hfree Hcr Hwr Hcl.
  rewrite CopyFile_directory by (by apply (IsFileExist_Directory _ _ kt)).
  unfold_M. fold name.
  rewrite (copy_to_free_name md5hex fuel fullHashMode w source
             (lexical.Join [target; name]) ks (kt ++ [name])
             data mode mtime); try done.
  - by apply resolve_Join_name.
  - unfold parent. by rewrite removelast_last.
Qed.

Lemma CopyFile_into_directory_witness :
  CopyFile sample_digest 0 "/src/photo.jpg" "dst/../src/.." false false
    twin_world
  = Normal None
      (with_line
         (with_files twin_world
            (<[["photo.jpg"] := RegFile (bytes "abc") 420 7]>
               (files twin_world)))
         (line_copied "/src/photo.jpg" "photo.jpg")).
Proof.
  apply (CopyFile_into_directory sample_digest 0 false twin_world
           "/src/photo.jpg" "dst/../src/.." ["src"; "photo.jpg"] []
           (bytes "abc") 420 7);
    [reflexivity | reflexivity | reflexivity | reflexivity | reflexivity
    | by repeat split | reflexivity | reflexivity | reflexivity
    | reflexivity].
Defined.

(** Moving a file onto itself deletes it.  When source and target name
    the same readable regular file, under one spelling of its path or
    two, the target exists and holds the same bytes: the move treats the
    source as a duplicate and removes it, and no file is left. *)
Theorem CopyFile_move_onto_itself (md5hex : list byte -> string)
    (fuel : nat) (fullHashMode : bool) (w : world) (source target : string)
    (k : list string) (data : list byte) (mode mtime : Z) :
  (forall d, md5hex d <> "") ->
  locate w source = Some k -> locate w target = Some k ->
  files w !! k = Some (RegFile data mode mtime) ->
  open_denied (env w) k = false ->
  remove_denied (env w) k = false -> k <> [] ->
  has_entries (files w) k = false ->
  IsFileExist (lexical.Dir target) w = FileExistStatus_Directory ->
  exists w',
    CopyFile md5hex (S fuel) source target true fullHashMode w
    = Normal None w'
    /\ files w' = delete k (files w)
    /\ IsFileExist source w' = FileExistStatus_NotExist
    /\ stdout w' = stdout w ++ [line_skipped source target].
Proof.
  intros Hne Hks Hkt Hf Hopen Hrm Hroot Hleaf Hdir.
  rewrite CopyFile_name;
    [|by rewrite (IsFileExist_File _ _ _ _ _ _ Hkt Hf) | done].
  unfold_M.
  rewrite (move_of_same_object md5hex Hne fuel fullHashMode w source target
             k data mode mtime) by done.
  eexists. split; [reflexivity|]. cbn [files stdout with_files with_line].
  split; [done|]. split; [|done].
  apply IsFileExist_NotExist. intros k'. unfold locate.
  cbn [cwd files with_line with_files]. fold (locate w source).
  rewrite Hks. intros [= <-]. apply lookup_delete_eq.
Qed.

Lemma CopyFile_move_onto_itself_witness :
  exists w',
    CopyFile sample_digest 1 "src/photo.jpg" "src/photo.jpg" true false
      photo_world = Normal None w'
    /\ files w' = delete ["src"; "photo.jpg"] (files photo_world)
    /\ IsFileExist "src/photo.jpg" w' = FileExistStatus_NotExist
    /\ stdout w'
       = stdout photo_world
         ++ [line_skipped "src/photo.jpg" "src/photo.jpg"].
Proof.
  apply (CopyFile_move_onto_itself sample_digest 0 false photo_world
           "src/photo.jpg" "src/photo.jpg" ["src"; "photo.jpg"]
           (bytes "abc") 420 7);
    [apply sample_digest_nonempty | reflexivity | reflexivity | reflexivity
    | reflexivity | reflexivity | discriminate | vm_compute; reflexivity
    | vm_compute; reflexivity].
Defined.

Section DirResolution.

Import path.

Lemma substring_snoc (s : string) (i : nat) (c : ascii) :
  String.get i s = Some c ->
  substring 0 (S i) s = substring 0 i s +:+ String c "".
Proof.
  revert i. induction s as [|x s IH]; intros [|i] H; simpl in H; try done.
  - injection H as ->. simpl. by rewrite substring_0_0.
  - change (substring 0 (S (S i)) (String x s))
      with (String x (substring 0 (S i) s)).
    change (substring 0 (S i) (String x s))
      with (String x (substring 0 i s)).
    rewrite string_app_cons. f_equal. by apply IH.
Qed.

(** Where the backward scan for a separator stops. *)
Lemma after_separator_spec (p : string) (n : nat) :
  (n <= String.length p)%nat ->
  (forall j, (n <= j)%nat -> String.get j p <> Some "/"%char) ->
  let m := lexical.after_separator p n in
  (forall j, (m <= j)%nat -> String.get j p <> Some "/"%char)
  /\ (m <= String.length p)%nat
  /\ (m = 0%nat
      \/ exists i, m = S i /\ String.get i p = Some "/"%char).
Proof.
  induction n as [|i IH]; intros Hn Hfree; simpl.
  - split; [done|]. split; [lia | by left].
  - destruct (get_lt_length p i) as [c Hc]; [lia|]. rewrite Hc.
    destruct (Ascii.eqb_spec c "/") as [->|Hslash].
    + split; [done|]. split; [lia|]. right. by exists i.
    + apply IH; [lia|]. intros j Hj.
      destruct (decide (j = i)) as [->|]; [|apply Hfree; lia].
      rewrite Hc. by intros [= ->].
Qed.

(** A path is its directory part, which is empty or ends in a
    separator, followed by its last element. *)
Lemma dir_part_split (p : string) :
  let s := substring 0 (lexical.after_separator p (String.length p)) p in
  exists t, p = s +:+ t /\ noslash t = true
            /\ (s = "" \/ exists s', s = s' +:+ "/").
Proof.
  destruct (after_separator_spec p (String.length p)) as (Hfree & Hle & Hm);
    [done | by intros j Hj; rewrite get_ge_length |].
  set (m := lexical.after_separator p (String.length p)) in *.
  exists (slice_from p m). split; [|split].
  - symmetry. by apply substring_split.
  - by apply slice_from_noslash.
  - destruct Hm as [-> | (i & -> & Hi)].
    + left. apply substring_0_0.
    + right. exists (substring 0 i p). by apply substring_snoc.
Qed.

Lemma origin_app (wd : list string) (s t : string) :
  s <> "" -> origin wd (s +:+ t) = origin wd s.
Proof. by destruct s. Qed.

Lemma origin_noslash (wd : list string) (t : string) :
  noslash t = true -> origin wd t = wd.
Proof.
  destruct t as [|c t]; [done|]. simpl. intros H.
  apply andb_true_iff in H as [H _]. apply negb_true_iff in H.
  by rewrite H.
Qed.

(** [Dir] names the place reached by all elements of the path but the
    last. *)
Lemma resolve_Dir (wd : list string) (p : string) :
  resolve wd (lexical.Dir p)
  = Some (fold_left enter (removelast (split_go p "")) (origin wd p)).
Proof.
  unfold lexical.Dir.
  destruct (dir_part_split p) as (t & Hp & Ht & Hs).
  set (s := substring 0 (lexical.after_separator p (String.length p)) p)
    in *.
  rewrite Hp. destruct Hs as [-> | [s' Hs']].
  - rewrite string_app_nil_l, split_go_noslash, origin_noslash by done.
    done.
  - assert (s <> "") as Hne by (rewrite Hs'; by destruct s').
    assert (split_go s "" = split_go s' "" ++ [""]) as Hsplit.
    { rewrite Hs'. change (s' +:+ "/") with (s' +:+ "/" +:+ "").
      by rewrite split_go_slash. }
    assert (split_go (s +:+ t) "" = split_go s' "" ++ [t]) as Hsplit'.
    { rewrite Hs', string_app_assoc, split_go_slash.
      by rewrite (split_go_noslash t). }
    rewrite resolve_Clean, resolve_nonempty by done.
    rewrite origin_app by done. rewrite Hsplit, Hsplit', removelast_last.
    by rewrite fold_left_snoc, enter_skip by auto.
Qed.

(** The elements of a cleaned path. *)
Lemma split_go_Clean (p : string) :
  p <> "" ->
  let out := fold_left (lexical.clean_step (absolute p)) (split_go p "") [] in
  out <> [] ->
  split_go (lexical.Clean p) "" = (if absolute p then [""] else []) ++ out
  /\ origin [] (lexical.Clean p) = [] /\
  forall wd, origin wd (lexical.Clean p) = origin wd p.
Proof.
  intros Hp out Hout. unfold lexical.Clean.
  rewrite bool_decide_eq_false_2 by done. fold out.
  destruct (clean_steps (absolute p) [] (split_go p "") [])
    as [Hall _]; [done | by apply split_go_noslash_elems | done |].
  fold out in Hall. destruct out as [|e out']; [done|].
  destruct (absolute p) eqn:Hroot.
  - rewrite string_app_cons, string_app_nil_l.
    split; [|split; [done|]].
    + change (split_go (String "/" (strings.Join (e :: out') "/")) "")
        with ("" :: split_go (strings.Join (e :: out') "/") "").
      by rewrite split_go_Join.
    + intros wd. rewrite (origin_absolute wd p), Hroot. done.
  - rewrite bool_decide_eq_false_2 by done.
    split; [by rewrite split_go_Join|]. split.
    + by destruct (strings.Join (e :: out') "/") as [|c r];
        [|simpl; destruct (Ascii.eqb c "/")].
    + intros wd. rewrite (origin_absolute wd p), Hroot.
      pose proof Hall as Hall'.
      apply Forall_cons in Hall' as [(He & _ & Hns) _].
      destruct (Join_first out' e He) as (c & r & -> & _ & Hc).
      simpl. by rewrite Hc.
Qed.

Lemma clean_step_names (rooted : bool) (names out : list string) :
  Forall real_name names ->
  fold_left (lexical.clean_step rooted) names out = out ++ names.
Proof.
  intros Hnames. revert out.
  induction Hnames as [|e names (H1 & H2 & H3 & _) _ IH]; intros out.
  - by rewrite app_nil_r.
  - cbn [fold_left]. rewrite IH. unfold lexical.clean_step.
    rewrite bool_decide_eq_false_2 by (intros [|]; done).
    rewrite bool_decide_eq_false_2 by done.
    by rewrite <- app_assoc.
Qed.

Lemma fold_enter_names (names at_ : list string) :
  Forall real_name names -> fold_left enter names at_ = at_ ++ names.
Proof.
  intros Hnames. revert at_.
  induction Hnames as [|e names (H1 & H2 & H3 & _) _ IH]; intros at_.
  - by rewrite app_nil_r.
  - cbn [fold_left]. rewrite IH, enter_real by done.
    by rewrite <- app_assoc.
Qed.

(** A relative path made of names, joined to a directory: where it
    leads, and where its directory part leads. *)
Lemma resolve_Join_names (wd : list string) (a rel : string)
    (ka : list string) :
  resolve wd a = Some ka -> Forall real_name (split_go rel "") ->
  resolve wd (lexical.Join [a; rel]) = Some (ka ++ split_go rel "")
  /\ resolve wd (lexical.Dir (lexical.Join [a; rel]))
     = Some (ka ++ removelast (split_go rel "")).
Proof.
  intros Ha Hnames. split.
  { rewrite (resolve_Join wd a rel ka Ha). by rewrite fold_enter_names. }
  pose proof (resolve_Some _ _ _ Ha) as Hne.
  rewrite resolve_Dir.
  cbn [lexical.Join]. rewrite bool_decide_eq_true_2 by done.
  change (strings.Join [a; rel] "/") with (a +:+ "/" +:+ rel).
  assert (a +:+ "/" +:+ rel <> "") as Hne' by (by destruct a).
  assert (absolute (a +:+ "/" +:+ rel) = absolute a) as Habs
    by (by apply absolute_app).
  set (out_a := fold_left (lexical.clean_step (absolute a)) (split_go a "") []).
  assert (fold_left (lexical.clean_step (absolute (a +:+ "/" +:+ rel)))
            (split_go (a +:+ "/" +:+ rel) "") []
          = out_a ++ split_go rel "") as Hout.
  { rewrite Habs, split_go_slash, fold_left_app.
    by apply clean_step_names. }
  pose proof (split_go_nonempty rel "") as Hrel.
  destruct (split_go_Clean (a +:+ "/" +:+ rel) Hne') as (Hsplit & _ & Horigin).
  { rewrite Hout. intros E. apply app_eq_nil in E as [_ E]. done. }
  rewrite Hsplit, Horigin, Hout, Habs. f_equal.
  destruct (clean_steps (absolute a) (origin wd a) (split_go a "") [])
    as [_ Hpos]; [| by apply split_go_noslash_elems | done |].
  { rewrite origin_absolute. by intros ->. }
  cbn [fold_left] in Hpos. fold out_a in Hpos.
  rewrite resolve_nonempty in Ha by done. injection Ha as Ha.
  rewrite Ha in Hpos. rewrite origin_app by done.
  destruct (split_go rel "") as [|x names] using rev_ind; [done|].
  rewrite removelast_last.
  rewrite !app_assoc, removelast_last.
  apply Forall_app in Hnames as [Hnames _].
  rewrite fold_left_app, fold_left_app.
  assert (fold_left enter out_a
            (fold_left enter (if absolute a then [""] else []) (origin wd a))
          = ka) as ->.
  { destruct (absolute a); [|done]. cbn [fold_left].
    by rewrite enter_skip by auto. }
  by apply fold_enter_names.
Qed.

End DirResolution.

(* ===================================================================== *)
(** * Properties of a worker's job *)
(* ===================================================================== *)

Section JobFacts.

Variable md5hex : list byte -> string.

Lemma slice_from_app (a b : string) :
  slice_from (a +:+ b) (String.length a) = b.
Proof.
  unfold slice_from. rewrite string_length_app.
  replace (String.length a + String.length b - String.length a)%nat
    with (String.length b) by lia.
  induction a as [|c a IH]; [apply substring_all|].
  by rewrite string_app_cons.
Qed.

(** The relative path of a job: the bytes behind the source path and one
    more byte. *)
Lemma relative_of_job (source rest : string) (c : ascii) :
  len source + 1 < 2 ^ 63 ->
  slice_from_checked (source +:+ String c rest) (wrap64 (len source + 1))
  = Some rest.
Proof.
  intros Hsmall. unfold slice_from_checked, len in *.
  rewrite wrap64_small by lia.
  rewrite string_length_app. cbn [String.length].
  assert ((0 <=? Z.of_nat (String.length source) + 1)
          && (Z.of_nat (String.length source) + 1
              <=? Z.of_nat (String.length source + S (String.length rest)))
          = true) as ->
    by (apply andb_true_iff; split; apply Z.leb_le; lia).
  f_equal.
  replace (Z.to_nat (Z.of_nat (String.length source) + 1))
    with (String.length (source +:+ String c "")).
  - change (String c rest) with (String c "" +:+ rest).
    rewrite <- string_app_assoc. apply slice_from_app.
  - rewrite string_length_app. simpl. lia.
Qed.

Lemma copyJob_sliced (fuel : nat) (source target rest : string) (c : ascii)
    (mv fh : bool) (i : FileInfo) (w : world) :
  len source + 1 < 2 ^ 63 ->
  copyJob md5hex fuel source target mv fh
    (mkFileEntry (source +:+ String c rest) i) w
  = (err ← CopyFile md5hex fuel (source +:+ String c rest)
             (lexical.Join [target; rest]) mv fh;
     match err with
     | Some _ => fmt.Printf (copy_failed_text (source +:+ String c rest))
     | None => mret tt
     end) w.
Proof.
  intros Hsmall. unfold copyJob. cbn [path].
  by rewrite relative_of_job.
Qed.

(** Where a job puts its copy: under the target directory, at the place
    the relative path leads to. *)
Lemma copyJob_places (fuel : nat) (fh : bool) (w : world)
    (source target rest : string) (c : ascii) (i : FileInfo)
    (ks kt : list string) (data : list byte) (mode mtime : Z) :
  len source + 1 < 2 ^ 63 ->
  let p := source +:+ String c rest in
  let names := path.split_go rest "" in
  locate w p = Some ks -> files w !! ks = Some (RegFile data mode mtime) ->
  open_denied (env w) ks = false ->
  locate w target = Some kt -> Forall real_name names ->
  files w !! (kt ++ names) = None ->
  is_dir (files w) (kt ++ removelast names) = true ->
  create_denied (env w) (kt ++ names) = false ->
  write_limit (env w) (kt ++ names) = None ->
  close_fails (env w) (kt ++ names) = false ->
  copyJob md5hex fuel source target false fh (mkFileEntry p i) w
  = Normal tt
      (with_line
         (with_files w
            (<[kt ++ names := RegFile data mode mtime]> (files w)))
         (line_copied p (lexical.Join [target; rest]))).
Proof.
  intros Hsmall p names Hks Hfs Hos Hkt Hnames Hfree Hdir Hcr Hwr Hcl.
  subst p. rewrite copyJob_sliced by done.
  set (p := source +:+ String c rest) in *. unfold_M.
  destruct (resolve_Join_names (cwd w) target rest kt Hkt Hnames)
    as [Hplace Hparent].
  fold names in Hplace, Hparent.
  assert (parent (kt ++ names) = kt ++ removelast names) as Hpar.
  { unfold parent. pose proof (split_go_nonempty rest "") as Hne.
    fold names in Hne.
    destruct names as [|x names _] using rev_ind; [done|].
    by rewrite app_assoc, !removelast_last. }
  rewrite CopyFile_name.
  - unfold_M.
    rewrite (copy_to_free_name md5hex fuel fh w p
               (lexical.Join [target; rest]) ks (kt ++ names)
               data mode mtime); try done.
    by rewrite Hpar.
  - intros Hst. apply (f_equal (fun s => bool_decide
                                  (s = FileExistStatus_NotExist))) in Hst.
    rewrite (bool_decide_eq_true_2 _
               (free_at (lexical.Join [target; rest]) w _ Hplace Hfree))
      in Hst. done.
  - by apply (IsFileExist_Directory _ _ (kt ++ removelast names)).
Qed.

End JobFacts.

(** The copies mirror the source tree.  For a source directory given
    without a trailing separator, a job for the file at [source/rel],
    where [rel] is made of entry names, puts the copy at the place [rel]
    leads to from the target directory, with the bytes, permission bits
    and modification time of the file, provided that name is free, its
    directory exists and the system refuses nothing. *)
Theorem copyJob_mirrors (md5hex : list byte -> string) (fuel : nat)
    (fullHashMode : bool) (w : world) (source target rel : string)
    (fi : FileInfo) (ks kt : list string) (data : list byte)
    (mode mtime : Z) :
  len source + 1 < 2 ^ 63 ->
  let names := path.split_go rel "" in
  Forall real_name names ->
  locate w source = Some ks -> locate w target = Some kt ->
  files w !! (ks ++ names) = Some (RegFile data mode mtime) ->
  open_denied (env w) (ks ++ names) = false ->
  files w !! (kt ++ names) = None ->
  is_dir (files w) (kt ++ removelast names) = true ->
  create_denied (env w) (kt ++ names) = false ->
  write_limit (env w) (kt ++ names) = None ->
  close_fails (env w) (kt ++ names) = false ->
  exists w',
    copyJob md5hex fuel source target false fullHashMode
      (mkFileEntry (source +:+ "/" +:+ rel) fi) w = Normal tt w'
    /\ files w' = <[kt ++ names := RegFile data mode mtime]> (files w).
Proof.
  intros Hsmall names Hnames Hks Hkt Hfs Hos Hfree Hdir Hcr Hwr Hcl.
  assert (locate w (source +:+ String "/" rel) = Some (ks ++ names)) as Hp;
    [|eexists; split;
      [change (source +:+ "/" +:+ rel) with (source +:+ String "/" rel);
       by apply (copyJob_places md5hex fuel fullHashMode w source target rel
                   "/" fi (ks ++ names) kt data mode mtime)
      |reflexivity]].
  pose proof (resolve_Some _ _ _ Hks) as Hne.
  assert (source +:+ String "/" rel <> "") as Hne' by (by destruct source).
  unfold locate in *. rewrite resolve_nonempty by done.
  rewrite resolve_nonempty in Hks by done. injection Hks as Hks.
  change (source +:+ String "/" rel) with (source +:+ "/" +:+ rel).
  rewrite split_go_slash, fold_left_app, origin_app, Hks by done.
  by rewrite fold_enter_names.
Qed.

(** A source directory given with a trailing separator makes the copies
    lose the first byte of their names.  The walk passes the path
    [dir/name] for the entry [name] of the source [dir/]; the job cuts
    the length of the source and one more byte off it, and so puts the
    copy under the rest of the name. *)
Theorem copyJob_trailing_separator (md5hex : list byte -> string)
    (fuel : nat) (fullHashMode : bool) (w : world)
    (dir target rest : string) (c : ascii) (fi : FileInfo)
    (ks kt : list string) (data : list byte) (mode mtime : Z) :
  let source := dir +:+ "/" in
  let name := String c rest in
  len source + 1 < 2 ^ 63 ->
  walked source name = dir +:+ "/" +:+ name ->
  locate w (walked source name) = Some ks ->
  files w !! ks = Some (RegFile data mode mtime) ->
  open_denied (env w) ks = false ->
  locate w target = Some kt -> is_dir (files w) kt = true ->
  real_name rest -> files w !! (kt ++ [rest]) = None ->
  create_denied (env w) (kt ++ [rest]) = false ->
  write_limit (env w) (kt ++ [rest]) = None ->
  close_fails (env w) (kt ++ [rest]) = false ->
  exists w',
    copyJob md5hex fuel source target false fullHashMode
      (mkFileEntry (walked source name) fi) w = Normal tt w'
    /\ files w' = <[kt ++ [rest] := RegFile data mode mtime]> (files w).
Proof.
  intros source name Hsmall Hwalk Hks Hfs Hos Hkt Hdir Hrest Hfree Hcr Hwr
    Hcl.
  rewrite Hwalk in *.
  assert (path.split_go rest "" = [rest]) as Hsplit.
  { destruct Hrest as (_ & _ & _ & Hns).
    by rewrite split_go_noslash. }
  replace (dir +:+ "/" +:+ name) with (source +:+ String c rest)
    in * by (subst source name; by rewrite string_app_assoc).
  pose proof (copyJob_places md5hex fuel fullHashMode w source target rest c
                fi ks kt data mode mtime Hsmall) as Hjob.
  cbv zeta in Hjob. rewrite Hsplit in Hjob.
  eexists. split;
    [apply Hjob; try done; [by constructor | by rewrite app_nil_r]
    |reflexivity].
Qed.

(** A job whose path is not longer than the source path ends in a
    run-time panic: the relative path is cut out of bounds.  The walk
    passes such paths when cleaning shortens the source path, as for the
    source [./]. *)
Theorem copyJob_short_path_panics (md5hex : list byte -> string)
    (fuel : nat) (source target : string) (moveMode fullHashMode : bool)
    (job : fileEntry) (w : world) :
  len source + 1 < 2 ^ 63 ->
  len (path job) <= len source ->
  copyJob md5hex fuel source target moveMode fullHashMode job w
  = Panic slice_bounds.
Proof.
  intros Hsmall Hshort. unfold copyJob, slice_from_checked.
  rewrite wrap64_small by (unfold len in *; lia).
  assert ((len source + 1 <=? len (path job)) = false) as ->
    by (apply Z.leb_gt; lia).
  by rewrite andb_false_r.
Qed.

Lemma copyJob_mirrors_witness :
  exists w',
    copyJob sample_digest 0 "src" "dst" false false
      (mkFileEntry "src/photo.jpg" (info_of (RegFile (bytes "abc") 420 7)))
      twin_world = Normal tt w'
    /\ files w'
       = <[["dst"; "photo.jpg"] := RegFile (bytes "abc") 420 7]>
           (files twin_world).
Proof.
  apply (copyJob_mirrors sample_digest 0 false twin_world "src" "dst"
           "photo.jpg" (info_of (RegFile (bytes "abc") 420 7))
           ["src"] ["dst"] (bytes "abc") 420 7);
    [vm_compute; reflexivity
    | repeat constructor; done
    | reflexivity | reflexivity | reflexivity | reflexivity | reflexivity
    | reflexivity | reflexivity | reflexivity | reflexivity].
Defined.

Lemma copyJob_trailing_separator_witness :
  walked "src/" "photo.jpg" = "src/photo.jpg"
  /\ exists w',
       copyJob sample_digest 0 "src/" "dst" false false
         (mkFileEntry "src/photo.jpg"
            (info_of (RegFile (bytes "abc") 420 7)))
         twin_world = Normal tt w'
       /\ files w'
          = <[["dst"; "hoto.jpg"] := RegFile (bytes "abc") 420 7]>
              (files twin_world).
Proof.
  split; [vm_compute; reflexivity|].
  apply (copyJob_trailing_separator sample_digest 0 false twin_world
           "src" "dst" "hoto.jpg" "p" (info_of (RegFile (bytes "abc") 420 7))
           ["src"; "photo.jpg"] ["dst"] (bytes "abc") 420 7);
    [vm_compute; reflexivity | vm_compute; reflexivity
    | reflexivity | reflexivity | reflexivity | reflexivity | reflexivity
    | by repeat split | reflexivity | reflexivity | reflexivity
    | reflexivity].
Defined.

Lemma copyJob_short_path_panics_witness :
  walked "./" "a" = "a"
  /\ copyJob sample_digest 0 "./" "dst" false false
       (mkFileEntry (walked "./" "a") (info_of (RegFile (bytes "abc") 420 7)))
       twin_world
     = Panic slice_bounds.
Proof.
  split; [vm_compute; reflexivity|].
  apply (copyJob_short_path_panics sample_digest 0 "./" "dst" false false
           (mkFileEntry (walked "./" "a")
              (info_of (RegFile (bytes "abc") 420 7))) twin_world);
    vm_compute; [reflexivity | discriminate].
Defined.

(* ===================================================================== *)
(** * Properties of the command line of pcopy *)
(* ===================================================================== *)

Section ArgumentFacts.

Lemma first_byte (arg : string) :
  arg <> "" ->
  exists first, slice_to_checked arg 1 = Some first
                /\ String.eqb first "-" = dashed arg.
Proof.
  destruct arg as [|c r]; [done|]. intros _.
  exists (String c ""). unfold slice_to_checked, len, slice_to.
  cbn [String.length].
  assert ((0 <=? 1) && (1 <=? Z.of_nat (S (String.length r))) = true) as ->
    by (apply andb_true_iff; split; apply Z.leb_le; lia).
  split.
  - f_equal. change (Z.to_nat 1) with 1%nat. simpl. by rewrite substring_0_0.
  - simpl. by destruct (Ascii.eqb c "-").
Qed.

Lemma empty_argument : slice_to_checked "" 1 = None.
Proof. reflexivity. Qed.

Lemma with_options_nil (g : pcopy.globals) : with_options g [] = g.
Proof.
  destruct g. unfold with_options. cbn.
  by rewrite !orb_false_r.
Qed.

Lemma bool_decide_cons_eq (a : string) (args : list string) :
  bool_decide (a ∈ a :: args) = true.
Proof. apply bool_decide_eq_true. by left. Qed.

Lemma bool_decide_cons_ne (a b : string) (args : list string) :
  a <> b -> bool_decide (a ∈ b :: args) = bool_decide (a ∈ args).
Proof.
  intros Hne. apply bool_decide_ext. rewrite elem_of_cons. tauto.
Qed.

Lemma not_an_option (arg : string) :
  arg <> "-m" -> arg <> "-f" -> arg <> "-r" -> arg ∉ pcopy_options.
Proof.
  intros H1 H2 H3 H. unfold pcopy_options in H.
  rewrite !elem_of_cons, elem_of_nil in H. tauto.
Qed.

Lemma an_option (arg : string) :
  arg = "-m" \/ arg = "-f" \/ arg = "-r" -> arg ∈ pcopy_options.
Proof.
  intros H. unfold pcopy_options. rewrite !elem_of_cons. tauto.
Qed.

(** The loop stops at the first request for help, or at the first empty
    argument. *)
Lemma parseArgs_loop_app (pre args : list string) (st : pcopy.scanned)
    (w : world) :
  plain pre ->
  pcopy.parseArgs_loop (pre ++ args) st w
  = pcopy.parseArgs_loop args
      (pcopy.mkScanned (with_options (pcopy.vars st) pre)
         (pcopy.remainder st ++ positional pre)
         (pcopy.invalidArg st ++ unknown_options pcopy_options pre)) w.
Proof.
  intros Hplain. revert st.
  induction Hplain as [|arg pre [Hne Hhelp] Hpre IH]; intros st.
  - unfold positional, unknown_options.
    rewrite !filter_nil, !app_nil_r, with_options_nil. by destruct st.
  - cbn [app pcopy.parseArgs_loop].
    rewrite bool_decide_eq_false_2 by done.
    unfold positional, unknown_options in *.
    case_bool_decide as Hm; [|case_bool_decide as Hf;
                               [|case_bool_decide as Hr]].
    + subst arg. rewrite IH. cbn [pcopy.vars pcopy.remainder pcopy.invalidArg].
      rewrite filter_cons_False by (by intros [=]).
      rewrite filter_cons_False by (intros [_ H]; apply H, an_option; auto).
      do 2 f_equal. unfold with_options, pcopy.set_moveMode. cbn.
      rewrite bool_decide_cons_eq, !bool_decide_cons_ne by done.
      by rewrite orb_true_r.
    + subst arg. rewrite IH. cbn [pcopy.vars pcopy.remainder pcopy.invalidArg].
      rewrite filter_cons_False by (by intros [=]).
      rewrite filter_cons_False by (intros [_ H]; apply H, an_option; auto).
      do 2 f_equal. unfold with_options, pcopy.set_fullHashMode. cbn.
      rewrite bool_decide_cons_eq, !bool_decide_cons_ne by done.
      by rewrite orb_true_r.
    + subst arg. rewrite IH. cbn [pcopy.vars pcopy.remainder pcopy.invalidArg].
      rewrite filter_cons_False by (by intros [=]).
      rewrite filter_cons_False by (intros [_ H]; apply H, an_option; auto).
      do 2 f_equal. unfold with_options, pcopy.set_recursiveMode. cbn.
      rewrite bool_decide_cons_eq, !bool_decide_cons_ne by done.
      by rewrite orb_true_r.
    + destruct (first_byte arg Hne) as (first & -> & ->).
      assert (with_options (pcopy.vars st) (arg :: pre)
              = with_options (pcopy.vars st) pre) as Hsame.
      { unfold with_options. by rewrite !bool_decide_cons_ne by done. }
      destruct (dashed arg) eqn:Hdash.
      * rewrite IH. cbn [pcopy.vars pcopy.remainder pcopy.invalidArg].
        rewrite filter_cons_False by (by rewrite Hdash).
        rewrite filter_cons_True by (split; [done | by apply not_an_option]).
        by rewrite Hsame, <- app_assoc.
      * rewrite IH. cbn [pcopy.vars pcopy.remainder pcopy.invalidArg].
        rewrite filter_cons_True by done.
        rewrite filter_cons_False by (by rewrite Hdash; intros [[=] _]).
        by rewrite Hsame, <- app_assoc.
Qed.

(** The loop in closed form: the options set their variables wherever
    they stand and however often; the other arguments are collected in
    their order. *)
Lemma parseArgs_loop_plain (args : list string) (st : pcopy.scanned)
    (w : world) :
  plain args ->
  pcopy.parseArgs_loop args st w
  = Normal
      (Return
         (pcopy.mkScanned (with_options (pcopy.vars st) args)
            (pcopy.remainder st ++ positional args)
            (pcopy.invalidArg st ++ unknown_options pcopy_options args))) w.
Proof.
  intros Hplain. rewrite <- (app_nil_r args) at 1.
  by rewrite parseArgs_loop_app.
Qed.

End ArgumentFacts.

Section ParseFacts.

(** [parseArgs] on arguments its loop runs through, in closed form. *)
Lemma parseArgs_plain (args : list string) (g : pcopy.globals) (w : world) :
  plain args ->
  let paths := positional args in
  let invalid :=
    unknown_options pcopy_options args ++ take (length paths - 2) paths in
  pcopy.parseArgs args g w
  = Normal
      (Return
         (if (length paths <? 2)%nat then
            (with_options g args,
             Some (pcopy.shortUsage pcopy.too_few_text))
          else if bool_decide (invalid <> []) then
            (with_options g args,
             Some (pcopy.shortUsage (pcopy.unrecognized_text invalid)))
          else
            (pcopy.set_paths (with_options g args)
               (default "" (paths !! 0%nat)) (default "" (paths !! 1%nat)),
             None))) w.
Proof.
  intros Hplain paths invalid. unfold pcopy.parseArgs. unfold_M.
  rewrite parseArgs_loop_plain by done.
  cbn [pcopy.vars pcopy.remainder pcopy.invalidArg app]. fold paths.
  destruct (Nat.ltb_spec (length paths) 2) as [Hfew|Hfew].
  { assert ((Z.of_nat (length paths) <? 2) = true) as -> by lia. done. }
  assert ((Z.of_nat (length paths) <? 2) = false) as -> by lia.
  assert ((if 2 <? Z.of_nat (length paths)
           then unknown_options pcopy_options args
                ++ take (length paths - 2) paths
           else unknown_options pcopy_options args) = invalid) as ->.
  { subst invalid. destruct (Z.ltb_spec 2 (Z.of_nat (length paths))); [done|].
    replace (length paths - 2)%nat with 0%nat by lia.
    by rewrite take_0, app_nil_r. }
  clearbody invalid. destruct invalid as [|x rest].
  - rewrite bool_decide_eq_false_2 by (by intros H).
    cbn [length Z.of_nat Z.ltb Z.compare].
    destruct paths as [|s [|t more]]; simpl in Hfew; try lia. done.
  - rewrite bool_decide_eq_true_2 by done.
    assert ((0 <? Z.of_nat (length (x :: rest))) = true) as ->
      by (apply Z.ltb_lt; rewrite length_cons; lia).
    done.
Qed.

(** Either the command line is rejected with an error, or it holds
    exactly two paths and no unknown option. *)
Lemma pcopy_parse_cases (args : list string) (g : pcopy.globals) (w : world) :
  plain args ->
  (exists g' e,
     pcopy.parseArgs args g w = Normal (Return (g', Some e)) w
     /\ forall s t, ~ (positional args = [s; t]
                       /\ unknown_options pcopy_options args = []))
  \/ (exists s t,
        pcopy.parseArgs args g w
        = Normal (Return (pcopy.set_paths (with_options g args) s t, None)) w
        /\ positional args = [s; t]
        /\ unknown_options pcopy_options args = []).
Proof.
  intros Hplain. rewrite (parseArgs_plain args g w Hplain). cbv zeta.
  destruct (Nat.ltb_spec (length (positional args)) 2) as [Hfew|Hmany].
  { left. eexists _, _. split; [done|]. intros s t [Hp _].
    rewrite Hp in Hfew. simpl in Hfew. lia. }
  set (invalid := unknown_options pcopy_options args
                  ++ take (length (positional args) - 2) (positional args)).
  destruct (decide (invalid = [])) as [Hnil|Hinvalid].
  - right. rewrite bool_decide_eq_false_2 by (by intros H).
    apply app_eq_nil in Hnil as [Hunknown Hextra].
    destruct (positional args) as [|s [|t [|u rest]]]; simpl in Hmany;
      try lia; [|done].
    by exists s, t.
  - left. rewrite bool_decide_eq_true_2 by done.
    eexists _, _. split; [done|]. intros s t [Hp Hu]. apply Hinvalid.
    subst invalid. by rewrite Hp, Hu.
Qed.

End ParseFacts.

(** How [pcopy] reads its command line, when no argument is empty and
    none asks for help.  The options [-m], [-f] and [-r] may stand
    anywhere and be repeated.  With fewer than two other arguments the
    call is rejected as having too few, whatever else is wrong with it.
    Otherwise it is rejected when an argument starts with a dash and is
    not an option, or when more than two arguments do not: the message
    lists the former and then all but the last two of the latter.  In
    the remaining case the two arguments become source and target. *)
Theorem pcopy_parseArgs_accepts (args : list string) (g : pcopy.globals)
    (w : world) :
  plain args ->
  let paths := positional args in
  let invalid :=
    unknown_options pcopy_options args ++ take (length paths - 2) paths in
  ((length paths < 2)%nat ->
   pcopy.parseArgs args g w
   = Normal (Return (with_options g args,
                     Some (pcopy.shortUsage pcopy.too_few_text))) w)
  /\ ((2 <= length paths)%nat -> invalid <> [] ->
      pcopy.parseArgs args g w
      = Normal (Return (with_options g args,
                        Some (pcopy.shortUsage
                                (pcopy.unrecognized_text invalid)))) w)
  /\ (forall s t,
        paths = [s; t] -> unknown_options pcopy_options args = [] ->
        pcopy.parseArgs args g w
        = Normal (Return (pcopy.set_paths (with_options g args) s t, None))
            w)
  /\ (forall g' w',
        pcopy.parseArgs args g w = Normal (Return (g', None)) w' ->
        exists s t, paths = [s; t]
                    /\ unknown_options pcopy_options args = []).
Proof.
  intros Hplain paths invalid.
  pose proof (parseArgs_plain args g w Hplain) as Hrun.
  cbv zeta in Hrun. fold paths in Hrun. fold invalid in Hrun.
  split; [|split; [|split]].
  - intros Hfew. rewrite Hrun.
    by rewrite (proj2 (Nat.ltb_lt _ _) Hfew).
  - intros Hmany Hinvalid. rewrite Hrun.
    rewrite (proj2 (Nat.ltb_ge _ _) Hmany).
    by rewrite bool_decide_eq_true_2.
  - intros s t Hpaths Hunknown. rewrite Hrun. subst invalid.
    rewrite Hpaths, Hunknown. done.
  - intros g' w'. rewrite Hrun.
    destruct (Nat.ltb_spec (length paths) 2) as [Hfew|Hmany]; [done|].
    destruct (decide (invalid = [])) as [Hnil|Hinvalid];
      [|by rewrite bool_decide_eq_true_2].
    intros _. apply app_eq_nil in Hnil as [Hunknown Hextra].
    destruct paths as [|s [|t [|u rest]]]; simpl in Hmany; try lia.
    + by exists s, t.
    + done.
Qed.

Lemma pcopy_parseArgs_accepts_witness :
  pcopy.parseArgs ["a.jpg"; "-r"; "out"; "-m"; "-r"] pcopy.initial photo_world
  = Normal
      (Return
         ({| pcopy.moveMode := true; pcopy.fullHashMode := false;
             pcopy.recursiveMode := true; pcopy.source := "a.jpg";
             pcopy.target := "out" |}, None)) photo_world
  /\ pcopy.parseArgs ["-x"; "a"; "b"; "c"; "d"] pcopy.initial photo_world
     = Normal
         (Return
            (pcopy.initial,
             Some (pcopy.shortUsage
                     "pcopy: error: unrecognized arguments: -x a b")))
         photo_world.
Proof.
  destruct (pcopy_parseArgs_accepts ["a.jpg"; "-r"; "out"; "-m"; "-r"]
              pcopy.initial photo_world) as (_ & _ & Hok & _);
    [by vm_compute; repeat constructor; intuition discriminate|].
  destruct (pcopy_parseArgs_accepts ["-x"; "a"; "b"; "c"; "d"]
              pcopy.initial photo_world) as (_ & Hbad & _);
    [by vm_compute; repeat constructor; intuition discriminate|].
  split.
  - apply (Hok "a.jpg" "out"); reflexivity.
  - apply Hbad; [vm_compute; lia | discriminate].
Defined.

(** The loop of [parseArgs] stops at the first argument that asks for
    help or is empty, whatever stands behind it.  At [-h] or [--help] it
    prints the long usage and ends the process with status 0, without
    reporting what was wrong before; at an empty argument it ends in a
    run-time panic, when it cuts the first byte off the argument. *)
Theorem pcopy_parseArgs_stops (pre post : list string) (g : pcopy.globals)
    (w : world) :
  plain pre ->
  (forall arg, is_help arg ->
     exists w',
       pcopy.parseArgs (pre ++ arg :: post) g w = Normal (Exit 0) w'
       /\ pcopy.longUsage w = Normal tt w' /\ files w' = files w)
  /\ pcopy.parseArgs (pre ++ "" :: post) g w = Panic slice_bounds.
Proof.
  intros Hplain. split.
  - intros arg Hhelp. eexists. unfold pcopy.parseArgs. unfold_M.
    rewrite parseArgs_loop_app by done. cbn [pcopy.parseArgs_loop].
    rewrite bool_decide_eq_true_2 by done.
    split; [reflexivity|]. split; reflexivity.
  - unfold pcopy.parseArgs. unfold_M.
    rewrite parseArgs_loop_app by done. cbn [pcopy.parseArgs_loop].
    rewrite bool_decide_eq_false_2 by (by intros [|]).
    by rewrite !bool_decide_eq_false_2 by done.
Qed.

Lemma pcopy_parseArgs_stops_witness :
  (exists w',
     pcopy.parseArgs ["-x"; "--help"; ""] pcopy.initial photo_world
     = Normal (Exit 0) w')
  /\ pcopy.parseArgs ["a.jpg"; ""; "-h"] pcopy.initial photo_world
     = Panic slice_bounds.
Proof.
  split.
  - destruct (pcopy_parseArgs_stops ["-x"] [""] pcopy.initial photo_world)
      as [Hhelp _];
      [by vm_compute; repeat constructor; intuition discriminate|].
    destruct (Hhelp "--help") as (w' & Hrun & _); [by right|].
    by exists w'.
  - destruct (pcopy_parseArgs_stops ["a.jpg"] ["-h"] pcopy.initial
                photo_world) as [_ Hpanic];
      [by vm_compute; repeat constructor; intuition discriminate|].
    exact Hpanic.
Defined.

Section MainFacts.

Variable md5hex : list byte -> string.
Variable walkAndWork :
  Z -> string -> string -> bool -> bool -> bool -> M (list string).
Variable Error : error -> string.

Lemma FileExistStatus_cases (p : string) (w : world) :
  IsFileExist p w = FileExistStatus_NotExist
  \/ IsFileExist p w = FileExistStatus_File
  \/ IsFileExist p w = FileExistStatus_Directory.
Proof. destruct (IsFileExist p w); auto. Qed.

(** What [main] does once the command line is accepted. *)
Lemma main_accepted (fuel : nat) (args : list string) (g : pcopy.globals)
    (w : world) :
  pcopy.parseArgs args pcopy.initial w = Normal (Return (g, None)) w ->
  pcopy.main md5hex walkAndWork Error fuel args w
  = match IsFileExist (pcopy.source g) w with
    | FileExistStatus_NotExist =>
        Normal 1
          (with_line w
             (Sprintln
                (Error (pcopy.shortUsage
                          (pcopy.missing_source_text (pcopy.source g))))))
    | FileExistStatus_File =>
        (err ← CopyFile md5hex fuel (pcopy.source g) (pcopy.target g)
                 (pcopy.moveMode g) (pcopy.fullHashMode g);
         match err with
         | Some err =>
             Println (Error (pcopy.shortUsage (fmt.Sprint [Error err])));;
             mret 1
         | None => mret 0
         end) w
    | FileExistStatus_Directory =>
        (err ← CopyDirectory walkAndWork (pcopy.source g) (pcopy.target g)
                 (pcopy.moveMode g) (pcopy.fullHashMode g)
                 (pcopy.recursiveMode g);
         match err with
         | Some err =>
             Println (Error (pcopy.shortUsage (fmt.Sprint [Error err])));;
             mret 1
         | None => mret 0
         end) w
    end.
Proof.
  intros Hparse. unfold pcopy.main. unfold_M. rewrite Hparse.
  by destruct (IsFileExist (pcopy.source g) w).
Qed.

Lemma main_rejected (fuel : nat) (args : list string) (g : pcopy.globals)
    (e : error) (w : world) :
  pcopy.parseArgs args pcopy.initial w = Normal (Return (g, Some e)) w ->
  pcopy.main md5hex walkAndWork Error fuel args w
  = Normal 1 (with_line w (Sprintln (Error e))).
Proof.
  intros Hparse. unfold pcopy.main. unfold_M. by rewrite Hparse.
Qed.

End MainFacts.

(** The exit status of [pcopy], for a command line without empty
    argument and request for help.  It is 1, with one message printed
    and no file touched, when the command line is not accepted, when the
    source does not exist, when the source is a file and neither the
    target nor the directory part of the target path is a directory,
    and when the source is a directory and the target is the same path
    or not a directory.  In every other case the status is 0 if the run
    ends at all, whatever became of the copies. *)
Theorem pcopy_exit_status (md5hex : list byte -> string)
    (walkAndWork : Z -> string -> string -> bool -> bool -> bool
                   -> M (list string))
    (Error : error -> string) (fuel : nat) (args : list string)
    (w : world) :
  plain args ->
  let run := pcopy.main md5hex walkAndWork Error fuel args w in
  let accepted := fun s t =>
    positional args = [s; t] /\ unknown_options pcopy_options args = [] in
  let refused := fun s t =>
    IsFileExist s w = FileExistStatus_NotExist
    \/ (IsFileExist s w = FileExistStatus_File
        /\ IsFileExist t w <> FileExistStatus_Directory
        /\ IsFileExist (lexical.Dir t) w <> FileExistStatus_Directory)
    \/ (IsFileExist s w = FileExistStatus_Directory
        /\ (s = t \/ IsFileExist t w <> FileExistStatus_Directory)) in
  ((forall s t, ~ accepted s t) ->
   exists line, run = Normal 1 (with_line w line))
  /\ (forall s t, accepted s t -> refused s t ->
        exists line, run = Normal 1 (with_line w line))
  /\ (forall s t, accepted s t -> ~ refused s t ->
        forall status w', run = Normal status w' -> status = 0).
Proof.
  intros Hplain run accepted refused.
  destruct (pcopy_parse_cases args pcopy.initial w Hplain)
    as [(g & e & Hparse & Hnot) | (s & t & Hparse & Hacc)].
  { (* the command line is not accepted *)
    pose proof (main_rejected md5hex walkAndWork Error fuel args g e w Hparse)
      as Hrun.
    split; [eauto|]. split; intros s t Hacc; by destruct (Hnot s t). }
  pose proof (main_accepted md5hex walkAndWork Error fuel args _ w Hparse)
    as Hrun.
  cbn [pcopy.set_paths pcopy.source pcopy.target pcopy.moveMode
       pcopy.fullHashMode pcopy.recursiveMode] in Hrun.
  assert (forall s' t', accepted s' t' -> s' = s /\ t' = t) as Hsame.
  { intros s' t' [Hp _]. destruct Hacc as [Hp' _]. rewrite Hp in Hp'.
    by injection Hp' as -> ->. }
  split; [intros Hnot; by destruct (Hnot s t)|].
  split; intros s' t' [-> ->]%Hsame.
  - (* refused *)
    intros [Hs | [(Hs & Ht & Hd) | (Hs & Ht)]]; subst run;
      rewrite Hrun, Hs.
    + eauto.
    + unfold_M. rewrite CopyFile_missing_directory by done. cbn. eauto.
    + unfold_M. destruct (decide (s = t)) as [->|Hne].
      * rewrite CopyDirectory_identical. cbn. eauto.
      * destruct Ht as [|Ht]; [done|].
        rewrite CopyDirectory_invalid_target by done. cbn. eauto.
  - (* not refused *)
    intros Hnot status w'. subst run. rewrite Hrun.
    destruct (FileExistStatus_cases s w) as [Hs | [Hs | Hs]]; rewrite Hs.
    + exfalso. apply Hnot. by left.
    + unfold_M.
      destruct (CopyFile md5hex fuel s t _ _ w) as [[e|] w1| |] eqn:Hcopy;
        [|by intros [= <- _] | done..].
      exfalso. apply Hnot. right. left.
      apply CopyFile_error_cases in Hcopy. tauto.
    + unfold_M.
      destruct (CopyDirectory walkAndWork s t _ _ _ w) as [[e|] w1| |]
        eqn:Hcopy; [|by intros [= <- _] | done..].
      exfalso. apply Hnot. right. right. split; [done|].
      destruct (decide (s = t)) as [|Hne]; [by left | right].
      intros Ht. rewrite CopyDirectory_proceeds in Hcopy by done.
      by apply proceed_no_error in Hcopy.
Qed.

(* ===================================================================== *)
(** * Properties of pclassify *)
(* ===================================================================== *)

Section BirthdayFacts.

Import time pclassify.

Lemma monthAfterBirth_exact (date : Time) :
  - 2 ^ 50 < Year date < 2 ^ 50 -> - 2 ^ 50 < Month date < 2 ^ 50 ->
  monthAfterBirth date
  = (Year date - 2011) * 12 + (Month date - 3)
    + (if 16 <=? Day date then 1 else 0).
Proof.
  intros Hy Hm. unfold monthAfterBirth, birthday. cbn [Year Month Day].
  rewrite (wrap64_small (Year date - 2011)) by lia.
  rewrite (wrap64_small (Month date - 3)) by lia.
  rewrite (wrap64_small ((Year date - 2011) * 12)) by lia.
  rewrite (wrap64_small ((Year date - 2011) * 12 + (Month date - 3))) by lia.
  destruct (16 <=? Day date); [|lia].
  rewrite wrap64_small by lia. done.
Qed.

Lemma tags_exact (m : Z) :
  0 <= m < 2 ^ 62 ->
  tags m = if m mod 12 =? 0 then (m / 12 - 1, 12) else (m / 12, m mod 12).
Proof.
  intros Hm. unfold tags, go_div.
  rewrite Z.quot_div_nonneg, Z.rem_mod_nonneg by lia.
  destruct (m mod 12 =? 0); [|done].
  rewrite wrap64_small; [done|].
  pose proof (Z.div_pos m 12). pose proof (Z.div_le_upper_bound m 12 m).
  lia.
Qed.

End BirthdayFacts.

(** The age [makeFolderByBirthday] files a photo under.  The count of
    months runs from the 16th of a month to the 15th of the next and is
    1 for a photo taken from 16 March to 15 April 2011.  A count below 0
    is rejected; a count of 0 is not, so photos taken from 16 February
    to 15 March 2011, before the birthday, are accepted and filed under
    year -1, month 12.  For every accepted photo the month is between 1
    and 12 and twelve times the year plus the month is the count. *)
Theorem birthday_tags (date : time.Time) :
  - 2 ^ 50 < time.Year date < 2 ^ 50 -> 1 <= time.Month date <= 12 ->
  let count := pclassify.monthAfterBirth date in
  let yearTag := (pclassify.tags count).1 in
  let monthTag := (pclassify.tags count).2 in
  count = (time.Year date - 2011) * 12 + (time.Month date - 3)
          + (if 16 <=? time.Day date then 1 else 0)
  /\ (0 <= count ->
      1 <= monthTag <= 12 /\ yearTag * 12 + monthTag = count
      /\ (yearTag = -1 <-> count = 0))
  /\ (count = 0 <->
      time.Year date = 2011
      /\ ((time.Month date = 2 /\ 16 <= time.Day date)
          \/ (time.Month date = 3 /\ time.Day date < 16))).
Proof.
  intros Hy Hm count yearTag monthTag.
  assert (count = (time.Year date - 2011) * 12 + (time.Month date - 3)
                  + (if 16 <=? time.Day date then 1 else 0)) as Hcount
    by (apply monthAfterBirth_exact; lia).
  split; [done|]. split.
  - intros Hpos. subst yearTag monthTag.
    rewrite tags_exact by (destruct (16 <=? time.Day date); lia).
    pose proof (Z.mod_pos_bound count 12) as Hbound.
    pose proof (Z.div_mod count 12) as Hdiv.
    destruct (Z.eqb_spec (count mod 12) 0) as [Hzero|Hzero]; cbn [fst snd].
    + split; [lia|]. split; [lia|]. lia.
    + split; [lia|]. split; [lia|].
      assert (0 <= count / 12) by (apply Z.div_pos; lia). lia.
  - rewrite Hcount. destruct (Z.leb_spec 16 (time.Day date)); lia.
Qed.

Lemma birthday_tags_witness :
  pclassify.monthAfterBirth (time.mkTime 2011 3 1) = 0
  /\ pclassify.tags 0 = (-1, 12)
  /\ pclassify.photo_folder (-1) 12 = "-1岁12月照".
Proof.
  destruct (birthday_tags (time.mkTime 2011 3 1)) as (_ & _ & [_ Hzero]);
    [vm_compute; split; reflexivity | vm_compute; split; discriminate|].
  split; [apply Hzero; vm_compute; intuition congruence|].
  split; vm_compute; reflexivity.
Defined.

Section FolderFacts.

Import time pclassify.

Lemma makeFolder_exists (folderPath : string) (w : world) :
  IsFileExist folderPath w = FileExistStatus_Directory ->
  makeFolder folderPath w = Normal (folderPath, None) w.
Proof.
  intros Hst. unfold makeFolder. unfold_M.
  rewrite bool_decide_eq_false_2 by (rewrite Hst; by intros []).
  by rewrite bool_decide_eq_false_2 by (rewrite Hst; by intros []).
Qed.

Lemma Mkdir_cases (name : string) (perm : Z) (w : world) :
  (exists e, Mkdir name perm w = Normal (Some e) w)
  \/ (exists k, locate w name = Some k /\ files w !! k = None
                /\ is_dir (files w) (parent k) = true
                /\ create_denied (env w) k = false
                /\ Mkdir name perm w
                   = Normal None
                       (with_files w
                          (<[k := DirNode 4096 (Z.land perm 493) (clock w)]>
                             (files w)))).
Proof.
  unfold Mkdir, sys_error, ret.
  destruct (locate w name) as [k|]; [|eauto].
  destruct (files w !! k) eqn:Hk; [eauto|].
  destruct (is_dir (files w) (parent k)) eqn:Hdir;
    [|destruct (files w !! parent k); eauto].
  destruct (create_denied (env w) k) eqn:Hcr; [eauto|].
  right. by exists k.
Qed.

Lemma makeFolder_created (folderPath : string) (w : world)
    (k : list string) :
  locate w folderPath = Some k -> files w !! k = None ->
  is_dir (files w) (parent k) = true ->
  create_denied (env w) k = false ->
  makeFolder folderPath w
  = Normal (folderPath, None)
      (with_files w (<[k := DirNode 4096 493 (clock w)]> (files w))).
Proof.
  intros Hk Hnone Hdir Hcr. unfold makeFolder. unfold_M.
  rewrite bool_decide_eq_true_2
    by (rewrite (free_at folderPath w k Hk Hnone); discriminate).
  unfold Mkdir. rewrite Hk, Hnone, Hdir, Hcr.
  rewrite bool_decide_eq_false_2; [done|].
  rewrite (IsFileExist_Directory folderPath _ k); [by intros []|done|].
  unfold is_dir. cbn [files with_files]. by rewrite lookup_insert_eq.
Qed.

Lemma makeFolder_failed (folderPath : string) (w : world) :
  IsFileExist folderPath w <> FileExistStatus_Directory ->
  (forall k, locate w folderPath = Some k ->
     files w !! k <> None \/ is_dir (files w) (parent k) = false
     \/ create_denied (env w) k = true) ->
  makeFolder folderPath w = Normal ("", Some make_folder_failed) w.
Proof.
  intros Hst Hno. unfold makeFolder. unfold_M.
  rewrite bool_decide_eq_true_2 by done.
  destruct (Mkdir_cases folderPath (Z.lor ModePerm ModeDir) w)
    as [[e ->] | (k & Hk & Hnone & Hdir & Hcr & _)].
  - by rewrite bool_decide_eq_true_2.
  - destruct (Hno k Hk) as [|[|]]; congruence.
Qed.

End FolderFacts.

(** [makeFolderByMonth] returns the path of the folder of the month
    exactly when it leaves a directory there.  A directory that exists is
    left as it is; a missing one is created when the directory it goes
    into exists and the system does not refuse; in every other case the
    function returns the error and changes nothing. *)
Theorem makeFolderByMonth_outcome (target : string) (date : time.Time)
    (w : world) (k : list string) :
  let folderPath :=
    lexical.Join [target; time.Format date pclassify.layout_month] in
  locate w folderPath = Some k ->
  let creatable :=
    files w !! k = None /\ is_dir (files w) (parent k) = true
    /\ create_denied (env w) k = false in
  (is_dir (files w) k = true ->
   pclassify.makeFolderByMonth target date w = Normal (folderPath, None) w)
  /\ (creatable ->
      pclassify.makeFolderByMonth target date w
      = Normal (folderPath, None)
          (with_files w (<[k := DirNode 4096 493 (clock w)]> (files w))))
  /\ (is_dir (files w) k = false -> ~ creatable ->
      pclassify.makeFolderByMonth target date w
      = Normal ("", Some pclassify.make_folder_failed) w)
  /\ (forall p w',
        pclassify.makeFolderByMonth target date w = Normal (p, None) w' ->
        p = folderPath /\ is_dir (files w') k = true).
Proof.
  intros folderPath Hk creatable. unfold pclassify.makeFolderByMonth.
  fold folderPath.
  assert (is_dir (files w) k = true ->
          pclassify.makeFolder folderPath w = Normal (folderPath, None) w)
    as Hexists.
  { intros Hdir. apply makeFolder_exists.
    by apply (IsFileExist_Directory _ _ k). }
  assert (creatable ->
          pclassify.makeFolder folderPath w
          = Normal (folderPath, None)
              (with_files w (<[k := DirNode 4096 493 (clock w)]> (files w))))
    as Hcreated.
  { intros (Hnone & Hdir & Hcr). by apply makeFolder_created. }
  assert (is_dir (files w) k = false -> ~ creatable ->
          pclassify.makeFolder folderPath w
          = Normal ("", Some pclassify.make_folder_failed) w) as Hfailed.
  { intros Hdir Hnot. apply makeFolder_failed.
    - intros Hst. unfold IsFileExist, os.Stat in Hst. rewrite Hk in Hst.
      unfold is_dir in Hdir. by destruct (files w !! k) as [[]|].
    - intros k' Hk'. rewrite Hk in Hk'. injection Hk' as <-.
      destruct (files w !! k) eqn:Hnone; [by left|].
      destruct (is_dir (files w) (parent k)) eqn:Hp; [|by right; left].
      destruct (create_denied (env w) k) eqn:Hcr; [by right; right|].
      exfalso. by apply Hnot. }
  split; [done|]. split; [done|]. split; [done|].
  intros p w'. destruct (is_dir (files w) k) eqn:Hdir.
  - rewrite Hexists by done. by intros [= <- <-].
  - destruct (decide (files w !! k = None)) as [Hnone|Hsome];
      [destruct (is_dir (files w) (parent k)) eqn:Hp;
       [destruct (create_denied (env w) k) eqn:Hcr|]|].
    + rewrite Hfailed; [done.. |]. by intros (_ & _ & ?).
    + rewrite Hcreated by done. intros [= <- <-]. split; [done|].
      unfold is_dir. cbn [files with_files]. by rewrite lookup_insert_eq.
    + rewrite Hfailed; [done.. |]. by intros (_ & ? & _).
    + rewrite Hfailed; [done.. |]. by intros (? & _).
Qed.

Lemma makeFolderByMonth_outcome_witness :
  pclassify.makeFolderByMonth "dst" (time.mkTime 2015 8 20) twin_world
  = Normal ("dst/2015-08", None)
      (with_files twin_world
         (<[["dst"; "2015-08"] := DirNode 4096 493 100]> (files twin_world))).
Proof.
  destruct (makeFolderByMonth_outcome "dst" (time.mkTime 2015 8 20)
              twin_world ["dst"; "2015-08"]) as (_ & Hcreated & _);
    [reflexivity|].
  apply Hcreated. repeat split; reflexivity.
Defined.

Section FormatFacts.

Import time pclassify.

Lemma zeros_noslash (n : nat) :
  noslash (string_of_list_ascii (repeat "0"%char n)) = true.
Proof. induction n as [|n IH]; [done|]. simpl. by rewrite IH. Qed.

Lemma appendInt_noslash (x : Z) (width : nat) :
  noslash (appendInt x width) = true.
Proof.
  unfold appendInt. rewrite !noslash_app, zeros_noslash, Itoa_noslash.
  by destruct (x <? 0).
Qed.

(** The name of the folder of a month is an entry name. *)
Lemma Format_month_real_name (date : Time) :
  real_name (Format date layout_month).
Proof.
  unfold Format, layout_month. cbn [fold_right Format_chunk].
  rewrite string_app_nil_r.
  set (y := appendInt (Year date) 4). set (m := appendInt (Month date) 2).
  assert (0 < count_char "-" (y +:+ "-" +:+ m))%nat as Hdash.
  { rewrite !count_char_app. simpl. lia. }
  repeat split.
  - intros E. rewrite E in Hdash. simpl in Hdash. lia.
  - intros E. rewrite E in Hdash. simpl in Hdash. lia.
  - intros E. rewrite E in Hdash. simpl in Hdash. lia.
  - rewrite !noslash_app. subst y m. by rewrite !appendInt_noslash.
Qed.

End FormatFacts.

Section ClassifyFacts.

Import time pclassify.

Variable md5hex : list byte -> string.
Variable ToLower : string -> string.
Variable DateTimeOriginal : list byte -> option Time.
Variable localDate : Z -> Time.

(** For a regular file that can be read, [classify] goes on with the
    date of the photo. *)
Lemma classify_dated (fuel : nat) (file target : string)
    (copyMode fh : bool) (classifyMode : typeClassifyMode) (w : world)
    (ks : list string) (data : list byte) (mode mtime : Z) :
  locate w file = Some ks ->
  files w !! ks = Some (RegFile data mode mtime) ->
  open_denied (env w) ks = false ->
  let date := photo_date DateTimeOriginal localDate data mtime in
  classify md5hex ToLower DateTimeOriginal localDate fuel file target
    copyMode fh classifyMode w
  = (made ← (match classifyMode with
             | monthMode => makeFolderByMonth target date
             | yearMode => makeFolderByYear target date
             | birthdayMode => makeFolderByBirthday ToLower target date file
             | dateMode => makeFolderByDate target date
             | unknown => mret ("", None)
             end);
     match made with
     | (_, Some err) => mret (Some err)
     | (folderPath, None) =>
         let targetFile := lexical.Join [folderPath; lexical.Base file] in
         err ← CopyFile md5hex fuel file targetFile (negb copyMode) fh;
         match err with
         | Some err => mret (Some err)
         | None => mret None
         end
     end) w.
Proof.
  intros Hks Hfs Hopen date. subst date.
  unfold classify, photo_date. unfold_M. unfold getDateFromExif.
  rewrite (Open_at _ _ _ _ Hks Hfs Hopen). cbn [fd].
  rewrite (contents_at _ _ _ _ _ Hfs).
  destruct (DateTimeOriginal data) as [t|]; cbn [fst]; [done|].
  unfold getDateFromModifyTime. by rewrite (Stat_at _ _ _ _ Hks Hfs).
Qed.

End ClassifyFacts.

(** Where [pclassify] puts a photo in its default mode.  The photo is
    filed by the date it was taken or, when the file holds none that can
    be read, by the date it was last modified: it is moved into the
    folder of that month in the target directory, under its own base
    name, with bytes, permission bits and modification time unchanged.
    The folder is created when it is missing.  (The name is taken to be
    free in the folder, and the system not to refuse the rename.) *)
Theorem classify_by_month (md5hex : list byte -> string)
    (ToLower : string -> string)
    (DateTimeOriginal : list byte -> option time.Time)
    (localDate : Z -> time.Time) (fuel : nat) (fullHashMode : bool)
    (w : world) (file target : string) (ks kt : list string)
    (data : list byte) (mode mtime : Z) :
  let date := photo_date DateTimeOriginal localDate data mtime in
  let name := lexical.Base file in
  let kf := kt ++ [time.Format date pclassify.layout_month] in
  let folder := DirNode 4096 493 (clock w) in
  locate w file = Some ks ->
  files w !! ks = Some (RegFile data mode mtime) ->
  open_denied (env w) ks = false -> has_entries (files w) ks = false ->
  locate w target = Some kt -> is_dir (files w) kt = true ->
  real_name name ->
  is_dir (files w) kf = true
  \/ (files w !! kf = None /\ create_denied (env w) kf = false) ->
  files w !! (kf ++ [name]) = None ->
  rename_fails (env w) ks (kf ++ [name]) = false ->
  exists w',
    pclassify.classify md5hex ToLower DateTimeOriginal localDate fuel file
      target false fullHashMode pclassify.monthMode w = Normal None w'
    /\ files w'
       = <[kf ++ [name] := RegFile data mode mtime]>
           (delete ks
              (if is_dir (files w) kf then files w
               else <[kf := folder]> (files w))).
Proof.
  intros date name kf folder Hks Hfs Hopen Hleaf Hkt Hdir Hname Hfolder
    Hfree Hok.
  pose proof (Format_month_real_name date) as Hmonth.
  set (month := time.Format date pclassify.layout_month) in *.
  set (folderPath := lexical.Join [target; month]).
  set (targetFile := lexical.Join [folderPath; name]).
  assert (forall w1, cwd w1 = cwd w -> locate w1 folderPath = Some kf)
    as Hlf.
  { intros w1 Hcwd. unfold locate. rewrite Hcwd.
    by apply resolve_Join_name. }
  assert (path.split_go name "" = [name]) as Hsplit.
  { destruct Hname as (_ & _ & _ & Hns). by rewrite split_go_noslash. }
  assert (forall w1, cwd w1 = cwd w ->
            locate w1 targetFile = Some (kf ++ [name])
            /\ locate w1 (lexical.Dir targetFile) = Some kf) as Hlt.
  { intros w1 Hcwd. unfold locate. rewrite Hcwd.
    destruct (resolve_Join_names (cwd w) folderPath name kf) as [H1 H2].
    - by apply (Hlf w).
    - rewrite Hsplit. by constructor.
    - rewrite Hsplit in *. cbn [removelast] in H2.
      by rewrite app_nil_r in H2. }
  assert (exists w1,
            pclassify.makeFolderByMonth target date w
            = Normal (folderPath, None) w1
            /\ cwd w1 = cwd w /\ env w1 = env w
            /\ files w1 = (if is_dir (files w) kf then files w
                           else <[kf := folder]> (files w))
            /\ is_dir (files w1) kf = true) as (w1 & Hmade & Hcwd & Henv
                                                  & Hfiles & Hkf).
  { unfold pclassify.makeFolderByMonth. fold month. fold folderPath.
    destruct Hfolder as [Hthere | [Hnone Hcr]].
    - exists w. rewrite Hthere. split; [|done].
      apply makeFolder_exists.
      apply (IsFileExist_Directory _ _ kf); [by apply Hlf | done].
    - eexists. split.
      + apply (makeFolder_created folderPath w kf); try done.
        * by apply Hlf.
        * unfold parent, kf. by rewrite removelast_last.
      + cbn [cwd env files with_files]. unfold is_dir at 1. rewrite Hnone.
        split; [done|]. split; [done|]. split; [done|].
        unfold is_dir. by rewrite lookup_insert_eq. }
  assert (ks <> kf) as Hne.
  { intros ->. unfold is_dir in Hkf. rewrite Hfiles in Hkf.
    destruct Hfolder as [Hthere | [Hnone _]].
    - rewrite Hthere in Hkf. by rewrite Hfs in Hkf.
    - congruence. }
  assert (ks <> kf ++ [name]) as Hne' by congruence.
  assert (files w1 !! ks = Some (RegFile data mode mtime)
          /\ has_entries (files w1) ks = false
          /\ files w1 !! (kf ++ [name]) = None) as (Hfs1 & Hleaf1 & Hfree1).
  { rewrite Hfiles. destruct (is_dir (files w) kf); [done|].
    rewrite lookup_insert_ne by done. split; [done|]. split.
    - apply has_entries_insert; [|done]. intros [Hpre _].
      apply (leaf_not_prefix (files w) ks kf data mode mtime); try done.
      unfold parent, kf. by rewrite removelast_last.
    - rewrite lookup_insert_ne; [done|]. intros E.
      apply (f_equal length) in E. rewrite length_app in E. simpl in E. lia. }
  destruct (Hlt w1 Hcwd) as [Htarget Hparent].
  eexists. split.
  - rewrite (classify_dated md5hex ToLower DateTimeOriginal localDate fuel
               file target false fullHashMode pclassify.monthMode w ks data
               mode mtime) by done.
    fold date. unfold_M. rewrite Hmade. fold name. fold targetFile.
    rewrite CopyFile_name.
    + unfold_M. cbn [negb].
      rewrite (move_to_free_name_at md5hex fuel fullHashMode w1 file
                 targetFile ks (kf ++ [name]) data mode mtime); try done.
      * unfold locate. by rewrite Hcwd.
      * unfold parent. by rewrite removelast_last.
      * by rewrite Henv.
    + rewrite (free_at targetFile w1 _ Htarget Hfree1). discriminate.
    + by apply (IsFileExist_Directory _ _ kf).
  - cbn [files with_files with_line]. by rewrite Hfiles.
Qed.

Lemma classify_by_month_witness :
  exists w',
    pclassify.classify sample_digest sample_ToLower sample_exif
      sample_localDate 0 "in/a.jpg" "out" false false pclassify.monthMode
      album_world = Normal None w'
    /\ files w'
       = <[["out"; "2015-08"; "a.jpg"] := RegFile [x0f; x08; x14; x00] 420 7]>
           (delete ["in"; "a.jpg"]
              (<[["out"; "2015-08"] := DirNode 4096 493 100]>
                 (files album_world))).
Proof.
  apply (classify_by_month sample_digest sample_ToLower sample_exif
           sample_localDate 0 false album_world "in/a.jpg" "out"
           ["in"; "a.jpg"] ["out"] [x0f; x08; x14; x00] 420 7);
    [reflexivity | reflexivity | reflexivity | vm_compute; reflexivity
    | reflexivity | reflexivity | by repeat split
    | right; split; reflexivity | reflexivity | reflexivity].
Defined.

Section ClassifyArguments.

Import pclassify.

Lemma with_classify_options_nil (g : globals) :
  with_classify_options g [] = g.
Proof.
  destruct g. unfold with_classify_options. cbn.
  by rewrite !orb_false_r.
Qed.

Lemma not_a_classify_option (arg : string) :
  arg <> "-c" -> arg <> "-f" -> ~ mode_option arg ->
  arg ∉ pclassify_options.
Proof.
  intros H1 H2 H3 H. unfold pclassify_options in H.
  rewrite !elem_of_cons, elem_of_nil in H. unfold mode_option in H3. tauto.
Qed.

Lemma a_classify_option (arg : string) :
  arg = "-c" \/ arg = "-f" -> arg ∈ pclassify_options.
Proof.
  intros H. unfold pclassify_options. rewrite !elem_of_cons. tauto.
Qed.

(** The loop over arguments without a mode option, in closed form. *)
Lemma classify_loop_app (pre args : list string) (st : scanned) (w : world) :
  plain pre -> no_mode_option pre ->
  parseArgs_loop (pre ++ args) st w
  = parseArgs_loop args
      (mkScanned (with_classify_options (vars st) pre)
         (remainder st ++ positional pre)
         (invalidArg st ++ unknown_options pclassify_options pre)) w.
Proof.
  intros Hplain Hmode. revert st.
  induction Hplain as [|arg pre [Hne Hhelp] Hpre IH]; intros st.
  - unfold positional, unknown_options.
    rewrite !filter_nil, !app_nil_r, with_classify_options_nil.
    by destruct st.
  - apply Forall_cons in Hmode as [Harg Hmode]. specialize (IH Hmode).
    cbn [app parseArgs_loop].
    rewrite bool_decide_eq_false_2 by done.
    unfold positional, unknown_options in *.
    case_bool_decide as Hc; [|case_bool_decide as Hf].
    + subst arg. rewrite IH. cbn [vars remainder invalidArg].
      rewrite filter_cons_False by (by intros [=]).
      rewrite filter_cons_False
        by (intros [_ H]; apply H, a_classify_option; auto).
      do 2 f_equal. unfold with_classify_options, set_copyMode. cbn.
      rewrite bool_decide_cons_eq, !bool_decide_cons_ne by done.
      by rewrite orb_true_r.
    + subst arg. rewrite IH. cbn [vars remainder invalidArg].
      rewrite filter_cons_False by (by intros [=]).
      rewrite filter_cons_False
        by (intros [_ H]; apply H, a_classify_option; auto).
      do 2 f_equal. unfold with_classify_options, set_fullHashMode. cbn.
      rewrite bool_decide_cons_eq, !bool_decide_cons_ne by done.
      by rewrite orb_true_r.
    + rewrite bool_decide_eq_false_2 by done.
      destruct (first_byte arg Hne) as (first & -> & ->).
      assert (with_classify_options (vars st) (arg :: pre)
              = with_classify_options (vars st) pre) as Hsame.
      { unfold with_classify_options.
        by rewrite !bool_decide_cons_ne by done. }
      destruct (dashed arg) eqn:Hdash.
      * rewrite IH. cbn [vars remainder invalidArg].
        rewrite filter_cons_False by (by rewrite Hdash).
        rewrite filter_cons_True
          by (split; [done | by apply not_a_classify_option]).
        by rewrite Hsame, <- app_assoc.
      * rewrite IH. cbn [vars remainder invalidArg].
        rewrite filter_cons_True by done.
        rewrite filter_cons_False by (by rewrite Hdash; intros [[=] _]).
        by rewrite Hsame, <- app_assoc.
Qed.

Lemma mode_option_not_plain_option (arg : string) :
  mode_option arg ->
  ~ is_help arg /\ arg <> "-c" /\ arg <> "-f" /\ arg <> ""
  /\ dashed arg = true /\ arg ∈ pclassify_options.
Proof.
  unfold pclassify_options.
  intros [-> | [-> | [-> | ->]]]; repeat split; try done;
    try (by intros [|]); rewrite !elem_of_cons; tauto.
Qed.

(** The first mode option sets the mode. *)
Lemma classify_loop_first_mode (arg : string) (args : list string)
    (st : scanned) (w : world) :
  mode_option arg -> classifyMode (vars st) = unknown ->
  parseArgs_loop (arg :: args) st w
  = parseArgs_loop args
      (mkScanned (set_classifyMode (vars st) (classifyModeMap_at arg))
         (remainder st) (invalidArg st)) w.
Proof.
  intros Harg Hmode.
  destruct (mode_option_not_plain_option arg Harg) as (H1 & H2 & H3 & _).
  cbn [parseArgs_loop].
  rewrite bool_decide_eq_false_2 by done.
  rewrite !bool_decide_eq_false_2 by done.
  rewrite bool_decide_eq_true_2 by done.
  by rewrite bool_decide_eq_true_2.
Qed.

(** A second one ends the call with an error that names both. *)
Lemma classify_loop_second_mode (first arg : string) (args : list string)
    (st : scanned) (w : world) :
  mode_option first -> mode_option arg ->
  classifyMode (vars st) = classifyModeMap_at first ->
  parseArgs_loop (arg :: args) st w
  = Normal (Return (st, Some (shortUsage (exclusive_text first arg)))) w.
Proof.
  intros Hfirst Harg Hmode.
  destruct (mode_option_not_plain_option arg Harg) as (H1 & H2 & H3 & _).
  cbn [parseArgs_loop].
  rewrite bool_decide_eq_false_2 by done.
  rewrite !bool_decide_eq_false_2 by done.
  rewrite bool_decide_eq_true_2 by done.
  rewrite Hmode.
  by destruct Hfirst as [-> | [-> | [-> | ->]]].
Qed.

Lemma classify_positional_mode (arg : string) (args : list string) :
  mode_option arg ->
  positional (arg :: args) = positional args
  /\ unknown_options pclassify_options (arg :: args)
     = unknown_options pclassify_options args
  /\ (forall g, with_classify_options g (arg :: args)
                = with_classify_options g args).
Proof.
  intros Harg.
  destruct (mode_option_not_plain_option arg Harg)
    as (H1 & H2 & H3 & H4 & H5 & H6).
  unfold positional, unknown_options. split; [|split].
  - by rewrite filter_cons_False by (by rewrite H5).
  - by rewrite filter_cons_False by (by intros [_ H]).
  - intros g. unfold with_classify_options.
    by rewrite !bool_decide_cons_ne by done.
Qed.

(** The end of [parseArgs] with one path, no unknown option and a
    target still empty: the source is the target, and the mode not set
    is the month. *)
Lemma classify_parse_end (st : scanned) (args : list string) (s : string)
    (g : globals) (w : world) :
  parseArgs_loop args (mkScanned g [] []) w = Normal (Return (st, None)) w ->
  remainder st = [s] -> invalidArg st = [] ->
  target (vars st) = "" ->
  parseArgs args g w
  = Normal
      (Return
         ({| copyMode := copyMode (vars st);
             fullHashMode := fullHashMode (vars st);
             classifyMode :=
               if bool_decide (classifyMode (vars st) = unknown)
               then monthMode else classifyMode (vars st);
             source := s; target := s |}, None)) w.
Proof.
  intros Hloop Hrem Hinv Htarget. unfold parseArgs. unfold_M.
  rewrite Hloop. destruct st as [[cm fm mode src tgt] rem inv].
  cbn in Hrem, Hinv, Htarget. subst rem inv tgt.
  cbn [remainder invalidArg vars length Z.of_nat Z.ltb Z.compare
       Pos.of_succ_nat Pos.compare Pos.compare_cont].
  unfold set_source, set_target, set_classifyMode.
  cbn [classifyMode target source copyMode fullHashMode].
  by destruct mode.
Qed.

Lemma classifyModeMap_at_known (arg : string) :
  mode_option arg -> classifyModeMap_at arg <> unknown.
Proof. by intros [-> | [-> | [-> | ->]]]. Qed.

Lemma bool_decide_elem_of_app (a : string) (l1 l2 : list string) :
  bool_decide (a ∈ l1 ++ l2)
  = bool_decide (a ∈ l1) || bool_decide (a ∈ l2).
Proof.
  destruct (decide (a ∈ l1)) as [H1|H1], (decide (a ∈ l2)) as [H2|H2];
    rewrite ?(bool_decide_eq_true_2 _ H1), ?(bool_decide_eq_true_2 _ H2),
      ?(bool_decide_eq_false_2 _ H1), ?(bool_decide_eq_false_2 _ H2);
    cbn [orb];
    (apply bool_decide_eq_true_2 || apply bool_decide_eq_false_2);
    rewrite elem_of_app; tauto.
Qed.

(** The loop up to and past the first mode option. *)
Lemma classify_loop_one_mode (pre mid args : list string) (a : string)
    (w : world) :
  plain pre -> plain mid -> no_mode_option pre -> no_mode_option mid ->
  mode_option a ->
  parseArgs_loop (pre ++ a :: mid ++ args) (mkScanned initial [] []) w
  = parseArgs_loop args
      (mkScanned
         {| copyMode := bool_decide ("-c" ∈ pre ++ mid);
            fullHashMode := bool_decide ("-f" ∈ pre ++ mid);
            classifyMode := classifyModeMap_at a;
            source := ""; target := "" |}
         (positional (pre ++ mid))
         (unknown_options pclassify_options (pre ++ mid))) w.
Proof.
  intros Hpre Hmid Hnpre Hnmid Ha.
  rewrite classify_loop_app by done.
  rewrite classify_loop_first_mode by done.
  rewrite classify_loop_app by done.
  cbn [vars remainder invalidArg app].
  unfold positional, unknown_options. rewrite !filter_app.
  unfold with_classify_options, set_classifyMode, initial.
  cbn [copyMode fullHashMode classifyMode source target orb].
  by rewrite !bool_decide_elem_of_app.
Qed.

End ClassifyArguments.

(** The mode options of [pclassify], read from a command line whose
    other arguments are neither empty nor a request for help.  Without a
    mode option the photos are filed by month; with one path given, the
    target is the source.  One mode option, wherever it stands, sets
    the mode.  A second one, be it the same option again, ends the call
    with an error that names both; what follows it is not looked at. *)
Theorem pclassify_parseArgs_modes (pre mid post : list string)
    (a b s : string) (w : world) :
  plain pre -> plain mid -> no_mode_option pre -> no_mode_option mid ->
  mode_option a -> mode_option b ->
  let accepted := fun (args : list string) mode =>
    {| pclassify.copyMode := bool_decide ("-c" ∈ args);
       pclassify.fullHashMode := bool_decide ("-f" ∈ args);
       pclassify.classifyMode := mode;
       pclassify.source := s; pclassify.target := s |} in
  (positional pre = [s] -> unknown_options pclassify_options pre = [] ->
   pclassify.parseArgs pre pclassify.initial w
   = Normal (Return (accepted pre pclassify.monthMode, None)) w)
  /\ (positional (pre ++ mid) = [s] ->
      unknown_options pclassify_options (pre ++ mid) = [] ->
      pclassify.parseArgs (pre ++ a :: mid) pclassify.initial w
      = Normal (Return (accepted (pre ++ mid)
                          (pclassify.classifyModeMap_at a), None)) w)
  /\ (exists g,
        pclassify.parseArgs (pre ++ a :: mid ++ b :: post) pclassify.initial
          w
        = Normal
            (Return (g, Some (pclassify.shortUsage
                                (pclassify.exclusive_text a b)))) w).
Proof.
  intros Hpre Hmid Hnpre Hnmid Ha Hb accepted. split; [|split].
  - intros Hpaths Hunknown.
    rewrite (classify_parse_end
               (pclassify.mkScanned
                  (with_classify_options pclassify.initial pre)
                  (positional pre)
                  (unknown_options pclassify_options pre)) pre s); try done.
    rewrite <- (app_nil_r pre) at 1.
    by rewrite classify_loop_app.
  - intros Hpaths Hunknown.
    pose proof (classify_loop_one_mode pre mid [] a w Hpre Hmid Hnpre Hnmid
                  Ha) as Hloop.
    rewrite app_nil_r in Hloop. cbn [pclassify.parseArgs_loop] in Hloop.
    rewrite (classify_parse_end _ _ s _ _ Hloop); try done.
    cbn [pclassify.vars pclassify.copyMode pclassify.fullHashMode
         pclassify.classifyMode].
    by rewrite (bool_decide_eq_false_2
                  (pclassify.classifyModeMap_at a = pclassify.unknown))
      by (by apply classifyModeMap_at_known).
  - eexists. unfold pclassify.parseArgs. unfold_M.
    rewrite (classify_loop_one_mode pre mid (b :: post) a w) by done.
    rewrite (classify_loop_second_mode a b) by done.
    reflexivity.
Qed.

Lemma pclassify_parseArgs_modes_witness :
  pclassify.parseArgs ["-c"; "photos"] pclassify.initial photo_world
  = Normal
      (Return
         ({| pclassify.copyMode := true; pclassify.fullHashMode := false;
             pclassify.classifyMode := pclassify.monthMode;
             pclassify.source := "photos"; pclassify.target := "photos" |},
          None)) photo_world
  /\ exists g,
       pclassify.parseArgs ["-c"; "photos"; "-y"; "-y"; ""]
         pclassify.initial photo_world
       = Normal
           (Return
              (g, Some (pclassify.shortUsage
                          (pclassify.exclusive_text "-y" "-y"))))
           photo_world.
Proof.
  destruct (pclassify_parseArgs_modes ["-c"; "photos"] [] [""] "-y" "-y"
              "photos" photo_world) as (Hdefault & _ & Hboth);
    [by vm_compute; repeat constructor; intuition discriminate
    | by constructor
    | by repeat constructor; unfold mode_option; intuition discriminate
    | by constructor
    | by right; left | by right; left |].
  split; [apply Hdefault; reflexivity | exact Hboth].
Defined.

(* ===================================================================== *)
(** * Properties of the callback of the walk *)
(* ===================================================================== *)

Section MkdirAllFacts.

Import path.

Lemma string_snoc (s : string) :
  s <> "" -> exists s' c, s = s' +:+ String c "".
Proof.
  induction s as [|x s IH]; [done|]. intros _.
  destruct s as [|y s].
  - by exists "", x.
  - destruct IH as (s' & c & ->); [done|].
    exists (String x s'), c. by rewrite string_app_cons.
Qed.

Lemma get_app_r (a b : string) (i : nat) :
  String.get (String.length a + i) (a +:+ b) = String.get i b.
Proof. induction a as [|x a IH]; [done|]. by rewrite string_app_cons. Qed.

Lemma get_app_l (a b : string) (i : nat) :
  (i < String.length a)%nat -> String.get i (a +:+ b) = String.get i a.
Proof.
  revert i. induction a as [|x a IH]; intros i Hi; simpl in Hi; [lia|].
  rewrite string_app_cons. destruct i as [|i]; [done|].
  simpl. apply IH. lia.
Qed.

Lemma substring_app_l (a b : string) :
  substring 0 (String.length a) (a +:+ b) = a.
Proof.
  induction a as [|x a IH]; [apply substring_0_0|].
  rewrite string_app_cons. simpl. by rewrite IH.
Qed.

(** A path that does not end in a separator has none to strip. *)
Lemma strip_separators_id (p : string) (c : ascii) :
  Ascii.eqb c "/" = false ->
  lexical.strip_separators (p +:+ String c "")
    (String.length (p +:+ String c ""))
  = p +:+ String c "".
Proof.
  intros Hc. rewrite string_length_app. cbn [String.length].
  replace (String.length p + 1)%nat with (S (String.length p)) by lia.
  cbn [lexical.strip_separators].
  replace (String.length p) with (String.length p + 0)%nat at 1 by lia.
  rewrite get_app_r. cbn [String.get]. rewrite Hc.
  replace (S (String.length p))
    with (String.length (p +:+ String c ""))
    by (rewrite string_length_app; simpl; lia).
  apply substring_all.
Qed.

Lemma noslash_last (s : string) (c : ascii) :
  noslash (s +:+ String c "") = true -> Ascii.eqb c "/" = false.
Proof.
  rewrite noslash_app. simpl. intros H.
  apply andb_true_iff in H as [_ H]. apply andb_true_iff in H as [H _].
  by apply negb_true_iff.
Qed.

(** In [d/name] the scan for the last separator stops behind [d/]. *)
Lemma after_separator_child (d name : string) :
  noslash name = true ->
  let p := d +:+ "/" +:+ name in
  lexical.after_separator p (String.length p) = S (String.length d).
Proof.
  intros Hname p.
  destruct (after_separator_spec p (String.length p))
    as (Hfree & Hle & Hm);
    [done | by intros j Hj; rewrite get_ge_length |].
  set (m := lexical.after_separator p (String.length p)) in *.
  assert (String.get (String.length d) p = Some "/"%char) as Hsep.
  { subst p. replace (String.length d) with (String.length d + 0)%nat
      at 1 by lia. by rewrite get_app_r. }
  assert (String.length d < m)%nat as Hlow.
  { destruct (decide (String.length d < m)%nat) as [|Hge]; [done|].
    exfalso. apply (Hfree (String.length d)); [lia | done]. }
  destruct Hm as [-> | (i & -> & Hi)]; [lia|].
  destruct (decide (i = String.length d)) as [->|Hne]; [done|].
  exfalso.
  assert (String.get (i - S (String.length d)) name = Some "/"%char) as Hin.
  { rewrite <- Hi. subst p.
    replace i with (String.length d + S (i - S (String.length d)))%nat
      at 2 by lia.
    rewrite get_app_r. done. }
  by apply (proj1 (noslash_get name) Hname) in Hin.
Qed.

Lemma after_separator_single (name : string) :
  noslash name = true ->
  lexical.after_separator name (String.length name) = 0%nat.
Proof.
  intros Hname.
  destruct (after_separator_spec name (String.length name))
    as (_ & _ & [-> | (i & _ & Hi)]);
    [done | by intros j Hj; rewrite get_ge_length | done |].
  by apply (proj1 (noslash_get name) Hname) in Hi.
Qed.

Lemma Mkdir_creates (p : string) (perm : Z) (w : world) (k : list string) :
  locate w p = Some k -> files w !! k = None ->
  is_dir (files w) (parent k) = true ->
  create_denied (env w) k = false ->
  Mkdir p perm w
  = Normal None
      (with_files w
         (<[k := DirNode 4096 (Z.land perm 493) (clock w)]> (files w))).
Proof.
  intros Hk Hnone Hdir Hcr. unfold Mkdir. by rewrite Hk, Hnone, Hdir, Hcr.
Qed.

Lemma Stat_missing (p : string) (w : world) (k : list string) :
  locate w p = Some k -> files w !! k = None ->
  exists e, os.Stat p w = Err e.
Proof. intros Hk Hnone. unfold os.Stat. rewrite Hk, Hnone. eauto. Qed.

Lemma Stat_directory (p : string) (w : world) (k : list string) :
  locate w p = Some k -> is_dir (files w) k = true ->
  exists dir, os.Stat p w = Ok dir /\ IsDir dir = true.
Proof.
  intros Hk Hdir. unfold os.Stat, is_dir in *. rewrite Hk.
  destruct (files w !! k) as [[|s m t]|]; try done. eauto.
Qed.

Lemma MkdirAll_step (n : nat) (p : string) (perm : Z) (w : world)
    (k : list string) :
  locate w p = Some k -> files w !! k = None ->
  is_dir (files w) (parent k) = true ->
  create_denied (env w) k = false ->
  lexical.strip_separators p (String.length p) = p ->
  (let j := lexical.after_separator p (String.length p) in
   (1 <? j)%nat = true ->
   MkdirAll_rec n (substring 0 (j - 1) p) perm w = Normal None w) ->
  MkdirAll_rec (S n) p perm w
  = Normal None
      (with_files w
         (<[k := DirNode 4096 (Z.land perm 493) (clock w)]> (files w))).
Proof.
  intros Hk Hnone Hdir Hcr Hstrip Hparent.
  destruct (Stat_missing p w k Hk Hnone) as [e Hstat].
  cbn [MkdirAll_rec]. unfold_M. rewrite Hstat, Hstrip.
  cbv zeta in Hparent.
  destruct (1 <? lexical.after_separator p (String.length p))%nat.
  - rewrite Hparent by done. by rewrite (Mkdir_creates _ _ _ k).
  - by rewrite (Mkdir_creates _ _ _ k).
Qed.

(** [MkdirAll] of a missing entry [name] of a directory that exists
    makes one directory. *)
Lemma MkdirAll_single (name : string) (perm : Z) (w : world)
    (k : list string) :
  real_name name ->
  locate w name = Some k -> files w !! k = None ->
  is_dir (files w) (parent k) = true ->
  create_denied (env w) k = false ->
  MkdirAll name perm w
  = Normal None
      (with_files w
         (<[k := DirNode 4096 (Z.land perm 493) (clock w)]> (files w))).
Proof.
  intros (Hne & _ & _ & Hns) Hk Hnone Hdir Hcr.
  destruct (string_snoc name Hne) as (name' & c & Hname).
  assert (Ascii.eqb c "/" = false) as Hc
    by (rewrite Hname in Hns; by apply noslash_last in Hns).
  apply MkdirAll_step; try done.
  - rewrite Hname. by apply strip_separators_id.
  - cbv zeta. by rewrite after_separator_single.
Qed.

Lemma MkdirAll_child (d name : string) (perm : Z) (w : world)
    (k : list string) :
  real_name name ->
  let p := d +:+ "/" +:+ name in
  (d = "" \/ exists kd, locate w d = Some kd
                        /\ is_dir (files w) kd = true) ->
  locate w p = Some k -> files w !! k = None ->
  is_dir (files w) (parent k) = true ->
  create_denied (env w) k = false ->
  MkdirAll p perm w
  = Normal None
      (with_files w
         (<[k := DirNode 4096 (Z.land perm 493) (clock w)]> (files w))).
Proof.
  intros (Hne & _ & _ & Hns) p Hd Hk Hnone Hdir Hcr.
  destruct (string_snoc name Hne) as (name' & c & Hname).
  assert (Ascii.eqb c "/" = false) as Hc
    by (rewrite Hname in Hns; by apply noslash_last in Hns).
  apply MkdirAll_step; try done.
  - subst p. rewrite Hname, <- !string_app_assoc.
    by apply strip_separators_id.
  - cbv zeta. subst p. rewrite after_separator_child by done.
    intros Hj. apply Nat.ltb_lt in Hj.
    replace (S (String.length d) - 1)%nat with (String.length d) by lia.
    rewrite substring_app_l.
    destruct Hd as [-> | (kd & Hkd & Hkdir)]; [simpl in Hj; lia|].
    destruct (Stat_directory _ _ _ Hkd Hkdir) as (dir & Hsd & Hisdir).
    destruct (String.length (d +:+ "/" +:+ name)) as [|n] eqn:Hlen.
    { rewrite !string_length_app in Hlen. simpl in Hlen. lia. }
    cbn [MkdirAll_rec]. unfold_M. by rewrite Hsd, Hisdir.
Qed.

End MkdirAllFacts.

Section VisitFacts.

Import path.

Lemma strings_Join_snoc (out : list string) (e nm : string) :
  strings.Join ((e :: out) ++ [nm]) "/"
  = strings.Join (e :: out) "/" +:+ "/" +:+ nm.
Proof.
  revert e. induction out as [|e' out IH]; intros e; [done|].
  change (strings.Join ((e :: e' :: out) ++ [nm]) "/")
    with (e +:+ "/" +:+ strings.Join ((e' :: out) ++ [nm]) "/").
  rewrite IH.
  change (strings.Join (e :: e' :: out) "/")
    with (e +:+ "/" +:+ strings.Join (e' :: out) "/").
  by rewrite !string_app_assoc.
Qed.

Lemma resolve_child (wd : list string) (d nm : string) (kd : list string) :
  resolve wd d = Some kd -> real_name nm ->
  resolve wd (d +:+ "/" +:+ nm) = Some (kd ++ [nm]).
Proof.
  intros Hd (H1 & H2 & H3 & H4).
  pose proof (resolve_Some _ _ _ Hd) as Hne.
  assert (d +:+ "/" +:+ nm <> "") as Hne' by (by destruct d).
  rewrite resolve_nonempty in Hd by done. injection Hd as Hd.
  rewrite resolve_nonempty by done.
  rewrite split_go_slash, fold_left_app, origin_app, Hd by done.
  rewrite split_go_noslash by done. rewrite string_app_nil_l.
  cbn [fold_left]. by rewrite enter_real.
Qed.

(** The text of a path joined from a directory and names: the last name
    alone, or the last name behind the path of the directory it goes
    into. *)
Lemma Join_shape (wd : list string) (a rel : string) (ka : list string)
    (names : list string) (nm : string) :
  resolve wd a = Some ka -> split_go rel "" = names ++ [nm] ->
  Forall real_name (names ++ [nm]) ->
  lexical.Join [a; rel] = nm
  \/ exists d, lexical.Join [a; rel] = d +:+ "/" +:+ nm
               /\ (d = "" \/ resolve wd d = Some (ka ++ names)).
Proof.
  intros Ha Hsplit Hnames.
  pose proof (resolve_Some _ _ _ Ha) as Hne.
  destruct (resolve_Join_names wd a rel ka Ha) as [Hplace _];
    [by rewrite Hsplit|].
  rewrite Hsplit in Hplace.
  assert (real_name nm) as Hnm.
  { apply Forall_app in Hnames as [_ H]. by apply Forall_cons in H as [H _]. }
  assert (forall d, d <> "" -> lexical.Join [a; rel] = d +:+ "/" +:+ nm ->
            resolve wd d = Some (ka ++ names)) as Hparent.
  { intros d Hd Heq. rewrite Heq in Hplace.
    destruct (resolve wd d) as [kd|] eqn:Hkd; [|by destruct d].
    rewrite (resolve_child wd d nm kd Hkd Hnm) in Hplace.
    injection Hplace as Hplace. rewrite app_assoc in Hplace.
    by apply app_inj_tail in Hplace as [-> _]. }
  assert (forall d, lexical.Join [a; rel] = d +:+ "/" +:+ nm ->
            lexical.Join [a; rel] = nm
            \/ exists d, lexical.Join [a; rel] = d +:+ "/" +:+ nm
                         /\ (d = "" \/ resolve wd d = Some (ka ++ names)))
    as Hshape.
  { intros d Heq. right. exists d. split; [done|].
    destruct (decide (d = "")); [by left | right; by apply Hparent]. }
  revert Hshape. clear Hparent Hplace.
  cbn [lexical.Join]. rewrite bool_decide_eq_true_2 by done.
  change (strings.Join [a; rel] "/") with (a +:+ "/" +:+ rel).
  assert (a +:+ "/" +:+ rel <> "") as Hne' by (by destruct a).
  unfold lexical.Clean. rewrite bool_decide_eq_false_2 by done.
  rewrite absolute_app by done.
  rewrite split_go_slash, fold_left_app, Hsplit.
  rewrite clean_step_names by done.
  set (out := fold_left (lexical.clean_step (absolute a)) (split_go a "") []).
  rewrite app_assoc.
  destruct (out ++ names) as [|e o'] eqn:Hout.
  - intros Hshape. destruct (absolute a).
    + apply (Hshape ""). by rewrite string_app_nil_l.
    + by left.
  - rewrite strings_Join_snoc.
    destruct (absolute a).
    + intros Hshape.
      apply (Hshape ("/" +:+ strings.Join (e :: o') "/")).
      by rewrite !string_app_assoc.
    + rewrite bool_decide_eq_false_2 by done. intros Hshape.
      by apply (Hshape (strings.Join (e :: o') "/")).
Qed.

Lemma longer_differs (source rest : string) (c : ascii) :
  String.eqb source (source +:+ String c rest) = false.
Proof.
  apply String.eqb_neq. intros E. apply (f_equal String.length) in E.
  rewrite string_length_app in E. simpl in E. lia.
Qed.

(** [MkdirAll] of the joined path of a missing directory whose parent
    exists. *)
Lemma MkdirAll_joined (w : world) (target rel : string) (kt : list string)
    (perm : Z) :
  locate w target = Some kt ->
  let names := split_go rel "" in
  Forall real_name names ->
  files w !! (kt ++ names) = None ->
  is_dir (files w) (kt ++ removelast names) = true ->
  create_denied (env w) (kt ++ names) = false ->
  MkdirAll (lexical.Join [target; rel]) perm w
  = Normal None
      (with_files w
         (<[kt ++ names := DirNode 4096 (Z.land perm 493) (clock w)]>
            (files w))).
Proof.
  intros Hkt names Hnames Hnone Hdir Hcr.
  destruct (resolve_Join_names (cwd w) target rel kt Hkt Hnames)
    as [Hplace _]. fold names in Hplace.
  pose proof (split_go_nonempty rel "") as Hne. fold names in Hne.
  destruct names as [|nm names' _] eqn:Hsplit using rev_ind; [done|].
  rewrite removelast_last in Hdir.
  assert (real_name nm) as Hnm.
  { apply Forall_app in Hnames as [_ H]. by apply Forall_cons in H as [H _]. }
  assert (parent (kt ++ names' ++ [nm]) = kt ++ names') as Hpar.
  { unfold parent. by rewrite app_assoc, removelast_last. }
  destruct (Join_shape (cwd w) target rel kt names' nm Hkt Hsplit Hnames)
    as [Heq | (d & Heq & Hd)]; rewrite Heq in *.
  - apply MkdirAll_single; try done. by rewrite Hpar.
  - apply MkdirAll_child; try done; [|by rewrite Hpar].
    destruct Hd as [|Hd]; [by left | right]. by exists (kt ++ names').
Qed.

End VisitFacts.

(** The walk mirrors the directories.  For a directory the walk passes
    as [source/rel], [rel] made of entry names, the callback of
    [CopyDirectory] looks at the place [rel] leads to from the target
    directory.  Without the recursive option it leaves the directory
    out and touches nothing.  With it, a directory that exists there is
    used as it is, a missing one is created when the directory it goes
    into exists and the system does not refuse, and the source path is
    recorded for the removal pass of a move; when a file is in the way,
    the callback reports it, records nothing and leaves the directory
    out. *)
Theorem visit_mirrors_directory (w : world) (source target rel : string)
    (dirList : list string) (fi : FileInfo) (kt : list string) :
  len source + 1 < 2 ^ 63 -> IsDir fi = true ->
  let p := source +:+ "/" +:+ rel in
  let names := path.split_go rel "" in
  let kd := kt ++ names in
  Forall real_name names -> locate w target = Some kt ->
  visit source target false dirList p (Some fi) w
  = Normal (SkipDir, dirList, None) w
  /\ (is_dir (files w) kd = true ->
      visit source target true dirList p (Some fi) w
      = Normal (WalkOn, dirList ++ [p], None) w)
  /\ (files w !! kd = None ->
      is_dir (files w) (kt ++ removelast names) = true ->
      create_denied (env w) kd = false ->
      visit source target true dirList p (Some fi) w
      = Normal (WalkOn, dirList ++ [p], None)
          (with_files w (<[kd := DirNode 4096 493 (clock w)]> (files w))))
  /\ (forall data mode mtime,
        files w !! kd = Some (RegFile data mode mtime) ->
        visit source target true dirList p (Some fi) w
        = Normal (SkipDir, dirList, None)
            (with_line w (not_created_text (lexical.Join [target; rel])))).
Proof.
  intros Hsmall Hisdir p names kd Hnames Hkt.
  destruct (resolve_Join_names (cwd w) target rel kt Hkt Hnames)
    as [Hplace _]. fold names in Hplace. fold kd in Hplace.
  assert (forall rec,
            visit source target rec dirList p (Some fi) w
            = if negb rec then Normal (SkipDir, dirList, None) w
              else
                (let targetDirectory := lexical.Join [target; rel] in
                 st ← ask (IsFileExist targetDirectory);
                 (if bool_decide (st = FileExistStatus_NotExist) then
                    MkdirAll targetDirectory (Z.lor ModePerm ModeDir);;
                    mret tt
                  else mret tt);;
                 st ← ask (IsFileExist targetDirectory);
                 if bool_decide (st <> FileExistStatus_Directory) then
                   fmt.Printf (not_created_text targetDirectory);;
                   mret (SkipDir, dirList, None)
                 else mret (WalkOn, dirList ++ [p], None)) w) as Hvisit.
  { intros rec. unfold visit. rewrite Hisdir. subst p.
    change (source +:+ "/" +:+ rel) with (source +:+ String "/" rel).
    rewrite longer_differs, relative_of_job by done.
    by destruct rec. }
  split; [by rewrite Hvisit|]. split; [|split].
  - intros Hdir. rewrite Hvisit. cbn [negb]. cbv zeta. unfold_M.
    rewrite (IsFileExist_Directory _ _ kd) by done.
    rewrite bool_decide_eq_false_2 by done.
    rewrite (IsFileExist_Directory _ _ kd) by done.
    by rewrite bool_decide_eq_false_2 by (by intros []).
  - intros Hnone Hparent Hcr. rewrite Hvisit. cbn [negb]. cbv zeta. unfold_M.
    rewrite (free_at _ w kd Hplace Hnone).
    rewrite bool_decide_eq_true_2 by done.
    rewrite (MkdirAll_joined w target rel kt) by done.
    fold names. fold kd.
    change (Z.land (Z.lor ModePerm ModeDir) 493) with 493.
    rewrite (IsFileExist_Directory _ _ kd); [|done|].
    + by rewrite bool_decide_eq_false_2 by (by intros []).
    + unfold is_dir. cbn [files with_files]. by rewrite lookup_insert_eq.
  - intros data mode mtime Hfile. rewrite Hvisit. cbn [negb]. cbv zeta.
    unfold_M.
    rewrite (IsFileExist_File _ _ kd data mode mtime) by done.
    rewrite bool_decide_eq_false_2 by done.
    rewrite (IsFileExist_File _ _ kd data mode mtime) by done.
    by rewrite bool_decide_eq_true_2.
Qed.

Lemma visit_mirrors_directory_witness :
  visit "src" "dst" true [] "src/trip" (Some (info_of sample_dir)) twin_world
  = Normal (WalkOn, ["src/trip"], None)
      (with_files twin_world
         (<[["dst"; "trip"] := DirNode 4096 493 100]> (files twin_world))).
Proof.
  destruct (visit_mirrors_directory twin_world "src" "dst" "trip" []
              (info_of sample_dir) ["dst"]) as (_ & _ & Hcreated & _);
    [vm_compute; reflexivity | reflexivity
    | repeat constructor; done | reflexivity |].
  apply Hcreated; reflexivity.
Defined.

(* ===================================================================== *)
(** * The removal pass and the progress lines *)
(* ===================================================================== *)

Section RemovalFacts.

Lemma Remove_cases (name : string) (w : world) :
  (exists e, os.Remove name w = Normal (Some e) w)
  \/ (exists k n, locate w name = Some k /\ files w !! k = Some n
                  /\ has_entries (files w) k = false
                  /\ os.Remove name w
                     = Normal None (with_files w (delete k (files w)))).
Proof.
  unfold os.Remove, sys_error, ret.
  destruct (locate w name) as [k|]; [|eauto].
  destruct (files w !! k) as [n|] eqn:Hk; [|eauto].
  destruct (remove_denied (env w) k); [eauto|].
  case_bool_decide; [eauto|].
  destruct (has_entries (files w) k) eqn:Hleaf; [eauto|].
  right. by exists k, n.
Qed.

End RemovalFacts.

(** The removal pass of a move never takes away what still holds
    something.  It always runs to its end; it removes nothing but
    objects the recorded paths name; and no object that is left lies
    below one that was removed.  A recorded directory in which a file
    has stayed behind therefore stays, with the directories above it. *)
Theorem removeEach_keeps_content (dirList : list string) (w : world) :
  exists w',
    removeEach dirList w = Normal tt w'
    /\ cwd w' = cwd w /\ stdout w' = stdout w
    /\ (forall k n, files w' !! k = Some n -> files w !! k = Some n)
    /\ (forall k n,
          files w !! k = Some n -> files w' !! k = None ->
          (exists d, d ∈ dirList /\ locate w d = Some k)
          /\ forall k' n', files w' !! k' = Some n' -> ~ below k k').
Proof.
  revert w. induction dirList as [|d rest IH]; intros w.
  { exists w. split; [done|]. split; [done|]. split; [done|].
    split; [done|]. intros k n Hk Hgone. congruence. }
  cbn [removeEach]. unfold_M.
  destruct (Remove_cases d w) as [[e ->] | (kd & nd & Hkd & Hnd & Hleaf & ->)].
  - destruct (IH w) as (w' & -> & Hcwd & Hout & Hsub & Hgone).
    exists w'. split; [done|]. split; [done|]. split; [done|].
    split; [done|]. intros k n Hk Hnone.
    destruct (Hgone k n Hk Hnone) as [(d' & Hd' & Hloc) Hbelow].
    split; [|done]. exists d'. split; [by right | done].
  - destruct (IH (with_files w (delete kd (files w))))
      as (w' & -> & Hcwd & Hout & Hsub & Hgone).
    cbn [cwd stdout files with_files] in *.
    assert (forall k n, files w' !! k = Some n -> files w !! k = Some n)
      as Hsub'.
    { intros k n Hk. apply Hsub in Hk.
      by apply lookup_delete_Some in Hk as [_ Hk]. }
    exists w'. split; [done|]. split; [done|]. split; [done|].
    split; [done|]. intros k n Hk Hnone.
    destruct (decide (k = kd)) as [->|Hne].
    + split; [exists d; split; [by left | done]|].
      intros k' n' Hk'. by apply (has_entries_false (files w) kd k' n'),
        Hsub'.
    + destruct (Hgone k n) as [(d' & Hd' & Hloc) Hbelow]; [|done|].
      { by rewrite lookup_delete_ne. }
      split; [|done]. exists d'. split; [by right | done].
Qed.

Section ProgressFacts.

Lemma Create_stdout (name : string) (w w' : world) (r : result File) :
  os.Create name w = Normal r w' -> stdout w' = stdout w.
Proof.
  unfold os.Create, sys_fail, ret. repeat case_match; by intros [= _ <-].
Qed.

Lemma Copy_stdout (dst src : File) (w w' : world) (r : Z * option error) :
  io.Copy dst src w = Normal r w' -> stdout w' = stdout w.
Proof. unfold io.Copy. repeat case_match; by intros [= _ <-]. Qed.

Lemma update_stdout (name : string) (f : node -> node) (w w' : world)
    (r : option error) :
  os.update name f w = Normal r w' -> stdout w' = stdout w.
Proof.
  unfold os.update, sys_error, ret. repeat case_match; by intros [= _ <-].
Qed.

(** A copy prints nothing. *)
Lemma doCopy_stdout (source target : string) (w w' : world)
    (r : option error) :
  doCopy source target w = Normal r w' -> stdout w' = stdout w.
Proof.
  unfold doCopy. unfold_M.
  destruct (os.Stat source w) as [fileinfo|e]; [|by intros [= _ <-]].
  destruct (os.Open source w) as [sourceFile|e]; [|by intros [= _ <-]].
  destruct (os.Create target w) as [created w1| |] eqn:Hcreate; [|done..].
  apply Create_stdout in Hcreate.
  destruct created as [targetFile|e]; [|by intros [= _ <-]].
  destruct (io.Copy targetFile sourceFile w1) as [copied w2| |] eqn:Hcopy;
    [|done..].
  apply Copy_stdout in Hcopy.
  destruct (copied.2) as [e|].
  { destruct (os.Close targetFile w2) as [c w3| |] eqn:Hclose; [|done..].
    apply Close_frame in Hclose as ->. intros [= _ <-]. congruence. }
  destruct (os.Close targetFile w2) as [c w3| |] eqn:Hclose; [|done..].
  apply Close_frame in Hclose as ->.
  destruct c as [e|]; [intros [= _ <-]; congruence|].
  unfold os.Chmod, os.Chtimes.
  destruct (os.update target _ w2) as [c1 w4| |] eqn:Hchmod; [|done..].
  apply update_stdout in Hchmod.
  destruct (os.update target _ w4) as [c2 w5| |] eqn:Hchtimes; [|done..].
  apply update_stdout in Hchtimes.
  intros [= _ <-]. congruence.
Qed.

Lemma Stat_NotExist (p : string) (w : world) :
  IsFileExist p w = FileExistStatus_NotExist -> exists e, os.Stat p w = Err e.
Proof.
  unfold IsFileExist. destruct (os.Stat p w) as [fi|e]; [|eauto].
  by destruct (IsDir fi).
Qed.

Lemma Rename_missing (source target : string) (w : world) :
  IsFileExist source w = FileExistStatus_NotExist ->
  exists e, os.Rename source target w = Normal (Some e) w.
Proof.
  intros Hs. pose proof (proj1 (IsFileExist_NotExist _ _) Hs) as Hnone.
  unfold os.Rename, sys_error, ret.
  destruct (locate w source) as [o|]; [|eauto].
  destruct (locate w target) as [n|]; [|eauto].
  rewrite (Hnone o eq_refl). eauto.
Qed.

End ProgressFacts.

(** The progress line of a transfer does not tell whether the transfer
    took place.  [doCopyOrMove] always returns nil and always prints its
    line, the arrow of a copy or that of a move, as the only output.
    When the source does not exist, nothing else happens: the line is
    printed and no file has changed. *)
Theorem progress_line_without_transfer (source target : string)
    (moveMode : bool) (w : world) :
  let line := if moveMode then line_moved source target
              else line_copied source target in
  (exists w',
     doCopyOrMove source target moveMode w = Normal None w'
     /\ stdout w' = stdout w ++ [line])
  /\ (IsFileExist source w = FileExistStatus_NotExist ->
      doCopyOrMove source target moveMode w
      = Normal None (with_line w line)).
Proof.
  intros line. split.
  - unfold doCopyOrMove. unfold_M. destruct moveMode.
    + destruct (Rename_cases source target w)
        as [[e ->] | (o & n & nd & w1 & -> & _ & _ & _ & _ & _ & Hout & _)].
      * cbn. eauto.
      * cbn. eexists. split; [done|]. cbn [stdout with_line].
        by rewrite Hout.
    + destruct (doCopy_total source target w) as (r & w1 & Hrun).
      rewrite Hrun. apply doCopy_stdout in Hrun. cbn.
      eexists. split; [done|]. cbn [stdout with_line]. by rewrite Hrun.
  - intros Hs. unfold doCopyOrMove. unfold_M. destruct moveMode.
    + by destruct (Rename_missing source target w Hs) as [e ->].
    + unfold doCopy. unfold_M.
      by destruct (Stat_NotExist source w Hs) as [e ->].
Qed.

Lemma progress_line_without_transfer_witness :
  doCopyOrMove "src/missing.jpg" "dst/new.jpg" false photo_world
  = Normal None
      (with_line photo_world (line_copied "src/missing.jpg" "dst/new.jpg")).
Proof.
  destruct (progress_line_without_transfer "src/missing.jpg" "dst/new.jpg"
              false photo_world) as [_ Hmissing].
  apply Hmissing. vm_compute. reflexivity.
Defined.

Lemma pcopy_exit_status_witness :
  exists w',
    pcopy.main sample_digest walk_nothing sample_Error 10
      ["src/photo.jpg"; "dst/new.jpg"] full_disk_world = Normal 0 w'
    /\ contents w' ["dst"; "new.jpg"] = Some (bytes "a").
Proof.
  destruct (pcopy.main sample_digest walk_nothing sample_Error 10
              ["src/photo.jpg"; "dst/new.jpg"] full_disk_world)
    as [status w'| |] eqn:Hrun; [|vm_compute in Hrun; discriminate Hrun..].
  destruct (pcopy_exit_status sample_digest walk_nothing sample_Error 10
              ["src/photo.jpg"; "dst/new.jpg"] full_disk_world)
    as (_ & _ & Hzero);
    [by vm_compute; repeat constructor; intuition discriminate|].
  rewrite (Hzero "src/photo.jpg" "dst/new.jpg") with (status := status)
                                                     (w' := w').
  - exists w'. split; [reflexivity|].
    vm_compute in Hrun. injection Hrun as _ <-. vm_compute. reflexivity.
  - split; reflexivity.
  - vm_compute. intuition discriminate.
  - exact Hrun.
Defined.
